(** * legacy-mm-processor: the event admission and routing pipeline

    A shallow embedding of [src/services/SubmissionService.js]: the Joi
    event schema, the two enrichment helpers [getSubmission] and
    [getSubTrack], and the message handler [handle].

    JavaScript values are an inductive type, the external collaborators
    (token provider, the two HTTP services, the two legacy-store updates)
    are an oracle consulted through a small state-and-exception monad that
    records every outbound call and every log line in a trace. *)

From Stdlib Require Import String Ascii List Bool ZArith QArith Qabs Lia.
From Stdlib Require Import DecimalString.
Import ListNotations.
Local Open Scope string_scope.
Set Warnings "-register-all".

(** ** JavaScript values *)

(** The values [JSON.parse] can produce, plus [undefined].  A finite
    number is a rational: every JSON literal denotes one, and the rounding
    of a literal to the nearest IEEE double is outside this model, except
    for the literals too large for a double, which [JSON.parse] reads as
    [Infinity] or [-Infinity] ([VInf]).  A string is the sequence of bytes
    of its UTF-8 encoding.  Objects are association lists, looked up
    first-match. *)
Inductive value : Type :=
| VUndefined
| VNull
| VBool (b : bool)
| VNum (q : Q)
| VInf (negative : bool)
| VStr (s : string)
| VArr (items : list value)
| VObj (fields : list (string * value)).

(** ToBoolean *)
Definition truthy (v : value) : bool :=
  match v with
  | VUndefined | VNull => false
  | VBool b => b
  | VNum q => negb (Qeq_bool q 0)
  | VInf _ => true
  | VStr s => negb (String.eqb s "")
  | VArr _ | VObj _ => true
  end.

Fixpoint lookup (k : string) (fields : list (string * value)) : value :=
  match fields with
  | [] => VUndefined
  | (k', v) :: rest => if String.eqb k k' then v else lookup k rest
  end.

(** [s[0]]: the first character of a string, if any.  Only its being a
    string or [undefined] matters here, since nothing but a property is
    read off it. *)
Definition first_char (s : string) : value :=
  match s with
  | EmptyString => VUndefined
  | String c _ => VStr (String c EmptyString)
  end.

(** [v[k]] for a value that is neither [undefined] nor [null].  The handler
    only reads the names below and the index [0]; none of them is an own or
    inherited property of a string, number, boolean or array, except the
    index [0] of an array or of a string. *)
Definition get_own (v : value) (k : string) : value :=
  match v with
  | VObj fields => lookup k fields
  | VArr items => if String.eqb k "0" then nth 0 items VUndefined else VUndefined
  | VStr s => if String.eqb k "0" then first_char s else VUndefined
  | _ => VUndefined
  end.

(** [v.k]: [None] stands for the TypeError JavaScript throws when [v] is
    [undefined] or [null]. *)
Definition member (v : value) (k : string) : option value :=
  match v with
  | VUndefined | VNull => None
  | _ => Some (get_own v k)
  end.

(** lodash [_.get(object, path)] for a path given as its list of keys:
    nil-safe, never throws.  It is also what a chain of member reads
    [v.a.b] gives when no object on the way is [undefined] or [null]. *)
Fixpoint lodash_get (v : value) (path : list string) : value :=
  match path with
  | [] => v
  | k :: rest =>
      match v with
      | VUndefined | VNull => VUndefined
      | _ => lodash_get (get_own v k) rest
      end
  end.

(** [path in Object(v)] for a path that holds a dot: only an object with an
    own key of that very name has it. *)
Definition has_own (v : value) (k : string) : bool :=
  match v with
  | VObj fields => existsb (String.eqb k) (map fst fields)
  | _ => false
  end.

(** lodash [stringToPath] for the paths of this file, which are made of
    names, dots and bracketed indices: the names and indices, in order. *)
Fixpoint stringToPath_aux (s : string) (cur : string) : list string :=
  let flush rest :=
    match cur with
    | EmptyString => rest
    | _ => cur :: rest
    end in
  match s with
  | EmptyString => flush []
  | String c rest =>
      if Ascii.eqb c "." || Ascii.eqb c "[" || Ascii.eqb c "]"
      then flush (stringToPath_aux rest "")
      else stringToPath_aux rest (cur ++ String c EmptyString)
  end.

Definition stringToPath (path : string) : list string :=
  stringToPath_aux path "".

(** lodash [_.get(object, path)] for a path given as a string.  lodash
    first asks whether the whole string is a key of the object ([isKey]:
    [path in Object(object)]) and reads that property if so; only
    otherwise is the string split into keys. *)
Definition lodash_get_path (object : value) (path : string) : value :=
  if has_own object path then get_own object path
  else lodash_get object (stringToPath path).

(** ToString as a template literal applies it to an interpolated value.  A
    primitive always has a string.  An object converts through its
    [toString] property: an object read from JSON inherits the callable
    [Object.prototype.toString] unless it has an own key of that name,
    whose value, being JSON data, is not callable; [valueOf] then returns
    the object itself and the conversion throws a TypeError.  An array
    converts by joining the strings of its elements. *)
Fixpoint stringifiable (v : value) : bool :=
  match v with
  | VObj fields => negb (existsb (String.eqb "toString") (map fst fields))
  | VArr items => forallb stringifiable items
  | _ => true
  end.

(** [v === s] for a string [s] *)
Definition strict_eq_str (v : value) (s : string) : bool :=
  match v with
  | VStr t => String.eqb t s
  | _ => false
  end.

(** [list.includes(v)] for a list of strings *)
Definition includes (l : list string) (v : value) : bool :=
  existsb (strict_eq_str v) l.

(** ** Strings: [split(',')] and [trim()] *)

Fixpoint split_aux (sep : ascii) (s : string) (cur : string) : list string :=
  match s with
  | EmptyString => [cur]
  | String c rest =>
      if Ascii.eqb c sep then cur :: split_aux sep rest ""
      else split_aux sep rest (cur ++ String c EmptyString)
  end.

(** [s.split(sep)] for a one-character separator; the empty string gives
    one empty piece, as in JavaScript. *)
Definition split (sep : ascii) (s : string) : list string :=
  split_aux sep s "".

(** The white space [String.prototype.trim] removes is ECMAScript's
    WhiteSpace and LineTerminator: U+0009 to U+000D, U+0020, U+00A0,
    U+1680, U+2000 to U+200A, U+2028, U+2029, U+202F, U+205F, U+3000 and
    U+FEFF.  In UTF-8 the first six are single bytes, U+00A0 is the two
    bytes C2 A0, and the others take three bytes. *)
Definition is_space1 (a : ascii) : bool :=
  let x := nat_of_ascii a in
  ((9 <=? x) && (x <=? 13))%nat || (x =? 32)%nat.

Definition is_space2 (a b : ascii) : bool :=
  ((nat_of_ascii a =? 194) && (nat_of_ascii b =? 160))%nat.

Definition is_space3 (a b c : ascii) : bool :=
  let x := nat_of_ascii a in
  let y := nat_of_ascii b in
  let z := nat_of_ascii c in
  ((x =? 225) && (y =? 154) && (z =? 128)                     (* U+1680 *)
   || (x =? 226) && (y =? 128)
      && ((128 <=? z) && (z <=? 138)                          (* U+2000-200A *)
          || (z =? 168) || (z =? 169) || (z =? 175))          (* U+2028/9/F *)
   || (x =? 226) && (y =? 129) && (z =? 159)                  (* U+205F *)
   || (x =? 227) && (y =? 128) && (z =? 128)                  (* U+3000 *)
   || (x =? 239) && (y =? 187) && (z =? 191))%nat.            (* U+FEFF *)

(** The string after its first character, when that character is white
    space. *)
Definition leading_space (s : string) : option string :=
  match s with
  | String a r1 =>
      if is_space1 a then Some r1
      else
        match r1 with
        | String b r2 =>
            if is_space2 a b then Some r2
            else
              match r2 with
              | String c r3 => if is_space3 a b c then Some r3 else None
              | EmptyString => None
              end
        | EmptyString => None
        end
  | EmptyString => None
  end.

(** At most [fuel] white-space characters removed from the front. *)
Fixpoint drop_spaces (fuel : nat) (s : string) : string :=
  match fuel with
  | O => s
  | S n =>
      match leading_space s with
      | Some rest => drop_spaces n rest
      | None => s
      end
  end.

Definition trim_start (s : string) : string :=
  drop_spaces (String.length s) s.

(** The string holds white space only. *)
Definition all_space (s : string) : bool :=
  String.eqb (trim_start s) "".

Fixpoint trim_end (s : string) : string :=
  match s with
  | EmptyString => EmptyString
  | String c rest =>
      if all_space s then EmptyString else String c (trim_end rest)
  end.

Definition trim (s : string) : string := trim_end (trim_start s).

(** [config.X.split(',').map(x => x.trim())] *)
Definition allow_set (s : string) : list string :=
  map trim (split "," s).

(** [list.join(sep)] for a list of strings *)
Fixpoint join (sep : string) (l : list string) : string :=
  match l with
  | [] => ""
  | [x] => x
  | x :: rest => x ++ sep ++ join sep rest
  end.

(** ** Configuration and platform *)

(** The [config] entries the handler branches on. *)
Record Config : Type := {
  KAFKA_NEW_SUBMISSION_TOPIC : string;
  KAFKA_UPDATE_SUBMISSION_TOPIC : string;
  KAFKA_NEW_SUBMISSION_ORIGINATOR : string;
  CHALLENGE_SUBTRACK : string;
  PAYLOAD_TYPES : string
}.

(** What the JavaScript engine and Joi's regular expressions decide and the
    repository does not define: [JSON.parse] ([None] when it throws), Joi's
    conversion of a string to a number ([parseFloat] guarded by [isFinite]),
    whether a string makes a valid [Date], and Joi's GUID and URI
    patterns. *)
Record Platform : Type := {
  JSON_parse : string -> option value;
  number_of_string : string -> option Q;
  date_of_string : string -> bool;
  is_guid : string -> bool;
  is_uri : string -> bool
}.

(** ** Joi 13: schemas *)

(** The part of Joi the event schema uses.  A schema is the base type, the
    flags every type shares (presence, the [valid(...)] allow-list), the
    tests chained on it, and for objects and alternatives the inner
    schemas. *)
Inductive presence_t : Type := Optional | Required.

Record flags : Type := {
  presence : presence_t;
  valids : list value;
  allowOnly : bool
}.

Inductive test : Type :=
| integer_t
| positive_t
| min_t (limit : Q)
| max_t (limit : Q)
| guid_t
| uri_t.

Inductive schema : Type :=
| JString (f : flags) (tests : list test)
| JNumber (f : flags) (tests : list test)
| JDate (f : flags)
| JObject (f : flags) (children : option (list (string * schema)))
          (allowUnknown : option bool)
| JAlternatives (f : flags) (matches : list schema).

Definition no_flags : flags :=
  {| presence := Optional; valids := []; allowOnly := false |}.

Definition schema_flags (s : schema) : flags :=
  match s with
  | JString f _ | JNumber f _ | JDate f | JObject f _ _
  | JAlternatives f _ => f
  end.

Definition with_flags (g : flags -> flags) (s : schema) : schema :=
  match s with
  | JString f ts => JString (g f) ts
  | JNumber f ts => JNumber (g f) ts
  | JDate f => JDate (g f)
  | JObject f cs u => JObject (g f) cs u
  | JAlternatives f ms => JAlternatives (g f) ms
  end.

Definition with_test (t : test) (s : schema) : schema :=
  match s with
  | JString f ts => JString f (ts ++ [t])%list
  | JNumber f ts => JNumber f (ts ++ [t])%list
  | _ => s
  end.

(** The builder calls, named as in Joi and written postfix with [|>] so
    that a schema reads as it does in the source. *)
Module Joi.
Definition string : schema := JString no_flags [].
Definition number : schema := JNumber no_flags [].
Definition date : schema := JDate no_flags.
Definition object : schema := JObject no_flags None None.
Definition alternatives : schema := JAlternatives no_flags [].

Definition required : schema -> schema :=
  with_flags (fun f => {| presence := Required; valids := valids f;
                          allowOnly := allowOnly f |}).
Definition optional : schema -> schema :=
  with_flags (fun f => {| presence := Optional; valids := valids f;
                          allowOnly := allowOnly f |}).
Definition valid (vs : list value) : schema -> schema :=
  with_flags (fun f => {| presence := presence f;
                          valids := (valids f ++ vs)%list;
                          allowOnly := true |}).
Definition integer : schema -> schema := with_test integer_t.
Definition positive : schema -> schema := with_test positive_t.
Definition min (q : Q) : schema -> schema := with_test (min_t q).
Definition max (q : Q) : schema -> schema := with_test (max_t q).
Definition uuid : schema -> schema := with_test guid_t.
Definition uri : schema -> schema := with_test uri_t.

Definition keys (cs : list (String.string * schema)) (s : schema) : schema :=
  match s with
  | JObject f None u => JObject f (Some cs) u
  | JObject f (Some old) u => JObject f (Some (old ++ cs)%list) u
  | _ => s
  end.
Definition unknown (allow : bool) (s : schema) : schema :=
  match s with
  | JObject f cs _ => JObject f cs (Some allow)
  | _ => s
  end.
Definition try (ms : list schema) (s : schema) : schema :=
  match s with
  | JAlternatives f old => JAlternatives f (old ++ ms)%list
  | _ => s
  end.

(** [Joi.id = () => Joi.number().integer().positive().required()] *)
Definition id : schema := required (positive (integer number)).
End Joi.

Notation "s |> f" := (f s) (at level 45, left associativity, only parsing).

(** The event schema to validate events from Kafka (lines 18-39). *)
Definition eventSchema : schema :=
  Joi.object |> Joi.keys [
    ("topic", Joi.string |> Joi.required);
    ("originator", Joi.string |> Joi.required);
    ("timestamp", Joi.date |> Joi.required);
    ("mime-type", Joi.string |> Joi.required);
    ("payload", Joi.object |> Joi.keys [
      ("id", Joi.alternatives |> Joi.try [Joi.id; Joi.string |> Joi.uuid]
               |> Joi.required);
      ("resource", Joi.alternatives |> Joi.try [
                     Joi.string |> Joi.valid [VStr "submission"];
                     Joi.string |> Joi.valid [VStr "review"];
                     Joi.string |> Joi.valid [VStr "reviewSummation"]]);
      ("challengeId", Joi.id |> Joi.optional);
      ("memberId", Joi.id |> Joi.optional);
      ("submissionPhaseId", Joi.id |> Joi.optional);
      ("url", Joi.string |> Joi.uri |> Joi.optional);
      ("type", Joi.string |> Joi.optional);
      ("legacySubmissionId",
         Joi.number |> Joi.integer |> Joi.positive |> Joi.optional);
      ("isExample",
         Joi.number |> Joi.integer |> Joi.valid [VNum 0; VNum 1]
           |> Joi.optional);
      ("typeId", Joi.string |> Joi.optional);
      ("score", Joi.number |> Joi.min 0 |> Joi.max 100 |> Joi.optional);
      ("metadata", Joi.object |> Joi.keys [
         ("testType", Joi.string |> Joi.required)
       ] |> Joi.optional)
    ] |> Joi.required |> Joi.unknown true)
  ].

(** ** Joi 13: validation *)

(** One entry of [error.details]. *)
Record detail : Type := {
  message : string;
  path : list string;
  type : string
}.

Record options : Type := {
  abortEarly : bool;
  stripUnknown : bool
}.

Definition dquote : string := String (ascii_of_nat 34) "".

(** The label of an error is the key it is reported at, ["value"] at the
    root. *)
Definition label_of (p : list string) : string := last p "value".

Definition mk_error (p : list string) (ty text : string) : detail :=
  {| message := dquote ++ label_of p ++ dquote ++ " " ++ text;
     path := p; type := ty |}.

(** [Number.isSafeInteger] *)
Definition is_safe_integer (q : Q) : bool :=
  (Qnum q mod Zpos (Qden q) =? 0)%Z
  && Qle_bool (Qabs q) (inject_Z (2 ^ 53 - 1)).

(** [new Date(n)] is a valid date up to 8.64e15 milliseconds either side
    of the epoch. *)
Definition date_of_number (q : Q) : bool :=
  Qle_bool (Qabs q) (inject_Z 8640000000000000).

(** Printing of the integers that occur in the schema's limits and
    allow-lists. *)
Definition show_num (q : Q) : string :=
  NilZero.string_of_int (Z.to_int (Qnum q / Zpos (Qden q))).

Definition show_value (v : value) : string :=
  match v with
  | VStr s => s
  | VNum q => show_num q
  | VInf false => "Infinity"
  | VInf true => "-Infinity"
  | VBool true => "true"
  | VBool false => "false"
  | VNull => "null"
  | _ => ""
  end.

(** Membership in a [valid(...)] or [invalid(...)] list: strict equality
    of primitives. *)
Definition same_primitive (a b : value) : bool :=
  match a, b with
  | VStr x, VStr y => String.eqb x y
  | VNum x, VNum y => Qeq_bool x y
  | VInf x, VInf y => Bool.eqb x y
  | VBool x, VBool y => Bool.eqb x y
  | VNull, VNull => true
  | _, _ => false
  end.

Definition has (vs : list value) (v : value) : bool :=
  existsb (same_primitive v) vs.

(** With [abortEarly] the first step that reports errors ends the
    validation of the value; without it every step runs. *)
Fixpoint steps (abort : bool) (l : list (list detail)) : list detail :=
  match l with
  | [] => []
  | [] :: rest => steps abort rest
  | e :: rest => if abort then e else (e ++ steps abort rest)%list
  end.

Section Validation.

Variable P : Platform.

Definition run_test (p : list string) (t : test) (v : value) : list detail :=
  match t, v with
  | integer_t, VNum q =>
      if is_safe_integer q then []
      else [mk_error p "number.integer" "must be an integer"]
  | integer_t, VInf _ => [mk_error p "number.integer" "must be an integer"]
  | positive_t, VNum q =>
      if negb (Qle_bool q 0) then []
      else [mk_error p "number.positive" "must be a positive number"]
  | positive_t, VInf negative =>
      if negb negative then []
      else [mk_error p "number.positive" "must be a positive number"]
  | min_t l, VNum q =>
      if Qle_bool l q then []
      else [mk_error p "number.min"
              ("must be larger than or equal to " ++ show_num l)]
  | min_t l, VInf negative =>
      if negb negative then []
      else [mk_error p "number.min"
              ("must be larger than or equal to " ++ show_num l)]
  | max_t l, VNum q =>
      if Qle_bool q l then []
      else [mk_error p "number.max"
              ("must be less than or equal to " ++ show_num l)]
  | max_t l, VInf negative =>
      if negative then []
      else [mk_error p "number.max"
              ("must be less than or equal to " ++ show_num l)]
  | guid_t, VStr s =>
      if is_guid P s then []
      else [mk_error p "string.guid" "must be a valid GUID"]
  | uri_t, VStr s =>
      if is_uri P s then []
      else [mk_error p "string.uri" "must be a valid uri"]
  | _, _ => []
  end.

(** [Any.prototype._validate]: presence, the allow-list on the raw value,
    the values the type refuses from the start ([invalids]: the empty
    string for a string schema, [Infinity] and [-Infinity] for a number
    schema), the base type (an error there always ends the value), the
    allow-list on the converted value, [allowOnly], then the tests.  No
    conversion of the schema yields a refused value (a string that reads as
    an infinite number is not a number for Joi), so the second look at
    [invalids], on the converted value, is left out. *)
Definition any_validate (o : options) (f : flags) (p : list string)
    (invalids : list value) (base : value -> value + list detail)
    (tests : list test) (v : value) : list detail :=
  match v with
  | VUndefined =>
      match presence f with
      | Required => [mk_error p "any.required" "is required"]
      | Optional => []
      end
  | _ =>
      if has (valids f) v then []
      else
        let invalid :=
          if has invalids v
          then [if same_primitive v (VStr "")
                then mk_error p "any.empty" "is not allowed to be empty"
                else mk_error p "any.invalid" "contains an invalid value"]
          else [] in
        if abortEarly o && negb (Nat.eqb (length invalid) 0) then invalid
        else
          match base v with
          | inr errs => (invalid ++ errs)%list
          | inl v' =>
              if has (valids f) v' then invalid
              else
                (invalid ++
                 steps (abortEarly o)
                   ((if allowOnly f
                     then [mk_error p "any.allowOnly"
                             ("must be one of [" ++
                              join ", " (map show_value (valids f)) ++ "]")]
                     else [])
                    :: map (fun t => run_test p t v') tests))%list
          end
  end.

Definition string_base (p : list string) (v : value) : value + list detail :=
  match v with
  | VStr _ => inl v
  | _ => inr [mk_error p "string.base" "must be a string"]
  end.

Definition number_base (p : list string) (v : value) : value + list detail :=
  let bad := inr [mk_error p "number.base" "must be a number"] in
  match v with
  | VNum _ | VInf _ => inl v
  | VStr s =>
      match number_of_string P s with
      | Some q => inl (VNum q)
      | None => bad
      end
  | _ => bad
  end.

Definition date_base (p : list string) (v : value) : value + list detail :=
  let bad :=
    inr [mk_error p "date.base"
           "must be a number of milliseconds or valid date string"] in
  match v with
  | VNum q => if date_of_number q then inl v else bad
  | VStr s => if date_of_string P s then inl v else bad
  | _ => bad
  end.

(** Joi's [safeParse]: a string is given one chance to be JSON text. *)
Definition safeParse (v : value) : value :=
  match v with
  | VStr s =>
      match JSON_parse P s with
      | Some parsed => parsed
      | None => v
      end
  | _ => v
  end.

Definition own_keys (fields : list (string * value)) : list string :=
  nodup string_dec (map fst fields).

(** Keys of the value no child schema names: stripped when the
    [stripUnknown] option is on and the schema does not say
    [unknown(true)]; otherwise allowed when the schema says so and an
    error each when it does not. *)
Definition unknown_errors (o : options) (allowUnknown : option bool)
    (p : list string) (known : list string)
    (fields : list (string * value)) : list detail :=
  let unprocessed :=
    filter (fun k => negb (existsb (String.eqb k) known)) (own_keys fields) in
  let stripped :=
    stripUnknown o
    && negb (match allowUnknown with Some true => true | _ => false end) in
  if stripped then []
  else if match allowUnknown with Some a => negb a | None => true end
  then map (fun k => mk_error (p ++ [k])%list "object.allowUnknown"
                       "is not allowed") unprocessed
  else [].

Fixpoint validate (o : options) (s : schema) (p : list string) (v : value)
    {struct s} : list detail :=
  match s with
  | JString f ts => any_validate o f p [VStr ""] (string_base p) ts v
  | JNumber f ts =>
      any_validate o f p [VInf false; VInf true] (number_base p) ts v
  | JDate f => any_validate o f p [] (date_base p) [] v
  | JObject f children allowUnknown =>
      any_validate o f p []
        (fun v0 =>
           match safeParse v0 with
           | VObj fields =>
               match children with
               | None => inl (VObj fields)
               | Some cs =>
                   let child_errors :=
                     (fix each (cs : list (string * schema)) :=
                        match cs with
                        | [] => []
                        | (k, sc) :: rest =>
                            validate o sc (p ++ [k])%list (lookup k fields)
                            :: each rest
                        end) cs in
                   match steps (abortEarly o)
                           (child_errors ++
                            [unknown_errors o allowUnknown p (map fst cs)
                               fields])%list with
                   | [] => inl (VObj fields)
                   | errs => inr errs
                   end
               end
           | _ => inr [mk_error p "object.base" "must be an object"]
           end)
        [] v
  | JAlternatives f ms =>
      any_validate o f p []
        (fun v0 =>
           (fix attempt (ms : list schema) (reasons : list detail) :=
              match ms with
              | [] =>
                  match reasons with
                  | [] => inr [mk_error p "alternatives.base"
                                 "not matching any of the allowed alternatives"]
                  | _ => inr reasons
                  end
              | m :: rest =>
                  match validate o m p v0 with
                  | [] => inl v0
                  | errs => attempt rest (reasons ++ errs)%list
                  end
              end) ms [])
        [] v
  end.

(** [Joi.validate(value, schema, options).error.details]; the empty list is
    [error === null]. *)
Definition Joi_validate (v : value) (s : schema) (o : options) : list detail :=
  validate o s [] v.

End Validation.

(** ** Collaborators, log lines and the trace *)

(** The outbound calls of the service.  [db], the id generators and the
    Axios instance are handles the calls are made on; they carry no data
    the handler inspects and are left out of the arguments. *)
Inductive call : Type :=
| m2m_getMachineToken
    (* m2m.getMachineToken(AUTH0_CLIENT_ID, AUTH0_CLIENT_SECRET) *)
| axios_get_submission (submissionId : value) (token : option value)
    (* axios.get(`/submissions/${submissionId}`, apiOptions) *)
| Axios_get_challenge (challengeId : value)
    (* Axios.get(CHALLENGE_INFO_API.replace('{cid}', challengeId)) *)
| updateReviewScore (event : value)
    (* updateReviewScore(Axios, m2m, event, db) *)
| LegacySubmissionIdService_updateReviewScore
    (legacySubmissionId reviewScore : value) (field : string).
    (* LegacySubmissionIdService.updateReviewScore(db, id, score, field) *)

(** What a rejected promise or a [throw] carries: an Axios error with its
    [response] and [request] properties, the TypeError of a property read
    on [undefined] or [null], or an [Error] with a message. *)
Inductive thrown : Type :=
| AxiosError (response : option value) (request : bool)
| TypeError
| Error (msg : string).

Inductive level : Type := debug | info | error.

(** The logger calls of the file, one constructor per call site, with the
    values the message interpolates.  The two API error lines print their
    argument with [Flatted.stringify], the last one with [util.inspect]. *)
Inductive line : Type :=
| Skipped_null_or_empty_event
| Skipped_non_well_formed_JSON_message
| Skipped_invalid_event_reasons (validationErrorMessage : string)
| Skipped_event_from_topic (topic : value)
| Skipped_event_from_originator (originator : value)
| Skipped_event_from_resource (resource : value)
| Challenge_get_subTrack (subTrack : value)
| Skipping_as_NOT_MM_found_in (challangeSubtracks : list string)
| Skipped_Invalid_typeId
| Fetching_submission_for (submissionId : value)
| Fetched_submission_for (submissionId data : value)
| Fetching_challenge_details_for (challengeId : value)
| Submission_API_Error (response : value)
| Submission_API_Error_no_response
| Challenge_Details_API_Error (response : value)
| Challenge_Details_API_Error_no_response
| inspect (err : thrown).

Inductive entry : Type :=
| Called (c : call)
| Logged (l : level) (n : line).

Definition trace : Type := list entry.

Fixpoint calls_of (t : trace) : list call :=
  match t with
  | [] => []
  | Called c :: rest => c :: calls_of rest
  | Logged _ _ :: rest => calls_of rest
  end.

(** The collaborators: what the awaited call resolves to ([inl], for the
    two GET calls the [data] of the response) or rejects with ([inr]),
    given the calls made before it. *)
Definition world : Type := list call -> call -> value + thrown.

(** ** The monad of the handler *)

Inductive result (A : Type) : Type :=
| Returned (a : A)
| Threw (e : thrown).
Arguments Returned {A} a.
Arguments Threw {A} e.

Definition M (A : Type) : Type := world -> trace -> result A * trace.

Definition ret {A : Type} (a : A) : M A := fun _ t => (Returned a, t).

Definition throw {A : Type} (e : thrown) : M A := fun _ t => (Threw e, t).

Definition bind {A B : Type} (m : M A) (k : A -> M B) : M B :=
  fun w t =>
    match m w t with
    | (Returned a, t') => k a w t'
    | (Threw e, t') => (Threw e, t')
    end.

(** [try { m } catch (err) { h err }] *)
Definition try_catch {A : Type} (m : M A) (h : thrown -> M A) : M A :=
  fun w t =>
    match m w t with
    | (Threw e, t') => h e w t'
    | r => r
    end.

(** [await] of an outbound call *)
Definition await (c : call) : M value :=
  fun w t =>
    (match w (calls_of t) c with
     | inl v => Returned v
     | inr e => Threw e
     end, (t ++ [Called c])%list).

(** The template literal of a message is evaluated before the logger is
    called: each interpolated value is converted to a string, in order, and
    the first one that has none throws a TypeError. *)
Fixpoint template (vs : list value) : M unit :=
  match vs with
  | [] => ret tt
  | v :: rest => if stringifiable v then template rest else throw TypeError
  end.

(** The values a log line interpolates in a template literal. *)
Definition interpolated (n : line) : list value :=
  match n with
  | Skipped_event_from_topic v
  | Skipped_event_from_originator v
  | Skipped_event_from_resource v
  | Challenge_get_subTrack v
  | Fetching_submission_for v
  | Fetching_challenge_details_for v => [v]
  | Fetched_submission_for submissionId data => [submissionId; data]
  | _ => []
  end.

Definition log (l : level) (n : line) : M unit :=
  bind (template (interpolated n))
       (fun _ _ t => (Returned tt, (t ++ [Logged l n])%list)).

(** [v.k], throwing the TypeError of a read on [undefined] or [null] *)
Definition read (v : value) (k : string) : M value :=
  match member v k with
  | Some x => ret x
  | None => throw TypeError
  end.

Notation "x <- m ;; k" := (bind m (fun x => k))
  (at level 61, m at next level, right associativity).
Notation "m ;;; k" := (bind m (fun _ => k))
  (at level 61, right associativity).

(** Run a computation from the empty trace. *)
Definition run {A : Type} (m : M A) (w : world) : result A * trace :=
  m w [].

(** ** The service *)

(** The three-way [catch] of [getSubmission] and [getSubTrack]. *)
Definition log_api_error (with_response : value -> line) (no_response : line)
    (err : thrown) : M unit :=
  match err with
  | AxiosError (Some r) _ => log error (with_response r)
  | AxiosError None true => log error no_response
  | _ => log error (inspect err)
  end.

(** Get the submission (lines 47-79).  [m2m] says whether an auth provider
    was passed.  The token is interpolated into the Authorization header
    (line 58) and the submission id into the log line and the URL (lines
    61-62).  Every failure is logged and the function then falls off its
    end: it returns [undefined]. *)
Definition getSubmission (submissionId : value) (m2m : bool) : M value :=
  try_catch
    (apiOptions <-
       (if m2m
        then token <- await m2m_getMachineToken ;;
             template [token] ;;;
             ret (Some token)
        else ret None) ;;
     log info (Fetching_submission_for submissionId) ;;;
     sub_data <- await (axios_get_submission submissionId apiOptions) ;;
     log info (Fetched_submission_for submissionId sub_data) ;;;
     ret sub_data)
    (fun err =>
       log_api_error Submission_API_Error Submission_API_Error_no_response
         err ;;;
       ret VUndefined).

(** Get the subtrack for a challenge (lines 86-110). *)
Definition getSubTrack (submissionId : value) (m2m : bool) : M value :=
  try_catch
    (submission <- getSubmission submissionId m2m ;;
     challengeId <- read submission "challengeId" ;;
     log info (Fetching_challenge_details_for challengeId) ;;;
     result_data <- await (Axios_get_challenge challengeId) ;;
     ret (lodash_get_path result_data "result.content[0].subTrack"))
    (fun err =>
       log_api_error Challenge_Details_API_Error
         Challenge_Details_API_Error_no_response err ;;;
       ret VUndefined).

(** The message value handed to [handle]: a JSON string, or [null] or
    [undefined]. *)
Inductive message_value : Type :=
| MUndefined
| MNull
| MString (s : string).

Section Service.

Variable P : Platform.
Variable config : Config.

Definition handle_options : options :=
  {| abortEarly := false; stripUnknown := true |}.

(** Lines 173-193: the branch on [payload.resource]. *)
Definition branch (event : value) (m2m : bool) : M unit :=
  payload <- read event "payload" ;;
  resource <- read payload "resource" ;;
  if truthy resource && strict_eq_str resource "review" then
    let payloadTypes := allow_set (PAYLOAD_TYPES config) in
    typeId <- read payload "typeId" ;;
    if truthy typeId && includes payloadTypes typeId then
      await (updateReviewScore event) ;;; ret tt
    else
      log debug Skipped_Invalid_typeId
  else if truthy resource && strict_eq_str resource "reviewSummation" then
    topic <- read event "topic" ;;
    if strict_eq_str topic (KAFKA_NEW_SUBMISSION_TOPIC config) then
      let reviewScore := lodash_get_path event "payload.aggregateScore" in
      let submissionId := lodash_get_path event "payload.submissionId" in
      sub <- getSubmission submissionId m2m ;;
      legacySubmissionId <- read sub "legacySubmissionId" ;;
      if negb (truthy legacySubmissionId) then
        throw (Error "legacySubmissionId not found")
      else
        await (LegacySubmissionIdService_updateReviewScore
                 legacySubmissionId reviewScore "finalScore") ;;;
        ret tt
    else ret tt
  else ret tt.

(** Lines 164-171: enrichment and the SubTrack filter.  [event] is the
    parsed message itself: the value Joi returns is not used.  The debug
    line of line 166 interpolates the SubTrack outside any [try]. *)
Definition route (event : value) (m2m : bool) : M unit :=
  payload <- read event "payload" ;;
  submissionId <- read payload "submissionId" ;;
  subTrack <- getSubTrack submissionId m2m ;;
  log debug (Challenge_get_subTrack subTrack) ;;;
  let challangeSubtracks := allow_set (CHALLENGE_SUBTRACK config) in
  if negb (truthy subTrack && includes challangeSubtracks subTrack) then
    log debug (Skipping_as_NOT_MM_found_in challangeSubtracks)
  else branch event m2m.

(** Lines 148-162: topic, originator and resource checks, before any
    outbound call. *)
Definition check (event : value) (m2m : bool) : M unit :=
  topic <- read event "topic" ;;
  if negb (strict_eq_str topic (KAFKA_NEW_SUBMISSION_TOPIC config))
     && negb (strict_eq_str topic (KAFKA_UPDATE_SUBMISSION_TOPIC config))
  then log debug (Skipped_event_from_topic topic)
  else
    originator <- read event "originator" ;;
    if negb (strict_eq_str originator (KAFKA_NEW_SUBMISSION_ORIGINATOR config))
    then log debug (Skipped_event_from_originator originator)
    else
      payload <- read event "payload" ;;
      resource <- read payload "resource" ;;
      if strict_eq_str resource "submission"
      then log debug (Skipped_event_from_resource resource)
      else route event m2m.

(** Handle new submission message (lines 120-194). *)
Definition handle (value : message_value) (m2m : bool) : M unit :=
  match value with
  | MUndefined | MNull | MString "" =>
      log debug Skipped_null_or_empty_event
  | MString text =>
      match JSON_parse P text with
      | None => log debug Skipped_non_well_formed_JSON_message
      | Some event =>
          if negb (truthy event) then log debug Skipped_null_or_empty_event
          else
            let validationResult :=
              Joi_validate P event eventSchema handle_options in
            match validationResult with
            | _ :: _ =>
                let validationErrorMessage :=
                  join ", " (map message validationResult) in
                log debug
                  (Skipped_invalid_event_reasons validationErrorMessage)
            | [] => check event m2m
            end
      end
  end.

End Service.

(** ** A reference platform

    An executable [Platform] for the examples: a reader of JSON text
    (literals, numbers, strings with the one-character escapes, arrays,
    objects; a repeated key keeps its last value; a number literal too
    large for a double is infinite), decimal literals as numbers, ISO dates
    written [YYYY-MM-DDThh:mm:ssZ], hyphenated GUIDs and [scheme:rest]
    URIs.  The theorems below hold for every platform; this
    one only serves to run the handler on concrete messages. *)
Module Reference.

Definition chars : Type := list ascii.

Fixpoint to_chars (s : string) : chars :=
  match s with
  | EmptyString => []
  | String c rest => c :: to_chars rest
  end.

Fixpoint of_chars (l : chars) : string :=
  match l with
  | [] => EmptyString
  | c :: rest => String c (of_chars rest)
  end.

Definition code (c : ascii) : nat := nat_of_ascii c.

Definition is_digit (c : ascii) : bool :=
  ((48 <=? code c) && (code c <=? 57))%nat.

Definition is_hex (c : ascii) : bool :=
  is_digit c
  || ((65 <=? code c) && (code c <=? 70))%nat
  || ((97 <=? code c) && (code c <=? 102))%nat.

Definition is_alpha (c : ascii) : bool :=
  ((65 <=? code c) && (code c <=? 90))%nat
  || ((97 <=? code c) && (code c <=? 122))%nat.

(** JSON white space: space, tab, line feed, carriage return *)
Definition is_json_space (c : ascii) : bool :=
  ((code c =? 32) || (code c =? 9) || (code c =? 10) || (code c =? 13))%nat.

Fixpoint skip_ws (l : chars) : chars :=
  match l with
  | c :: rest => if is_json_space c then skip_ws rest else l
  | [] => []
  end.

Fixpoint take_digits (l : chars) : chars * chars :=
  match l with
  | c :: rest =>
      if is_digit c
      then let (ds, r) := take_digits rest in (c :: ds, r)
      else ([], l)
  | [] => ([], [])
  end.

Definition digits_value (ds : chars) : Z :=
  fold_left (fun acc c => (10 * acc + Z.of_nat (code c - 48))%Z) ds 0%Z.

Definition scale (m : Z) (e : Z) : Q :=
  if (0 <=? e)%Z then inject_Z (m * 10 ^ e)
  else Qred (Qmake m (Z.to_pos (10 ^ (- e)))).

(** [-? int frac? exp?] with no leading zero *)
Definition read_number (l : chars) : option (Q * chars) :=
  let (neg, l1) :=
    match l with
    | "-"%char :: r => (true, r)
    | _ => (false, l)
    end in
  let (int_ds, l2) := take_digits l1 in
  match int_ds with
  | [] => None
  | d :: more =>
      if (code d =? 48)%nat && negb (Nat.eqb (length more) 0) then None
      else
        let frac :=
          match l2 with
          | "."%char :: r =>
              let (fs, r') := take_digits r in
              match fs with
              | [] => None
              | _ => Some (fs, r')
              end
          | _ => Some ([], l2)
          end in
        match frac with
        | None => None
        | Some (frac_ds, l3) =>
            let expo :=
              match l3 with
              | c :: r =>
                  if ((code c =? 101) || (code c =? 69))%nat then
                    let (eneg, r1) :=
                      match r with
                      | "-"%char :: r' => (true, r')
                      | "+"%char :: r' => (false, r')
                      | _ => (false, r)
                      end in
                    let (es, r2) := take_digits r1 in
                    match es with
                    | [] => None
                    | _ =>
                        let e := digits_value es in
                        Some (if eneg then (- e)%Z else e, r2)
                    end
                  else Some (0%Z, l3)
              | [] => Some (0%Z, l3)
              end in
            match expo with
            | None => None
            | Some (e, l4) =>
                let m := digits_value (int_ds ++ frac_ds)%list in
                let q := scale m (e - Z.of_nat (length frac_ds)) in
                Some (if neg then Qopp q else q, l4)
            end
        end
  end.

(** From [2^1024 - 2^970] on, half way between the largest double and
    [2^1024], a literal rounds to an infinite double. *)
Definition overflows (q : Q) : bool :=
  Qle_bool (inject_Z (2 ^ 1024 - 2 ^ 970)) (Qabs q).

Definition number_value (q : Q) : value :=
  if overflows q then VInf (Qle_bool q 0) else VNum q.

(** The characters of a string after its opening quote, up to the closing
    one. *)
Fixpoint read_string (l : chars) (acc : chars) : option (string * chars) :=
  match l with
  | [] => None
  | c :: rest =>
      if (code c =? 34)%nat then Some (of_chars (rev acc), rest)
      else if (code c <? 32)%nat then None
      else if (code c =? 92)%nat then
        match rest with
        | e :: rest' =>
            let continue_with x := read_string rest' (x :: acc) in
            if (code e =? 34)%nat then continue_with e
            else if (code e =? 92)%nat then continue_with e
            else if (code e =? 47)%nat then continue_with e
            else if (code e =? 98)%nat then continue_with (ascii_of_nat 8)
            else if (code e =? 102)%nat then continue_with (ascii_of_nat 12)
            else if (code e =? 110)%nat then continue_with (ascii_of_nat 10)
            else if (code e =? 114)%nat then continue_with (ascii_of_nat 13)
            else if (code e =? 116)%nat then continue_with (ascii_of_nat 9)
            else None
        | [] => None
        end
      else read_string rest (c :: acc)
  end.

Fixpoint starts_with (pre l : chars) : option chars :=
  match pre, l with
  | [], _ => Some l
  | p :: pre', c :: l' => if Ascii.eqb p c then starts_with pre' l' else None
  | _ :: _, [] => None
  end.

(** Assignment to a property: a key already present keeps its place and
    takes the new value. *)
Fixpoint assign (k : string) (v : value) (fields : list (string * value))
    : list (string * value) :=
  match fields with
  | [] => [(k, v)]
  | (k', v') :: rest =>
      if String.eqb k k' then (k, v) :: rest else (k', v') :: assign k v rest
  end.

Definition reader : Type := chars -> option (value * chars).

(** The elements of an array after the first, up to ["]"]. *)
Fixpoint read_elements (rd : reader) (fuel : nat) (l : chars)
    (acc : list value) : option (value * chars) :=
  match fuel with
  | O => None
  | S n =>
      match skip_ws l with
      | c :: rest =>
          if (code c =? 93)%nat then Some (VArr (rev acc), rest)
          else if (code c =? 44)%nat then
            match rd rest with
            | Some (v, rest') => read_elements rd n rest' (v :: acc)
            | None => None
            end
          else None
      | [] => None
      end
  end.

Definition read_member (rd : reader) (l : chars)
    : option (string * value * chars) :=
  match skip_ws l with
  | c :: rest =>
      if (code c =? 34)%nat then
        match read_string rest [] with
        | Some (k, rest1) =>
            match skip_ws rest1 with
            | c1 :: rest2 =>
                if (code c1 =? 58)%nat then
                  match rd rest2 with
                  | Some (v, rest3) => Some (k, v, rest3)
                  | None => None
                  end
                else None
            | [] => None
            end
        | None => None
        end
      else None
  | [] => None
  end.

(** The members of an object after the first, up to the closing brace. *)
Fixpoint read_members (rd : reader) (fuel : nat) (l : chars)
    (acc : list (string * value)) : option (value * chars) :=
  match fuel with
  | O => None
  | S n =>
      match skip_ws l with
      | c :: rest =>
          if (code c =? 125)%nat then Some (VObj acc, rest)
          else if (code c =? 44)%nat then
            match read_member rd rest with
            | Some (k, v, rest') => read_members rd n rest' (assign k v acc)
            | None => None
            end
          else None
      | [] => None
      end
  end.

Fixpoint read_value (fuel : nat) (l : chars) : option (value * chars) :=
  match fuel with
  | O => None
  | S n =>
      match skip_ws l with
      | [] => None
      | c :: rest =>
          if (code c =? 123)%nat then
            match skip_ws rest with
            | c' :: rest' =>
                if (code c' =? 125)%nat then Some (VObj [], rest')
                else
                  match read_member (read_value n) rest with
                  | Some (k, v, rest1) =>
                      read_members (read_value n) (length rest1 + 1) rest1
                        [(k, v)]
                  | None => None
                  end
            | [] => None
            end
          else if (code c =? 91)%nat then
            match skip_ws rest with
            | c' :: rest' =>
                if (code c' =? 93)%nat then Some (VArr [], rest')
                else
                  match read_value n rest with
                  | Some (v, rest1) =>
                      read_elements (read_value n) (length rest1 + 1) rest1
                        [v]
                  | None => None
                  end
            | [] => None
            end
          else if (code c =? 34)%nat then
            match read_string rest [] with
            | Some (s, rest') => Some (VStr s, rest')
            | None => None
            end
          else
            match starts_with (to_chars "null") (c :: rest),
                  starts_with (to_chars "true") (c :: rest),
                  starts_with (to_chars "false") (c :: rest) with
            | Some r, _, _ => Some (VNull, r)
            | _, Some r, _ => Some (VBool true, r)
            | _, _, Some r => Some (VBool false, r)
            | None, None, None =>
                match read_number (c :: rest) with
                | Some (q, r) => Some (number_value q, r)
                | None => None
                end
            end
      end
  end.

Definition parse (text : string) : option value :=
  let l := to_chars text in
  match read_value (length l + 1) l with
  | Some (v, rest) =>
      match skip_ws rest with
      | [] => Some v
      | _ => None
      end
  | None => None
  end.

Definition decimal (s : string) : option Q :=
  match read_number (to_chars (trim s)) with
  | Some (q, []) => if overflows q then None else Some q
  | _ => None
  end.

(** Groups of characters of given lengths, all passing [ok], separated by
    the given characters. *)
Fixpoint grouped (ok : ascii -> bool) (shape : list (nat * option ascii))
    (l : chars) : bool :=
  match shape with
  | [] => match l with [] => true | _ => false end
  | (n, sep) :: shape' =>
      forallb ok (firstn n l)
      && Nat.eqb (length (firstn n l)) n
      && match sep, skipn n l with
         | None, r => grouped ok shape' r
         | Some c, c' :: r => Ascii.eqb c c' && grouped ok shape' r
         | Some _, [] => false
         end
  end.

Definition guid (s : string) : bool :=
  grouped is_hex
    [(8, Some "-"%char); (4, Some "-"%char); (4, Some "-"%char);
     (4, Some "-"%char); (12, None)]%nat (to_chars s).

Definition iso_date (s : string) : bool :=
  grouped is_digit
    [(4, Some "-"%char); (2, Some "-"%char); (2, Some "T"%char);
     (2, Some ":"%char); (2, Some ":"%char); (2, Some "Z"%char);
     (0, None)]%nat (to_chars s).

Fixpoint uri_rest (seen_scheme : bool) (l : chars) : bool :=
  match l with
  | [] => false
  | c :: rest =>
      if (code c =? 58)%nat then
        seen_scheme
        && negb (Nat.eqb (length rest) 0)
        && forallb (fun x => negb (is_space1 x)) rest
      else
        (is_alpha c || (seen_scheme && (is_digit c || (code c =? 43)%nat
                                        || (code c =? 45)%nat
                                        || (code c =? 46)%nat)))
        && uri_rest true rest
  end.

Definition uri (s : string) : bool := uri_rest false (to_chars s).

Definition platform : Platform :=
  {| JSON_parse := parse;
     number_of_string := decimal;
     date_of_string := iso_date;
     is_guid := guid;
     is_uri := uri |}.

(** JSON text is written with single quotes in the examples. *)
Fixpoint json (s : string) : string :=
  match s with
  | EmptyString => EmptyString
  | String c rest =>
      String (if (code c =? 39)%nat then ascii_of_nat 34 else c) (json rest)
  end.

End Reference.

(** ** Example configuration, messages and collaborators *)
Module Examples.

Import Reference.

Definition config : Config :=
  {| KAFKA_NEW_SUBMISSION_TOPIC := "submission.notification.create";
     KAFKA_UPDATE_SUBMISSION_TOPIC := "submission.notification.update";
     KAFKA_NEW_SUBMISSION_ORIGINATOR := "submission-api";
     CHALLENGE_SUBTRACK := "MARATHON_MATCH, DEVELOP_MARATHON_MATCH";
     PAYLOAD_TYPES := "c56a4180-65aa-42ec-a945-5fd21dec0503, 55bbb17d-aac2-45a6-89c3-a8d102863d05" |}.

(** The reviewSummation scenario of the specification. *)
Definition summation_text : string :=
  json "{'topic':'submission.notification.create', 'originator':'submission-api', 'timestamp':'2020-01-01T00:00:00Z', 'mime-type':'application/json', 'payload':{'id':42, 'resource':'reviewSummation', 'submissionId':42, 'aggregateScore':87.5}}".

Definition summation_event : value :=
  VObj [("topic", VStr "submission.notification.create");
        ("originator", VStr "submission-api");
        ("timestamp", VStr "2020-01-01T00:00:00Z");
        ("mime-type", VStr "application/json");
        ("payload", VObj [("id", VNum 42);
                          ("resource", VStr "reviewSummation");
                          ("submissionId", VNum 42);
                          ("aggregateScore", VNum (175 # 2))])].

Definition review_text (typeId : string) : string :=
  json ("{'topic':'submission.notification.create', 'originator':'submission-api', 'timestamp':'2020-01-01T00:00:00Z', 'mime-type':'application/json', 'payload':{'id':'a34e1158-2c27-4d38-b079-5e5cca1bdcf7', 'resource':'review', 'submissionId':42, 'score':92, 'typeId':'" ++ typeId ++ "'}}").

(** A review event on a topic this consumer does not handle. *)
Definition other_topic_text : string :=
  json "{'topic':'challenge.notification.create', 'originator':'submission-api', 'timestamp':'2020-01-01T00:00:00Z', 'mime-type':'application/json', 'payload':{'id':42, 'resource':'review', 'submissionId':42}}".

(** All required fields, and a challengeId that is not positive. *)
Definition negative_challenge_text : string :=
  json "{'topic':'submission.notification.create', 'originator':'submission-api', 'timestamp':'2020-01-01T00:00:00Z', 'mime-type':'application/json', 'payload':{'id':42, 'resource':'review', 'challengeId':-5}}".

(** Neither topic nor originator, and a score out of range. *)
Definition invalid_text : string :=
  json "{'timestamp':'2020-01-01T00:00:00Z', 'mime-type':'application/json', 'payload':{'id':42, 'score':101}}".

(** Neither topic nor originator, a challengeId that is neither an integer
    nor positive, a memberId too large for a double, a score out of
    range. *)
Definition faulty_text : string :=
  json "{'timestamp':'2020-01-01T00:00:00Z', 'mime-type':'application/json', 'payload':{'id':42, 'challengeId':-1.5, 'memberId':1e400, 'score':101}}".

(** The reviewSummation scenario in a message that also has top-level keys
    named like the two paths lodash is asked for. *)
Definition dotted_text : string :=
  json "{'topic':'submission.notification.create', 'originator':'submission-api', 'timestamp':'2020-01-01T00:00:00Z', 'mime-type':'application/json', 'payload':{'id':42, 'resource':'reviewSummation', 'submissionId':42, 'aggregateScore':87.5}, 'payload.aggregateScore':1, 'payload.submissionId':7}".

(** A review whose challenge answers with an object for the SubTrack. *)
Definition odd_subtrack : value := VObj [("toString", VNum 1)].

Definition payload_type : string := "55bbb17d-aac2-45a6-89c3-a8d102863d05".

(** An event that names no resource. *)
Definition no_resource_text : string :=
  json "{'topic':'submission.notification.update', 'originator':'submission-api', 'timestamp':'2020-01-01T00:00:00Z', 'mime-type':'application/json', 'payload':{'id':42, 'submissionId':42}}".

Definition no_resource_event : value :=
  VObj [("topic", VStr "submission.notification.update");
        ("originator", VStr "submission-api");
        ("timestamp", VStr "2020-01-01T00:00:00Z");
        ("mime-type", VStr "application/json");
        ("payload", VObj [("id", VNum 42); ("submissionId", VNum 42)])].

(** What [JSON.parse] makes of the texts above. *)
Definition review_event (typeId : string) : value :=
  VObj [("topic", VStr "submission.notification.create");
        ("originator", VStr "submission-api");
        ("timestamp", VStr "2020-01-01T00:00:00Z");
        ("mime-type", VStr "application/json");
        ("payload", VObj [("id", VStr "a34e1158-2c27-4d38-b079-5e5cca1bdcf7");
                          ("resource", VStr "review");
                          ("submissionId", VNum 42);
                          ("score", VNum 92);
                          ("typeId", VStr typeId)])].

Definition other_topic_event : value :=
  VObj [("topic", VStr "challenge.notification.create");
        ("originator", VStr "submission-api");
        ("timestamp", VStr "2020-01-01T00:00:00Z");
        ("mime-type", VStr "application/json");
        ("payload", VObj [("id", VNum 42);
                          ("resource", VStr "review");
                          ("submissionId", VNum 42)])].

Definition negative_challenge_event : value :=
  VObj [("topic", VStr "submission.notification.create");
        ("originator", VStr "submission-api");
        ("timestamp", VStr "2020-01-01T00:00:00Z");
        ("mime-type", VStr "application/json");
        ("payload", VObj [("id", VNum 42);
                          ("resource", VStr "review");
                          ("challengeId", VNum (-5))])].

Definition invalid_event : value :=
  VObj [("timestamp", VStr "2020-01-01T00:00:00Z");
        ("mime-type", VStr "application/json");
        ("payload", VObj [("id", VNum 42); ("score", VNum 101)])].

Definition faulty_event : value :=
  VObj [("timestamp", VStr "2020-01-01T00:00:00Z");
        ("mime-type", VStr "application/json");
        ("payload", VObj [("id", VNum 42);
                          ("challengeId", VNum (-3 # 2));
                          ("memberId", VInf false);
                          ("score", VNum 101)])].

Definition dotted_event : value :=
  VObj [("topic", VStr "submission.notification.create");
        ("originator", VStr "submission-api");
        ("timestamp", VStr "2020-01-01T00:00:00Z");
        ("mime-type", VStr "application/json");
        ("payload", VObj [("id", VNum 42);
                          ("resource", VStr "reviewSummation");
                          ("submissionId", VNum 42);
                          ("aggregateScore", VNum (175 # 2))]);
        ("payload.aggregateScore", VNum 1);
        ("payload.submissionId", VNum 7)].

Definition quoted (s : string) : string := dquote ++ s ++ dquote.

Definition bytes (l : list nat) : string :=
  fold_right (fun n s => String (ascii_of_nat n) s) "" l.

(** The twenty-five characters [trim()] removes, in UTF-8. *)
Definition white_space : list string :=
  map bytes
    [[9]; [10]; [11]; [12]; [13]; [32]; [194; 160]; [225; 154; 128];
     [226; 128; 128]; [226; 128; 129]; [226; 128; 130]; [226; 128; 131];
     [226; 128; 132]; [226; 128; 133]; [226; 128; 134]; [226; 128; 135];
     [226; 128; 136]; [226; 128; 137]; [226; 128; 138]; [226; 128; 168];
     [226; 128; 169]; [226; 128; 175]; [226; 129; 159]; [227; 128; 128];
     [239; 187; 191]]%nat.

(** Characters that are no white space for [trim()]: the next line
    control U+0085, the Mongolian vowel separator U+180E, the zero width
    space U+200B and the word joiner U+2060. *)
Definition no_white_space : list string :=
  map bytes
    [[194; 133]; [225; 160; 142]; [226; 128; 139]; [226; 129; 160]]%nat.

(** The diagnostic Joi's messages give for [faulty_event]. *)
Definition faulty_diagnostic : string :=
  quoted "topic" ++ " is required, "
  ++ quoted "originator" ++ " is required, "
  ++ quoted "challengeId" ++ " must be an integer, "
  ++ quoted "challengeId" ++ " must be a positive number, "
  ++ quoted "memberId" ++ " contains an invalid value, "
  ++ quoted "memberId" ++ " must be an integer, "
  ++ quoted "score" ++ " must be less than or equal to 100".

Definition submission_record : value :=
  VObj [("id", VNum 42); ("challengeId", VNum 30054);
        ("legacySubmissionId", VNum 9001)].

Definition challenge_details (subTrack : string) : value :=
  VObj [("result", VObj [("content", VArr [VObj [("subTrack", VStr subTrack)]])])].

(** Both services answer; the store accepts every update. *)
Definition healthy (submission : value) (subTrack : string) : world :=
  fun _ c =>
    match c with
    | m2m_getMachineToken => inl (VStr "token")
    | axios_get_submission _ _ => inl submission
    | Axios_get_challenge _ => inl (challenge_details subTrack)
    | _ => inl VUndefined
    end.

(** Both services answer, the challenge service with an object where the
    SubTrack name is expected. *)
Definition odd_challenge : world :=
  fun _ c =>
    match c with
    | m2m_getMachineToken => inl (VStr "token")
    | axios_get_submission _ _ => inl submission_record
    | Axios_get_challenge _ =>
        inl (VObj [("result",
                    VObj [("content",
                           VArr [VObj [("subTrack", odd_subtrack)]])])])
    | _ => inl VUndefined
    end.

(** The submission service is unreachable. *)
Definition unreachable : world :=
  fun _ c =>
    match c with
    | axios_get_submission _ _ => inr (AxiosError None true)
    | Axios_get_challenge _ => inl (challenge_details "DEVELOP_MARATHON_MATCH")
    | _ => inl VUndefined
    end.

(** The submission service answers the first request and fails from the
    second on. *)
Definition fails_second_fetch : world :=
  fun before c =>
    match c with
    | axios_get_submission _ _ =>
        if existsb (fun c' => match c' with
                              | axios_get_submission _ _ => true
                              | _ => false
                              end) before
        then inr (AxiosError None true)
        else inl submission_record
    | Axios_get_challenge _ => inl (challenge_details "DEVELOP_MARATHON_MATCH")
    | _ => inl VUndefined
    end.

(** The collaborators of the scenarios: a marathon-match submission. *)
Definition marathon : world :=
  healthy submission_record "DEVELOP_MARATHON_MATCH".

(** The same submission in a challenge of another SubTrack. *)
Definition first2finish : world :=
  healthy submission_record "FIRST_2_FINISH".

(** The trace of the SubTrack resolution for submission 42 when both
    services answer. *)
Definition resolution_trace (token : option value) : trace :=
  (match token with
   | Some _ => [Called m2m_getMachineToken]
   | None => []
   end
   ++ [Logged info (Fetching_submission_for (VNum 42));
       Called (axios_get_submission (VNum 42) token);
       Logged info (Fetched_submission_for (VNum 42) submission_record);
       Logged info (Fetching_challenge_details_for (VNum 30054));
       Called (Axios_get_challenge (VNum 30054))])%list.

(** The trace of a SubTrack resolution whose submission fetch gets no
    response. *)
Definition failed_resolution_trace : trace :=
  [Logged info (Fetching_submission_for (VNum 42));
   Called (axios_get_submission (VNum 42) None);
   Logged error Submission_API_Error_no_response;
   Logged error (inspect TypeError)].

End Examples.

(** * Vocabulary of the properties *)

Local Open Scope list_scope.

(** ** The trace *)

Definition is_mutation (c : call) : bool :=
  match c with
  | updateReviewScore _ => true
  | LegacySubmissionIdService_updateReviewScore _ _ _ => true
  | _ => false
  end.

(** The legacy-store updates of a trace, in order. *)
Definition mutations (t : trace) : list call :=
  filter is_mutation (calls_of t).

(** ** What the event schema accepts *)

Definition absent_or (ok : value -> bool) (v : value) : bool :=
  match v with
  | VUndefined => true
  | _ => ok v
  end.

Definition flags_of (pr : presence_t) : flags :=
  {| presence := pr; valids := []; allowOnly := false |}.

Definition nonempty_string (v : value) : bool :=
  match v with
  | VStr s => negb (String.eqb s "")
  | _ => false
  end.

(** The children of [payload] with every builder call carried out. *)
Definition payload_children : list (string * schema) :=
  [("id", JAlternatives (flags_of Required)
            [JNumber (flags_of Required) [integer_t; positive_t];
             JString (flags_of Optional) [guid_t]]);
   ("resource", JAlternatives (flags_of Optional)
      [JString {| presence := Optional; valids := [VStr "submission"];
                  allowOnly := true |} [];
       JString {| presence := Optional; valids := [VStr "review"];
                  allowOnly := true |} [];
       JString {| presence := Optional; valids := [VStr "reviewSummation"];
                  allowOnly := true |} []]);
   ("challengeId", JNumber (flags_of Optional) [integer_t; positive_t]);
   ("memberId", JNumber (flags_of Optional) [integer_t; positive_t]);
   ("submissionPhaseId", JNumber (flags_of Optional) [integer_t; positive_t]);
   ("url", JString (flags_of Optional) [uri_t]);
   ("type", JString (flags_of Optional) []);
   ("legacySubmissionId", JNumber (flags_of Optional) [integer_t; positive_t]);
   ("isExample", JNumber {| presence := Optional; valids := [VNum 0; VNum 1];
                            allowOnly := true |} [integer_t]);
   ("typeId", JString (flags_of Optional) []);
   ("score", JNumber (flags_of Optional) [min_t 0; max_t 100]);
   ("metadata", JObject (flags_of Optional)
                  (Some [("testType", JString (flags_of Required) [])]) None)].

Definition event_children : list (string * schema) :=
  [("topic", JString (flags_of Required) []);
   ("originator", JString (flags_of Required) []);
   ("timestamp", JDate (flags_of Required));
   ("mime-type", JString (flags_of Required) []);
   ("payload", JObject (flags_of Required) (Some payload_children)
                 (Some true))].

(** A broken rule: the path of the field and Joi's name for the rule. *)
Definition reason : Type := (list string * string)%type.

Definition reason_of (d : detail) : reason := (path d, type d).

Definition broken (b : bool) (p : list string) (rule : string)
    : list reason :=
  if b then [(p, rule)] else [].

Section Shapes.

Variable P : Platform.

(** The errors of the children of an object schema, one list per child in
    schema order. *)
Definition children_errors (o : options) (p : list string)
    (fields : list (string * value)) (cs : list (string * schema))
    : list (list detail) :=
  map (fun kc => validate P o (snd kc) (p ++ [fst kc]) (lookup (fst kc) fields))
      cs.

(** Joi's number conversion: a number, or a string the platform reads as
    one. *)
Definition as_number (v : value) : option Q :=
  match v with
  | VNum q => Some q
  | VStr s => number_of_string P s
  | _ => None
  end.

(** An object, or a string holding the JSON text of one. *)
Definition as_object (v : value) : option (list (string * value)) :=
  match safeParse P v with
  | VObj fields => Some fields
  | _ => None
  end.

Definition datetime (v : value) : bool :=
  match v with
  | VNum q => date_of_number q
  | VStr s => date_of_string P s
  | _ => false
  end.

Definition positive_integer (v : value) : bool :=
  match as_number v with
  | Some q => is_safe_integer q && negb (Qle_bool q 0)
  | None => false
  end.

Definition uuid_string (v : value) : bool :=
  match v with
  | VStr s => negb (String.eqb s "") && is_guid P s
  | _ => false
  end.

Definition uri_string (v : value) : bool :=
  match v with
  | VStr s => negb (String.eqb s "") && is_uri P s
  | _ => false
  end.

Definition zero_or_one (v : value) : bool :=
  match as_number v with
  | Some q => Qeq_bool q 0 || Qeq_bool q 1
  | None => false
  end.

Definition from_0_to_100 (v : value) : bool :=
  match as_number v with
  | Some q => Qle_bool 0 q && Qle_bool q 100
  | None => false
  end.

Definition resource_name (v : value) : bool :=
  strict_eq_str v "submission" || strict_eq_str v "review"
  || strict_eq_str v "reviewSummation".

Definition metadata_shape (v : value) : bool :=
  match as_object v with
  | Some fields => nonempty_string (lookup "testType" fields)
  | None => false
  end.

(** What the schema asks of the fields of [payload]. *)
Definition payload_shape (fields : list (string * value)) : bool :=
  (positive_integer (lookup "id" fields) || uuid_string (lookup "id" fields))
  && absent_or resource_name (lookup "resource" fields)
  && absent_or positive_integer (lookup "challengeId" fields)
  && absent_or positive_integer (lookup "memberId" fields)
  && absent_or positive_integer (lookup "submissionPhaseId" fields)
  && absent_or uri_string (lookup "url" fields)
  && absent_or nonempty_string (lookup "type" fields)
  && absent_or positive_integer (lookup "legacySubmissionId" fields)
  && absent_or zero_or_one (lookup "isExample" fields)
  && absent_or nonempty_string (lookup "typeId" fields)
  && absent_or from_0_to_100 (lookup "score" fields)
  && absent_or metadata_shape (lookup "metadata" fields).

(** What the schema asks of an event. *)
Definition event_shape (event : value) : bool :=
  match as_object event with
  | Some fields =>
      nonempty_string (lookup "topic" fields)
      && nonempty_string (lookup "originator" fields)
      && datetime (lookup "timestamp" fields)
      && nonempty_string (lookup "mime-type" fields)
      && match as_object (lookup "payload" fields) with
         | Some payload => payload_shape payload
         | None => false
         end
  | None => false
  end.

(** The required fields alone, as the data model lists them: topic,
    originator and mime-type (non-empty) strings, timestamp a date, payload
    an object whose id is a positive integer or a UUID string. *)
Definition InboundEvent_required_fields (event : value) : bool :=
  match as_object event with
  | Some fields =>
      nonempty_string (lookup "topic" fields)
      && nonempty_string (lookup "originator" fields)
      && datetime (lookup "timestamp" fields)
      && nonempty_string (lookup "mime-type" fields)
      && match as_object (lookup "payload" fields) with
         | Some payload =>
             positive_integer (lookup "id" payload)
             || uuid_string (lookup "id" payload)
         | None => false
         end
  | None => false
  end.

(** ** Which rules an event breaks

    The rules of the schema read field by field: for each field, every
    rule its value breaks, in the order Joi checks them.  A value of the
    wrong type breaks the type rule alone. *)

(** The number a value is read as: itself, or the number a string holds. *)
Definition to_number (v : value) : option value :=
  match v with
  | VNum _ | VInf _ => Some v
  | VStr s => option_map VNum (number_of_string P s)
  | _ => None
  end.

Definition is_infinite (n : value) : bool :=
  match n with
  | VInf _ => true
  | _ => false
  end.

Definition is_integer (n : value) : bool :=
  match n with
  | VNum q => is_safe_integer q
  | _ => false
  end.

Definition is_positive (n : value) : bool :=
  match n with
  | VNum q => negb (Qle_bool q 0)
  | VInf negative => negb negative
  | _ => false
  end.

Definition at_least (limit : Q) (n : value) : bool :=
  match n with
  | VNum q => Qle_bool limit q
  | VInf negative => negb negative
  | _ => false
  end.

Definition at_most (limit : Q) (n : value) : bool :=
  match n with
  | VNum q => Qle_bool q limit
  | VInf negative => negative
  | _ => false
  end.

(** A string field and the pattern it must match, if any. *)
Definition string_rules (required : bool)
    (pattern : option (string * (string -> bool))) (p : list string)
    (v : value) : list reason :=
  match v with
  | VUndefined => broken required p "any.required"
  | VStr s =>
      broken (String.eqb s "") p "any.empty"
      ++ match pattern with
         | Some (rule, ok) => broken (negb (ok s)) p rule
         | None => []
         end
  | _ => [(p, "string.base")]
  end.

(** A number field, the values it is limited to, if any, and its rules. *)
Definition number_rules (required : bool) (allowed : list Q)
    (rules : list (string * (value -> bool))) (p : list string) (v : value)
    : list reason :=
  match v with
  | VUndefined => broken required p "any.required"
  | _ =>
      match to_number v with
      | None => [(p, "number.base")]
      | Some n =>
          if existsb (fun a => same_primitive n (VNum a)) allowed then []
          else
            broken (is_infinite n) p "any.invalid"
            ++ broken (negb (Nat.eqb (length allowed) 0)) p "any.allowOnly"
            ++ flat_map (fun r => broken (negb (snd r n)) p (fst r)) rules
      end
  end.

Definition id_number_rules : list (string * (value -> bool)) :=
  [("number.integer", is_integer); ("number.positive", is_positive)].

Definition date_rules (required : bool) (p : list string) (v : value)
    : list reason :=
  match v with
  | VUndefined => broken required p "any.required"
  | _ => broken (negb (datetime v)) p "date.base"
  end.

(** [payload.id]: when neither form fits, the rules broken as a number,
    then those broken as a UUID string. *)
Definition id_rules (p : list string) (v : value) : list reason :=
  match v with
  | VUndefined => [(p, "any.required")]
  | _ =>
      if positive_integer v || uuid_string v then []
      else number_rules true [] id_number_rules p v
           ++ string_rules false (Some ("string.guid", is_guid P)) p v
  end.

(** [payload.resource]: a value that is none of the three names breaks the
    rules of each of the three alternatives. *)
Definition resource_rules (p : list string) (v : value) : list reason :=
  match v with
  | VUndefined => []
  | _ =>
      if resource_name v then []
      else
        flat_map
          (fun _ : string =>
             match v with
             | VStr s =>
                 broken (String.eqb s "") p "any.empty"
                 ++ [(p, "any.allowOnly")]
             | _ => [(p, "string.base")]
             end)
          ["submission"; "review"; "reviewSummation"]
  end.

Definition metadata_rules (p : list string) (v : value) : list reason :=
  match v with
  | VUndefined => []
  | _ =>
      match as_object v with
      | Some fields =>
          string_rules true None (p ++ ["testType"]) (lookup "testType" fields)
      | None => [(p, "object.base")]
      end
  end.

Definition payload_rules (p : list string) (v : value) : list reason :=
  match v with
  | VUndefined => [(p, "any.required")]
  | _ =>
      match as_object v with
      | Some fields =>
          let at_key (rules : list string -> value -> list reason)
                     (k : string) :=
            rules (p ++ [k]) (lookup k fields) in
          at_key id_rules "id"
          ++ at_key resource_rules "resource"
          ++ at_key (number_rules false [] id_number_rules) "challengeId"
          ++ at_key (number_rules false [] id_number_rules) "memberId"
          ++ at_key (number_rules false [] id_number_rules) "submissionPhaseId"
          ++ at_key (string_rules false (Some ("string.uri", is_uri P))) "url"
          ++ at_key (string_rules false None) "type"
          ++ at_key (number_rules false [] id_number_rules)
               "legacySubmissionId"
          ++ at_key (number_rules false [0; 1]
                       [("number.integer", is_integer)]) "isExample"
          ++ at_key (string_rules false None) "typeId"
          ++ at_key (number_rules false []
                       [("number.min", at_least 0);
                        ("number.max", at_most 100)]) "score"
          ++ at_key metadata_rules "metadata"
      | None => [(p, "object.base")]
      end
  end.

(** Every rule of the event schema an event breaks, field by field in the
    order of the schema. *)
Definition violations (event : value) : list reason :=
  match as_object event with
  | Some fields =>
      string_rules true None ["topic"] (lookup "topic" fields)
      ++ string_rules true None ["originator"] (lookup "originator" fields)
      ++ date_rules true ["timestamp"] (lookup "timestamp" fields)
      ++ string_rules true None ["mime-type"] (lookup "mime-type" fields)
      ++ payload_rules ["payload"] (lookup "payload" fields)
  | None => [([], "object.base")]
  end.

End Shapes.

(** The payload fields the schema lists. *)
Definition payload_keys : list string := map fst payload_children.

(** ** Stages of the handler *)

Section Stages.

Variable P : Platform.
Variable config : Config.

Definition topic_is (event : value) (name : string) : bool :=
  strict_eq_str (get_own event "topic") name.

(** The message holds a valid event that passes the topic, originator and
    resource checks: the handler goes on to enrichment. *)
Definition admitted (text : string) (event : value) : Prop :=
  text <> ""
  /\ JSON_parse P text = Some event
  /\ Joi_validate P event eventSchema handle_options = []
  /\ topic_is event (KAFKA_NEW_SUBMISSION_TOPIC config)
     || topic_is event (KAFKA_UPDATE_SUBMISSION_TOPIC config) = true
  /\ strict_eq_str (get_own event "originator")
       (KAFKA_NEW_SUBMISSION_ORIGINATOR config) = true
  /\ strict_eq_str (lodash_get event ["payload"; "resource"]) "submission"
     = false.

(** The SubTrack passes the relevance filter. *)
Definition relevant (subTrack : value) : bool :=
  truthy subTrack && includes (allow_set (CHALLENGE_SUBTRACK config)) subTrack.

End Stages.

(** The outcome of an awaited call whose value is not used. *)
Definition resolve (w : world) (before : list call) (c : call)
    : result unit :=
  match w before c with
  | inl _ => Returned tt
  | inr e => Threw e
  end.

(** Some call of the trace [t], made after the calls [before], was
    rejected by the collaborator. *)
Fixpoint any_failed (w : world) (before : list call) (t : trace) : bool :=
  match t with
  | [] => false
  | Called c :: rest =>
      match w before c with
      | inr _ => true
      | inl _ => any_failed w (before ++ [c]) rest
      end
  | Logged _ _ :: rest => any_failed w before rest
  end.

(** ** The paths through [handle] *)

Section Paths.

Variable P : Platform.
Variable config : Config.

(** The message is admitted and its SubTrack resolution, run in [w] from
    the empty trace, returns [subTrack] leaving the trace [t1]. *)
Definition enriched (msg : message_value) (m2m : bool) (w : world)
    (text : string) (event subTrack : value) (t1 : trace) : Prop :=
  msg = MString text
  /\ admitted P config text event
  /\ run (getSubTrack (lodash_get event ["payload"; "submissionId"]) m2m) w
     = (Returned subTrack, t1).

(** The result and the trace of [handle], path by path: dropped before
    enrichment; thrown out of the SubTrack debug line; stopped by the
    SubTrack filter; a review dispatched or skipped for its typeId; a
    reviewSummation dispatched, or thrown for a missing record or a missing
    id; an event no branch takes. *)
Inductive handled (msg : message_value) (m2m : bool) (w : world)
    : result unit -> trace -> Prop :=
| dropped (n : line) :
    handled msg m2m w (Returned tt) [Logged debug n]
| unprintable (text : string) (event subTrack : value) (t1 : trace) :
    enriched msg m2m w text event subTrack t1 ->
    stringifiable subTrack = false ->
    handled msg m2m w (Threw TypeError) t1
| filtered (text : string) (event subTrack : value) (t1 : trace) :
    enriched msg m2m w text event subTrack t1 ->
    stringifiable subTrack = true ->
    relevant config subTrack = false ->
    handled msg m2m w (Returned tt)
      (t1 ++ [Logged debug (Challenge_get_subTrack subTrack);
              Logged debug (Skipping_as_NOT_MM_found_in
                              (allow_set (CHALLENGE_SUBTRACK config)))])
| review_dispatched (text : string) (event subTrack : value) (t1 : trace) :
    enriched msg m2m w text event subTrack t1 ->
    relevant config subTrack = true ->
    lodash_get event ["payload"; "resource"] = VStr "review" ->
    truthy (lodash_get event ["payload"; "typeId"])
    && includes (allow_set (PAYLOAD_TYPES config))
         (lodash_get event ["payload"; "typeId"]) = true ->
    handled msg m2m w
      (resolve w
         (calls_of (t1 ++ [Logged debug (Challenge_get_subTrack subTrack)]))
         (updateReviewScore event))
      ((t1 ++ [Logged debug (Challenge_get_subTrack subTrack)])
       ++ [Called (updateReviewScore event)])
| review_skipped (text : string) (event subTrack : value) (t1 : trace) :
    enriched msg m2m w text event subTrack t1 ->
    relevant config subTrack = true ->
    lodash_get event ["payload"; "resource"] = VStr "review" ->
    truthy (lodash_get event ["payload"; "typeId"])
    && includes (allow_set (PAYLOAD_TYPES config))
         (lodash_get event ["payload"; "typeId"]) = false ->
    handled msg m2m w (Returned tt)
      ((t1 ++ [Logged debug (Challenge_get_subTrack subTrack)])
       ++ [Logged debug Skipped_Invalid_typeId])
| summation_dispatched (text : string) (event subTrack : value)
    (t1 : trace) (sub : value) (t3 : trace) (legacySubmissionId : value) :
    enriched msg m2m w text event subTrack t1 ->
    relevant config subTrack = true ->
    lodash_get event ["payload"; "resource"] = VStr "reviewSummation" ->
    topic_is event (KAFKA_NEW_SUBMISSION_TOPIC config) = true ->
    getSubmission (lodash_get_path event "payload.submissionId") m2m w
      (t1 ++ [Logged debug (Challenge_get_subTrack subTrack)])
    = (Returned sub, t3) ->
    member sub "legacySubmissionId" = Some legacySubmissionId ->
    truthy legacySubmissionId = true ->
    handled msg m2m w
      (resolve w (calls_of t3)
         (LegacySubmissionIdService_updateReviewScore legacySubmissionId
            (lodash_get_path event "payload.aggregateScore") "finalScore"))
      (t3 ++ [Called
                (LegacySubmissionIdService_updateReviewScore
                   legacySubmissionId
                   (lodash_get_path event "payload.aggregateScore")
                   "finalScore")])
| summation_without_record (text : string) (event subTrack : value)
    (t1 : trace) (sub : value) (t3 : trace) :
    enriched msg m2m w text event subTrack t1 ->
    relevant config subTrack = true ->
    lodash_get event ["payload"; "resource"] = VStr "reviewSummation" ->
    topic_is event (KAFKA_NEW_SUBMISSION_TOPIC config) = true ->
    getSubmission (lodash_get_path event "payload.submissionId") m2m w
      (t1 ++ [Logged debug (Challenge_get_subTrack subTrack)])
    = (Returned sub, t3) ->
    member sub "legacySubmissionId" = None ->
    handled msg m2m w (Threw TypeError) t3
| summation_without_id (text : string) (event subTrack : value)
    (t1 : trace) (sub : value) (t3 : trace) (legacySubmissionId : value) :
    enriched msg m2m w text event subTrack t1 ->
    relevant config subTrack = true ->
    lodash_get event ["payload"; "resource"] = VStr "reviewSummation" ->
    topic_is event (KAFKA_NEW_SUBMISSION_TOPIC config) = true ->
    getSubmission (lodash_get_path event "payload.submissionId") m2m w
      (t1 ++ [Logged debug (Challenge_get_subTrack subTrack)])
    = (Returned sub, t3) ->
    member sub "legacySubmissionId" = Some legacySubmissionId ->
    truthy legacySubmissionId = false ->
    handled msg m2m w (Threw (Error "legacySubmissionId not found")) t3
| passed_over (text : string) (event subTrack : value) (t1 : trace) :
    enriched msg m2m w text event subTrack t1 ->
    relevant config subTrack = true ->
    strict_eq_str (lodash_get event ["payload"; "resource"]) "review"
    = false ->
    strict_eq_str (lodash_get event ["payload"; "resource"]) "reviewSummation"
    = false
    \/ topic_is event (KAFKA_NEW_SUBMISSION_TOPIC config) = false ->
    handled msg m2m w (Returned tt)
      (t1 ++ [Logged debug (Challenge_get_subTrack subTrack)]).

End Paths.

(** ** Counting calls, stateless collaborators *)

Definition is_token_request (c : call) : bool :=
  match c with
  | m2m_getMachineToken => true
  | _ => false
  end.

Definition is_submission_fetch (c : call) : bool :=
  match c with
  | axios_get_submission _ _ => true
  | _ => false
  end.

Definition is_challenge_fetch (c : call) : bool :=
  match c with
  | Axios_get_challenge _ => true
  | _ => false
  end.

(** How many calls of a kind a trace holds. *)
Definition count (kind : call -> bool) (t : trace) : nat :=
  length (filter kind (calls_of t)).

(** Collaborators whose answer to a call does not depend on the calls made
    before it. *)
Definition stateless (w : world) : Prop :=
  forall before before' c, w before c = w before' c.

(** A computation that, against stateless collaborators, does from any
    trace what it does from the empty one. *)
Definition local {A : Type} (m : M A) : Prop :=
  forall w, stateless w ->
  forall t, m w t = (fst (m w []), t ++ snd (m w [])).

(** The character [c] does not occur in [s]. *)
Fixpoint free_of (c : ascii) (s : string) : bool :=
  match s with
  | EmptyString => true
  | String c' rest => negb (Ascii.eqb c' c) && free_of c rest
  end.

(** The string begins with a white-space character. *)
Definition starts_with_space (s : string) : bool :=
  match leading_space s with
  | Some _ => true
  | None => false
  end.

(** The string ends with a white-space character: one of its suffixes is
    exactly one such character. *)
Fixpoint ends_with_space (s : string) : bool :=
  match s with
  | EmptyString => false
  | String _ rest =>
      match leading_space s with
      | Some EmptyString => true
      | _ => false
      end
      || ends_with_space rest
  end.

(** No white space at either end, and no comma: a name as it can be
    written in a comma-separated list. *)
Definition plain_name (s : string) : bool :=
  negb (starts_with_space s) && negb (ends_with_space s) && free_of "," s.

(** * Properties *)

(** ** The trace *)

Lemma calls_of_app (t1 t2 : trace) :
  calls_of (t1 ++ t2) = (calls_of t1 ++ calls_of t2)%list.
Proof.
  induction t1 as [|[c|l n] t1 IH]; simpl; [reflexivity| |assumption].
  now rewrite IH.
Qed.

Lemma mutations_app (t1 t2 : trace) :
  mutations (t1 ++ t2) = (mutations t1 ++ mutations t2)%list.
Proof.
  unfold mutations. now rewrite calls_of_app, filter_app.
Qed.

(** ** Validation *)

Lemma steps_all (l : list (list detail)) : steps false l = concat l.
Proof.
  induction l as [|[|d e] l IH]; simpl; [reflexivity|assumption|].
  now rewrite IH.
Qed.

Lemma concat_nil_Forall (l : list (list detail)) :
  concat l = [] <-> Forall (fun e => e = []) l.
Proof.
  induction l as [|e l IH]; simpl.
  - split; [constructor | reflexivity].
  - split.
    + intros H. apply app_eq_nil in H as [He Hl].
      constructor; [assumption | now apply IH].
    + intros H. inversion H; subst. simpl. now apply IH.
Qed.

Lemma has_object (vs : list value) (fields : list (string * value)) :
  has vs (VObj fields) = false.
Proof. induction vs as [|v vs IH]; [reflexivity | exact IH]. Qed.

Section ValidationFacts.

Variable P : Platform.

Lemma validate_object (o : options) (f : flags)
    (cs : list (string * schema)) (u : option bool) (p : list string)
    (v : value) :
  v <> VUndefined -> valids f = [] -> allowOnly f = false ->
  validate P o (JObject f (Some cs) u) p v =
  match safeParse P v with
  | VObj fields =>
      steps (abortEarly o)
        (children_errors P o p fields cs
         ++ [unknown_errors o u p (map fst cs) fields])
  | _ => [mk_error p "object.base" "must be an object"]
  end.
Proof.
  intros Hv Hvalids Hallow. cbn [validate]. unfold any_validate.
  rewrite Hvalids, Hallow.
  assert (Heach : forall fields l,
    (fix each (cs0 : list (string * schema)) : list (list detail) :=
       match cs0 with
       | [] => []
       | (k, sc) :: rest =>
           validate P o sc (p ++ [k]) (lookup k fields) :: each rest
       end) l = children_errors P o p fields l).
  { intros fields l. induction l as [|[k sc] l IH]; [reflexivity|].
    cbn [children_errors map fst snd]. now rewrite IH. }
  destruct v; try congruence; cbn [has existsb andb app];
    rewrite ?andb_false_r; cbn [map];
    (destruct (safeParse P _); try reflexivity);
    rewrite Heach; destruct (steps _ _); reflexivity.
Qed.

(** *** What each kind of field accepts *)

Ltac field_cases :=
  rewrite ?orb_false_r, ?andb_true_r;
  repeat match goal with
         | |- context [number_of_string ?Q ?s] =>
             destruct (number_of_string Q s) eqn:?
         | |- context [if ?b then _ else _] =>
             lazymatch b with
             | context [if _ then _ else _] => fail
             | _ => destruct b eqn:?
             end
         end;
  cbn in *; rewrite ?orb_false_r in *; split; intros;
  try discriminate; try reflexivity; try congruence.

Lemma required_string_ok (p : list string) (v : value) :
  validate P handle_options (JString (flags_of Required) []) p v = []
  <-> nonempty_string v = true.
Proof. destruct v; cbn; field_cases. Qed.

Lemma optional_string_ok (p : list string) (v : value) :
  validate P handle_options (JString (flags_of Optional) []) p v = []
  <-> absent_or nonempty_string v = true.
Proof. destruct v; cbn; field_cases. Qed.

Lemma uuid_string_ok (p : list string) (v : value) :
  validate P handle_options (JString (flags_of Optional) [guid_t]) p v = []
  <-> absent_or (uuid_string P) v = true.
Proof. destruct v; cbn; field_cases. Qed.

Lemma uri_string_ok (p : list string) (v : value) :
  validate P handle_options (JString (flags_of Optional) [uri_t]) p v = []
  <-> absent_or (uri_string P) v = true.
Proof. destruct v; cbn; field_cases. Qed.

Lemma named_string_ok (name : string) (p : list string) (v : value) :
  validate P handle_options
    (JString {| presence := Optional; valids := [VStr name];
                allowOnly := true |} []) p v = []
  <-> absent_or (fun v => strict_eq_str v name) v = true.
Proof. destruct v; cbn; field_cases. Qed.

Lemma required_date_ok (p : list string) (v : value) :
  validate P handle_options (JDate (flags_of Required)) p v = []
  <-> datetime P v = true.
Proof. destruct v; cbn; field_cases. Qed.

Lemma required_id_ok (p : list string) (v : value) :
  validate P handle_options
    (JNumber (flags_of Required) [integer_t; positive_t]) p v = []
  <-> positive_integer P v = true.
Proof. destruct v; cbn; unfold positive_integer; cbn; field_cases. Qed.

Lemma optional_id_ok (p : list string) (v : value) :
  validate P handle_options
    (JNumber (flags_of Optional) [integer_t; positive_t]) p v = []
  <-> absent_or (positive_integer P) v = true.
Proof. destruct v; cbn; unfold positive_integer; cbn; field_cases. Qed.

Lemma isExample_ok (p : list string) (v : value) :
  validate P handle_options
    (JNumber {| presence := Optional; valids := [VNum 0; VNum 1];
                allowOnly := true |} [integer_t]) p v = []
  <-> absent_or (zero_or_one P) v = true.
Proof. destruct v; cbn; unfold zero_or_one; cbn; field_cases. Qed.

Lemma score_ok (p : list string) (v : value) :
  validate P handle_options
    (JNumber (flags_of Optional) [min_t 0; max_t 100]) p v = []
  <-> absent_or (from_0_to_100 P) v = true.
Proof. destruct v; cbn; unfold from_0_to_100; cbn; field_cases. Qed.

(** An alternatives schema accepts what one of its members accepts. *)
Lemma alternatives_ok (pr : presence_t) (ms : list schema)
    (p : list string) (v : value) :
  validate P handle_options (JAlternatives (flags_of pr) ms) p v = []
  <-> match v with
      | VUndefined => pr = Optional
      | _ => exists m, In m ms /\ validate P handle_options m p v = []
      end.
Proof.
  assert (Hattempt : forall ms reasons,
    ((exists m, In m ms /\ validate P handle_options m p v = [])
     /\ (fix attempt (ms0 : list schema) (reasons0 : list detail) :=
           match ms0 with
           | [] =>
               match reasons0 with
               | [] => inr [mk_error p "alternatives.base"
                              "not matching any of the allowed alternatives"]
               | _ => inr reasons0
               end
           | m :: rest =>
               match validate P handle_options m p v with
               | [] => inl v
               | errs => attempt rest (reasons0 ++ errs)
               end
           end) ms reasons = inl v)
    \/ ((forall m, In m ms -> validate P handle_options m p v <> [])
        /\ exists r,
            (fix attempt (ms0 : list schema) (reasons0 : list detail) :=
               match ms0 with
               | [] =>
                   match reasons0 with
                   | [] => inr [mk_error p "alternatives.base"
                                  "not matching any of the allowed alternatives"]
                   | _ => inr reasons0
                   end
               | m :: rest =>
                   match validate P handle_options m p v with
                   | [] => inl v
                   | errs => attempt rest (reasons0 ++ errs)
                   end
               end) ms reasons = inr r /\ r <> [])).
  { clear ms. induction ms as [|m ms IH]; intros reasons.
    - right. split; [intros m []|].
      destruct reasons; eexists; (split; [reflexivity | discriminate]).
    - destruct (validate P handle_options m p v) as [|d l] eqn:Hm.
      + left. split; [exists m; split; [now left | assumption]|].
        cbn -[validate]. rewrite ?Hm. reflexivity.
      + cbn -[validate]. rewrite ?Hm.
        destruct (IH (reasons ++ d :: l)) as [[(m' & Hin & Hok) Heq]
                                             | [Hall (r & Heq & Hr)]].
        * left. split; [exists m'; split; [now right | assumption]|].
          exact Heq.
        * right. split.
          -- intros m' [<- | Hin]; [congruence | now apply Hall].
          -- exists r. split; assumption. }
  cbn [validate]. unfold any_validate.
  destruct v; cbn [presence flags_of valids allowOnly has existsb andb
                     same_primitive handle_options abortEarly];
    try (destruct pr; split; intros; try discriminate; reflexivity).
  all: destruct (Hattempt ms []) as [[Hex ->] | [Hall (r & -> & Hr)]];
    cbn; split; try (intros; exact Hex); try reflexivity;
    try (intros Hnil; congruence);
    intros (m & Hin & Hok); now apply Hall in Hin.
Qed.

(** *** The event schema, field by field *)

Lemma eventSchema_children :
  eventSchema = JObject (flags_of Optional) (Some event_children) None.
Proof. reflexivity. Qed.

Lemma id_ok (p : list string) (v : value) :
  validate P handle_options
    (JAlternatives (flags_of Required)
       [JNumber (flags_of Required) [integer_t; positive_t];
        JString (flags_of Optional) [guid_t]]) p v = []
  <-> positive_integer P v || uuid_string P v = true.
Proof.
  rewrite alternatives_ok, orb_true_iff.
  rewrite <- (required_id_ok p v).
  pose proof (uuid_string_ok p v) as Hu.
  destruct v; [split; [discriminate | intros [H | H]; discriminate]|..].
  all: cbn [absent_or] in Hu; rewrite <- Hu.
  all: split;
    [ intros (m & [<- | [<- | []]] & Hm); [now left | now right]
    | intros [H | H]; eexists; (split; [| exact H]); cbn; tauto ].
Qed.

Lemma resource_ok (p : list string) (v : value) :
  validate P handle_options
    (JAlternatives (flags_of Optional)
       [JString {| presence := Optional; valids := [VStr "submission"];
                   allowOnly := true |} [];
        JString {| presence := Optional; valids := [VStr "review"];
                   allowOnly := true |} [];
        JString {| presence := Optional; valids := [VStr "reviewSummation"];
                   allowOnly := true |} []]) p v = []
  <-> absent_or resource_name v = true.
Proof.
  rewrite alternatives_ok.
  destruct v; [cbn; tauto|..].
  all: unfold resource_name; cbn [absent_or]; rewrite !orb_true_iff.
  all: split;
    [ intros (m & [<- | [<- | [<- | []]]] & Hm);
      apply named_string_ok in Hm; cbn [absent_or] in Hm; tauto
    | intros [[H | H] | H];
      eexists; (split; [| apply named_string_ok; cbn [absent_or]; exact H]);
      cbn; tauto ].
Qed.

Lemma unknown_errors_stripped (p known : list string)
    (fields : list (string * value)) :
  unknown_errors handle_options None p known fields = [].
Proof. reflexivity. Qed.

Lemma unknown_errors_allowed (o : options) (p known : list string)
    (fields : list (string * value)) :
  unknown_errors o (Some true) p known fields = [].
Proof. unfold unknown_errors. now rewrite andb_false_r. Qed.

Lemma metadata_ok (p : list string) (v : value) :
  validate P handle_options
    (JObject (flags_of Optional)
       (Some [("testType", JString (flags_of Required) [])]) None) p v = []
  <-> absent_or (metadata_shape P) v = true.
Proof.
  destruct v; [cbn; tauto|..].
  all: rewrite validate_object by (discriminate || reflexivity).
  all: cbn [absent_or]; unfold metadata_shape, as_object.
  all: destruct (safeParse P _); try (split; discriminate).
  all: rewrite steps_all; cbn [children_errors map fst snd app concat].
  all: rewrite unknown_errors_stripped, !app_nil_r.
  all: apply required_string_ok.
Qed.

Lemma payload_fields_ok (p : list string) (fields : list (string * value)) :
  concat (children_errors P handle_options p fields payload_children) = []
  <-> payload_shape P fields = true.
Proof.
  rewrite concat_nil_Forall. unfold payload_shape.
  cbn [children_errors payload_children map fst snd].
  rewrite !Forall_cons_iff, !andb_true_iff.
  rewrite id_ok, resource_ok, !optional_id_ok, uri_string_ok,
    !optional_string_ok, isExample_ok, score_ok, metadata_ok.
  pose proof (Forall_nil (fun e : list detail => e = [])).
  tauto.
Qed.

Lemma payload_ok (p : list string) (v : value) :
  validate P handle_options
    (JObject (flags_of Required) (Some payload_children) (Some true)) p v = []
  <-> match as_object P v with
      | Some fields => payload_shape P fields
      | None => false
      end = true.
Proof.
  destruct v; [cbn; split; discriminate|..].
  all: rewrite validate_object by (discriminate || reflexivity).
  all: unfold as_object.
  all: destruct (safeParse P _); try (split; discriminate).
  all: rewrite steps_all, concat_app; cbn [concat].
  all: rewrite unknown_errors_allowed, !app_nil_r.
  all: apply payload_fields_ok.
Qed.

(** Validation accepts an event exactly when it has the shape the schema
    describes. *)
Lemma event_ok (event : value) :
  event <> VUndefined ->
  Joi_validate P event eventSchema handle_options = []
  <-> event_shape P event = true.
Proof.
  intros Hev. unfold Joi_validate. rewrite eventSchema_children.
  rewrite validate_object by (assumption || reflexivity).
  unfold event_shape, as_object.
  destruct (safeParse P event); try (split; discriminate).
  rewrite steps_all, concat_app; cbn [concat].
  rewrite unknown_errors_stripped, !app_nil_r.
  rewrite concat_nil_Forall.
  cbn [children_errors event_children map fst snd].
  rewrite !Forall_cons_iff, !andb_true_iff.
  rewrite !required_string_ok, required_date_ok, payload_ok.
  pose proof (Forall_nil (fun e : list detail => e = [])).
  unfold as_object. tauto.
Qed.

Lemma as_object_not_nullish (v : value) (fields : list (string * value)) :
  as_object P v = Some fields ->
  forall k, member v k = Some (get_own v k).
Proof.
  unfold as_object. destruct v; cbn; try discriminate; reflexivity.
Qed.

(** A valid event that is an object has a payload that can be read. *)
Lemma valid_event_payload (fields : list (string * value)) :
  Joi_validate P (VObj fields) eventSchema handle_options = [] ->
  exists payload,
    as_object P (lookup "payload" fields) = Some payload
    /\ payload_shape P payload = true.
Proof.
  intros Hvalid. apply event_ok in Hvalid; [| discriminate].
  unfold event_shape in Hvalid. cbn [as_object safeParse] in Hvalid.
  rewrite !andb_true_iff in Hvalid. destruct Hvalid as [_ Hpayload].
  destruct (as_object P (lookup "payload" fields)) as [payload|];
    [| discriminate].
  now exists payload.
Qed.

End ValidationFacts.

(** ** Enrichment never throws *)

Ltac run_step :=
  cbv [bind try_catch await log ret throw log_api_error read template
       interpolated].

(** Every answer of a collaborator, every member read and every string
    conversion on the way. *)
Ltac enrich_cases :=
  repeat (rewrite ?calls_of_app; cbn [calls_of app]; rewrite ?app_nil_r;
          match goal with
          | |- context [match ?x with inl _ => _ | inr _ => _ end] =>
              destruct x as [?|[[?|] [|] | |]] eqn:?
          | |- context [member ?v ?k] => destruct (member v k) eqn:?
          | |- context [if stringifiable ?v then _ else _] =>
              destruct (stringifiable v) eqn:?
          end);
  rewrite ?calls_of_app; cbn [calls_of app]; rewrite ?app_nil_r.

Ltac use_answers H :=
  repeat match goal with
         | E : _ = inl _ |- _ => rewrite E in H; clear E
         | E : _ = inr _ |- _ => rewrite E in H; clear E
         end.

(** [getSubmission] always returns; it extends the trace with its own
    calls and lines, none of them a legacy-store update. *)
Lemma getSubmission_returns (submissionId : value) (m2m : bool)
    (w : world) (t : trace) :
  exists v t',
    getSubmission submissionId m2m w t = (Returned v, t ++ t')
    /\ mutations t' = [].
Proof.
  unfold getSubmission. destruct m2m; run_step; enrich_cases.
  all: do 2 eexists; rewrite <- ?app_assoc; split; reflexivity.
Qed.

(** [getSubTrack] always returns, and makes no legacy-store update. *)
Lemma getSubTrack_returns (submissionId : value) (m2m : bool)
    (w : world) (t : trace) :
  exists v t',
    getSubTrack submissionId m2m w t = (Returned v, t ++ t')
    /\ mutations t' = [].
Proof.
  unfold getSubTrack, getSubmission. destruct m2m; run_step; enrich_cases.
  all: do 2 eexists; rewrite <- ?app_assoc; split; reflexivity.
Qed.

(** A rejected call during SubTrack resolution leaves the SubTrack
    [undefined]. *)
Lemma getSubTrack_failed (submissionId : value) (m2m : bool) (w : world)
    (subTrack : value) (t1 : trace) :
  run (getSubTrack submissionId m2m) w = (Returned subTrack, t1) ->
  any_failed w [] t1 = true ->
  subTrack = VUndefined.
Proof.
  unfold run, getSubTrack, getSubmission. destruct m2m; run_step.
  all: repeat (cbn [app calls_of];
               match goal with
               | |- context [match ?x with inl _ => _ | inr _ => _ end] =>
                   destruct x as [?|[[?|] [|] | |]] eqn:?
               | |- context [member ?v ?k] => destruct (member v k) eqn:?
               | |- context [if stringifiable ?v then _ else _] =>
                   destruct (stringifiable v) eqn:?
               end).
  all: cbn [app calls_of]; intros H; injection H as <- <-; intros Hfailed;
    try reflexivity.
  all: cbn [any_failed app] in Hfailed;
    repeat match goal with
           | E : _ = inl _ |- _ => rewrite E in Hfailed; clear E
           end;
    discriminate.
Qed.

(** What is not truthy is a primitive, and has a string. *)
Lemma falsy_stringifiable (v : value) :
  truthy v = false -> stringifiable v = true.
Proof. destruct v; cbn; try discriminate; reflexivity. Qed.

(** ** The errors of an invalid event *)

Section ErrorDetails.

Variable P : Platform.

Lemma event_details (event : value) (fields : list (string * value)) :
  as_object P event = Some fields ->
  Joi_validate P event eventSchema handle_options
  = concat (children_errors P handle_options [] fields event_children).
Proof.
  intros Hobj. unfold Joi_validate. rewrite eventSchema_children.
  rewrite validate_object; try reflexivity.
  - unfold as_object in Hobj.
    destruct (safeParse P event); try discriminate.
    injection Hobj as ->.
    rewrite steps_all, concat_app. cbn [concat].
    now rewrite unknown_errors_stripped, !app_nil_r.
  - intros ->. discriminate.
Qed.

Lemma payload_details (p : list string) (v : value)
    (payload : list (string * value)) :
  as_object P v = Some payload ->
  validate P handle_options
    (JObject (flags_of Required) (Some payload_children) (Some true)) p v
  = concat (children_errors P handle_options p payload payload_children).
Proof.
  intros Hobj.
  rewrite validate_object; try reflexivity.
  - unfold as_object in Hobj.
    destruct (safeParse P v); try discriminate.
    injection Hobj as ->.
    rewrite steps_all, concat_app. cbn [concat].
    now rewrite unknown_errors_allowed, !app_nil_r.
  - intros ->. discriminate.
Qed.

Lemma children_errors_In (p : list string) (fields : list (string * value))
    (cs : list (string * schema)) (k : string) (sc : schema) (d : detail) :
  In (k, sc) cs ->
  In d (validate P handle_options sc (p ++ [k]) (lookup k fields)) ->
  In d (concat (children_errors P handle_options p fields cs)).
Proof.
  intros Hin Hd. apply in_concat.
  exists (validate P handle_options sc (p ++ [k]) (lookup k fields)).
  split; [| assumption].
  unfold children_errors.
  apply in_map_iff. exists (k, sc). split; [reflexivity | assumption].
Qed.

End ErrorDetails.

(** ** The rules an invalid event breaks *)

Lemma join_concat (sep : string) (l : list string) :
  join sep l = String.concat sep l.
Proof.
  induction l as [|x l IH]; [reflexivity|].
  destruct l as [|y l]; [reflexivity|].
  change (join sep (x :: y :: l)) with (x ++ sep ++ join sep (y :: l))%string.
  change (String.concat sep (x :: y :: l))
    with (x ++ sep ++ String.concat sep (y :: l))%string.
  now rewrite IH.
Qed.

Section Reasons.

Variable P : Platform.

Ltac rule_cases :=
  rewrite ?orb_false_r, ?andb_true_r;
  repeat match goal with
         | |- context [number_of_string ?Q ?s] =>
             destruct (number_of_string Q s) eqn:?
         | |- context [if ?b then _ else _] =>
             lazymatch b with
             | context [if _ then _ else _] => fail
             | _ => destruct b eqn:?
             end
         end;
  cbn in *; rewrite ?orb_false_r in *;
  repeat match goal with
         | H : ?b = _ |- context [?b] => rewrite H
         end;
  cbn in *; try reflexivity; try congruence.

Ltac by_rules := cbn; rule_cases; rule_cases.

Lemma string_reasons (pr : presence_t) (p : list string) (v : value) :
  map reason_of (validate P handle_options (JString (flags_of pr) []) p v)
  = string_rules (match pr with Required => true | Optional => false end)
      None p v.
Proof. destruct pr, v as [| |?|?|[|]|?|?|?]; by_rules. Qed.

Lemma uuid_reasons (p : list string) (v : value) :
  map reason_of
    (validate P handle_options (JString (flags_of Optional) [guid_t]) p v)
  = string_rules false (Some ("string.guid", is_guid P)) p v.
Proof. destruct v as [| |?|?|[|]|?|?|?]; by_rules. Qed.

Lemma uri_reasons (p : list string) (v : value) :
  map reason_of
    (validate P handle_options (JString (flags_of Optional) [uri_t]) p v)
  = string_rules false (Some ("string.uri", is_uri P)) p v.
Proof. destruct v as [| |?|?|[|]|?|?|?]; by_rules. Qed.

Lemma named_reasons (name : string) (p : list string) (v : value) :
  v <> VUndefined ->
  map reason_of
    (validate P handle_options
       (JString {| presence := Optional; valids := [VStr name];
                   allowOnly := true |} []) p v)
  = if strict_eq_str v name then []
    else match v with
         | VStr s =>
             broken (String.eqb s "") p "any.empty" ++ [(p, "any.allowOnly")]
         | _ => [(p, "string.base")]
         end.
Proof. intros Hv. destruct v; try congruence; by_rules. Qed.

Lemma date_reasons (p : list string) (v : value) :
  map reason_of (validate P handle_options (JDate (flags_of Required)) p v)
  = date_rules P true p v.
Proof. destruct v as [| |?|?|[|]|?|?|?]; by_rules. Qed.

Lemma id_number_reasons (pr : presence_t) (p : list string) (v : value) :
  map reason_of
    (validate P handle_options
       (JNumber (flags_of pr) [integer_t; positive_t]) p v)
  = number_rules P (match pr with Required => true | Optional => false end)
      [] id_number_rules p v.
Proof. destruct pr, v as [| |?|?|[|]|?|?|?]; by_rules. Qed.

Lemma isExample_reasons (p : list string) (v : value) :
  map reason_of
    (validate P handle_options
       (JNumber {| presence := Optional; valids := [VNum 0; VNum 1];
                   allowOnly := true |} [integer_t]) p v)
  = number_rules P false [0; 1] [("number.integer", is_integer)] p v.
Proof. destruct v as [| |?|?|[|]|?|?|?]; by_rules. Qed.

Lemma score_reasons (p : list string) (v : value) :
  map reason_of
    (validate P handle_options
       (JNumber (flags_of Optional) [min_t 0; max_t 100]) p v)
  = number_rules P false []
      [("number.min", at_least 0); ("number.max", at_most 100)] p v.
Proof. destruct v as [| |?|?|[|]|?|?|?]; by_rules. Qed.

Lemma defined_or_not (v : value) : v = VUndefined \/ v <> VUndefined.
Proof. destruct v; (now left) || (right; discriminate). Qed.

Lemma absent_or_defined (ok : value -> bool) (v : value) :
  v <> VUndefined -> absent_or ok v = ok v.
Proof. destruct v; congruence || reflexivity. Qed.

(** When no alternative accepts the value, the errors of all of them are
    reported, in order. *)
Lemma alternatives_rejected (pr : presence_t) (ms : list schema)
    (p : list string) (v : value) :
  v <> VUndefined -> ms <> [] ->
  (forall m, In m ms -> validate P handle_options m p v <> []) ->
  validate P handle_options (JAlternatives (flags_of pr) ms) p v
  = concat (map (fun m => validate P handle_options m p v) ms).
Proof.
  intros Hv Hms Hall.
  assert (Hattempt : forall ms0 reasons,
    (forall m, In m ms0 -> validate P handle_options m p v <> []) ->
    (fix attempt (ms1 : list schema) (reasons0 : list detail) :=
       match ms1 with
       | [] =>
           match reasons0 with
           | [] => inr [mk_error p "alternatives.base"
                          "not matching any of the allowed alternatives"]
           | _ => inr reasons0
           end
       | m :: rest =>
           match validate P handle_options m p v with
           | [] => inl v
           | errs => attempt rest (reasons0 ++ errs)
           end
       end) ms0 reasons
    = inr match reasons
                ++ concat (map (fun m => validate P handle_options m p v) ms0)
          with
          | [] => [mk_error p "alternatives.base"
                     "not matching any of the allowed alternatives"]
          | e => e
          end).
  { induction ms0 as [|m ms0 IH]; intros reasons H.
    - cbn [map concat]. rewrite app_nil_r. destruct reasons; reflexivity.
    - destruct (validate P handle_options m p v) as [|d l] eqn:E;
        [exfalso; apply (H m); [now left | assumption]|].
      cbn -[validate]. rewrite ?E.
      rewrite IH by (intros m' Hm'; apply H; now right).
      cbn [map concat]. rewrite ?E. now rewrite <- app_assoc. }
  cbn [validate]. unfold any_validate.
  destruct v; try congruence;
    cbn [presence flags_of valids allowOnly has existsb handle_options
           abortEarly andb];
    rewrite Hattempt by assumption; cbn [app].
  all: destruct ms as [|m ms]; [congruence|]; cbn [map concat].
  all: destruct (validate P handle_options m p _) as [|d l] eqn:E;
    [exfalso; apply (Hall m); [now left | assumption] | reflexivity].
Qed.

Lemma id_reasons (p : list string) (v : value) :
  map reason_of
    (validate P handle_options
       (JAlternatives (flags_of Required)
          [JNumber (flags_of Required) [integer_t; positive_t];
           JString (flags_of Optional) [guid_t]]) p v)
  = id_rules P p v.
Proof.
  destruct (defined_or_not v) as [-> | Hv]; [reflexivity|].
  assert (Hrules :
    id_rules P p v
    = if positive_integer P v || uuid_string P v then []
      else number_rules P true [] id_number_rules p v
           ++ string_rules false (Some ("string.guid", is_guid P)) p v)
    by (destruct v; congruence || reflexivity).
  rewrite Hrules.
  destruct (positive_integer P v || uuid_string P v) eqn:Hok.
  - now rewrite (proj2 (id_ok P p v) Hok).
  - apply orb_false_iff in Hok as [Hnumber Huuid].
    rewrite alternatives_rejected; [| assumption | discriminate |].
    + cbn [map concat]. rewrite app_nil_r, map_app.
      now rewrite (id_number_reasons Required), uuid_reasons.
    + intros m [<- | [<- | []]] Hnil.
      * apply required_id_ok in Hnil. congruence.
      * apply uuid_string_ok in Hnil.
        rewrite absent_or_defined in Hnil by assumption. congruence.
Qed.

Lemma resource_reasons (p : list string) (v : value) :
  map reason_of
    (validate P handle_options
       (JAlternatives (flags_of Optional)
          [JString {| presence := Optional; valids := [VStr "submission"];
                      allowOnly := true |} [];
           JString {| presence := Optional; valids := [VStr "review"];
                      allowOnly := true |} [];
           JString {| presence := Optional;
                      valids := [VStr "reviewSummation"];
                      allowOnly := true |} []]) p v)
  = resource_rules p v.
Proof.
  destruct (defined_or_not v) as [-> | Hv]; [reflexivity|].
  assert (Hrules :
    resource_rules p v
    = if resource_name v then []
      else
        flat_map
          (fun _ : string =>
             match v with
             | VStr s =>
                 broken (String.eqb s "") p "any.empty"
                 ++ [(p, "any.allowOnly")]
             | _ => [(p, "string.base")]
             end)
          ["submission"; "review"; "reviewSummation"]%string)
    by (destruct v; congruence || reflexivity).
  rewrite Hrules.
  destruct (resource_name v) eqn:Hok.
  - rewrite (proj2 (resource_ok P p v)); [reflexivity|].
    now rewrite absent_or_defined.
  - unfold resource_name in Hok.
    apply orb_false_iff in Hok as [Hok Hsummation].
    apply orb_false_iff in Hok as [Hsubmission Hreview].
    rewrite alternatives_rejected; [| assumption | discriminate |].
    + cbn [map concat flat_map]. rewrite app_nil_r, !map_app.
      rewrite !named_reasons by assumption.
      now rewrite Hsubmission, Hreview, Hsummation, app_nil_r.
    + intros m [<- | [<- | [<- | []]]] Hnil;
        apply named_string_ok in Hnil;
        rewrite absent_or_defined in Hnil by assumption; congruence.
Qed.

Lemma metadata_reasons (p : list string) (v : value) :
  map reason_of
    (validate P handle_options
       (JObject (flags_of Optional)
          (Some [("testType", JString (flags_of Required) [])]) None) p v)
  = metadata_rules P p v.
Proof.
  destruct (defined_or_not v) as [-> | Hv]; [reflexivity|].
  rewrite validate_object by (assumption || reflexivity).
  assert (Hrules :
    metadata_rules P p v
    = match as_object P v with
      | Some fields =>
          string_rules true None (p ++ ["testType"]%string)
            (lookup "testType" fields)
      | None => [(p, "object.base"%string)]
      end)
    by (destruct v; congruence || reflexivity).
  rewrite Hrules. unfold as_object.
  destruct (safeParse P v); try reflexivity.
  rewrite steps_all. cbn [children_errors map fst snd app concat].
  rewrite unknown_errors_stripped, !app_nil_r.
  apply (string_reasons Required).
Qed.

Lemma payload_reasons (p : list string) (v : value) :
  map reason_of
    (validate P handle_options
       (JObject (flags_of Required) (Some payload_children) (Some true)) p v)
  = payload_rules P p v.
Proof.
  destruct (defined_or_not v) as [-> | Hv]; [reflexivity|].
  assert (Hrules :
    payload_rules P p v
    = match as_object P v with
      | Some fields =>
          id_rules P (p ++ ["id"]) (lookup "id" fields)
          ++ resource_rules (p ++ ["resource"]) (lookup "resource" fields)
          ++ number_rules P false [] id_number_rules (p ++ ["challengeId"])
               (lookup "challengeId" fields)
          ++ number_rules P false [] id_number_rules (p ++ ["memberId"])
               (lookup "memberId" fields)
          ++ number_rules P false [] id_number_rules
               (p ++ ["submissionPhaseId"])
               (lookup "submissionPhaseId" fields)
          ++ string_rules false (Some ("string.uri", is_uri P))
               (p ++ ["url"]) (lookup "url" fields)
          ++ string_rules false None (p ++ ["type"]) (lookup "type" fields)
          ++ number_rules P false [] id_number_rules
               (p ++ ["legacySubmissionId"])
               (lookup "legacySubmissionId" fields)
          ++ number_rules P false [0; 1] [("number.integer", is_integer)]
               (p ++ ["isExample"]) (lookup "isExample" fields)
          ++ string_rules false None (p ++ ["typeId"])
               (lookup "typeId" fields)
          ++ number_rules P false []
               [("number.min", at_least 0); ("number.max", at_most 100)]
               (p ++ ["score"]) (lookup "score" fields)
          ++ metadata_rules P (p ++ ["metadata"]) (lookup "metadata" fields)
      | None => [(p, "object.base")]
      end)
    by (destruct v; congruence || reflexivity).
  rewrite Hrules.
  rewrite validate_object by (assumption || reflexivity).
  unfold as_object.
  destruct (safeParse P v); try reflexivity.
  rewrite steps_all, concat_app. cbn [concat].
  rewrite unknown_errors_allowed, !app_nil_r.
  cbn [children_errors payload_children map fst snd concat].
  rewrite app_nil_r, !map_app.
  rewrite id_reasons, resource_reasons, !(id_number_reasons Optional),
    uri_reasons, !(string_reasons Optional), isExample_reasons,
    score_reasons, metadata_reasons.
  reflexivity.
Qed.

(** The details of an event are the rules it breaks. *)
Lemma event_reasons (event : value) :
  event <> VUndefined ->
  map reason_of (Joi_validate P event eventSchema handle_options)
  = violations P event.
Proof.
  intros Hev. unfold Joi_validate, violations. rewrite eventSchema_children.
  rewrite validate_object by (assumption || reflexivity).
  unfold as_object.
  destruct (safeParse P event); try reflexivity.
  rewrite steps_all, concat_app. cbn [concat].
  rewrite unknown_errors_stripped, !app_nil_r.
  cbn [children_errors event_children map fst snd concat app].
  rewrite app_nil_r, !map_app.
  now rewrite !(string_reasons Required), date_reasons, payload_reasons.
Qed.

End Reasons.

Lemma unmutated_calls (t : trace) (c : call) :
  mutations t = [] -> is_mutation c = true -> ~ In c (calls_of t).
Proof.
  intros Hmut Hc Hin.
  assert (H : In c (mutations t)) by (apply filter_In; now split).
  rewrite Hmut in H. exact H.
Qed.

Section HandleProperties.

Variable P : Platform.
Variable config : Config.

(** ** From [handle] to [route] *)

Lemma topic_is_object (event : value) (name : string) :
  topic_is event name = true -> exists fields, event = VObj fields.
Proof.
  unfold topic_is.
  destruct event; cbn; try discriminate.
  intros _. now eexists.
Qed.

Lemma admitted_object (text : string) (event : value) :
  admitted P config text event ->
  exists fields payload,
    event = VObj fields
    /\ as_object P (lookup "payload" fields) = Some payload
    /\ payload_shape P payload = true.
Proof.
  intros (_ & _ & Hvalid & Htopic & _).
  apply orb_true_iff in Htopic.
  assert (Hobj : exists fields, event = VObj fields)
    by (destruct Htopic as [H | H]; eapply topic_is_object; exact H).
  destruct Hobj as (fields & ->).
  destruct (valid_event_payload P fields Hvalid) as (payload & Hp & Hshape).
  now exists fields, payload.
Qed.

(** An admitted message is handled by [route]. *)
Lemma handle_admitted (text : string) (event : value) (m2m : bool)
    (w : world) :
  admitted P config text event ->
  run (handle P config (MString text) m2m) w = run (route config event m2m) w.
Proof.
  intros Hadm.
  destruct (admitted_object text event Hadm)
    as (fields & payload & -> & Hpayload & _).
  destruct Hadm as (Htext & Hparse & Hvalid & Htopic & Horig & Hres).
  destruct text as [|c rest]; [congruence|].
  unfold run. cbn [handle]. rewrite Hparse. cbn [truthy negb].
  rewrite Hvalid. unfold check. run_step.
  cbn [member get_own]. unfold topic_is in Htopic. cbn [get_own] in Htopic.
  apply orb_true_iff in Htopic.
  replace (negb (strict_eq_str (lookup "topic" fields)
                   (KAFKA_NEW_SUBMISSION_TOPIC config))
           && negb (strict_eq_str (lookup "topic" fields)
                      (KAFKA_UPDATE_SUBMISSION_TOPIC config)))
    with false
    by (destruct Htopic as [-> | ->]; cbn; now rewrite ?andb_false_r).
  cbn [get_own] in Horig. rewrite Horig. cbn [negb].
  rewrite (as_object_not_nullish P _ _ Hpayload).
  cbn [lodash_get get_own] in Hres.
  destruct (lookup "payload" fields) eqn:Hp;
    try (cbn in Hpayload; discriminate);
    cbn [lodash_get] in Hres; rewrite Hres; reflexivity.
Qed.

Lemma truthy_member (v : value) (k : string) :
  truthy v = true -> member v k = Some (get_own v k).
Proof. destruct v; cbn; try discriminate; reflexivity. Qed.

Lemma strict_eq_str_true (v : value) (s : string) :
  strict_eq_str v s = true -> v = VStr s.
Proof.
  destruct v; cbn; try discriminate.
  intros H. apply String.eqb_eq in H. now subst.
Qed.

(** The topic and the originator the checks read off a valid event are
    strings, or [undefined] when the event is the JSON text of an event. *)
Lemma valid_event_reads (event : value) :
  Joi_validate P event eventSchema handle_options = [] ->
  stringifiable (get_own event "topic") = true
  /\ stringifiable (get_own event "originator") = true.
Proof.
  destruct event; try (split; reflexivity).
  intros Hvalid. apply event_ok in Hvalid; [| discriminate].
  unfold event_shape in Hvalid. cbn [as_object safeParse] in Hvalid.
  rewrite !andb_true_iff in Hvalid.
  destruct Hvalid as [[[[Ht Ho] _] _] _].
  cbn [get_own].
  destruct (lookup "topic" fields); try discriminate.
  destruct (lookup "originator" fields); try discriminate.
  split; reflexivity.
Qed.

(** A message is dropped with one debug line, or admitted. *)
Lemma handle_cases (value : message_value) (m2m : bool) (w : world) :
  (exists n, run (handle P config value m2m) w = (Returned tt, [Logged debug n]))
  \/ (exists text event, value = MString text /\ admitted P config text event).
Proof.
  destruct value as [| |text]; try (left; eexists; reflexivity).
  destruct text as [|c rest]; [left; eexists; reflexivity|].
  unfold run. cbn [handle].
  destruct (JSON_parse P (String c rest)) as [event|] eqn:Hparse;
    [| left; eexists; reflexivity].
  destruct (truthy event) eqn:Htruthy; cbn [negb];
    [| left; eexists; reflexivity].
  destruct (Joi_validate P event eventSchema handle_options) eqn:Hvalid;
    [| left; eexists; reflexivity].
  unfold check. run_step.
  rewrite !(truthy_member event _ Htruthy).
  destruct (valid_event_reads event Hvalid) as [Htopic_string Horig_string].
  cbv beta iota. rewrite ?Htopic_string, ?Horig_string.
  destruct (negb (strict_eq_str (get_own event "topic")
                    (KAFKA_NEW_SUBMISSION_TOPIC config))
            && negb (strict_eq_str (get_own event "topic")
                       (KAFKA_UPDATE_SUBMISSION_TOPIC config))) eqn:Htopic;
    [left; eexists; reflexivity|].
  assert (Htopic' : topic_is event (KAFKA_NEW_SUBMISSION_TOPIC config)
                    || topic_is event (KAFKA_UPDATE_SUBMISSION_TOPIC config)
                    = true).
  { unfold topic_is.
    destruct (strict_eq_str _ (KAFKA_NEW_SUBMISSION_TOPIC config));
      [reflexivity|].
    destruct (strict_eq_str _ (KAFKA_UPDATE_SUBMISSION_TOPIC config));
      [reflexivity | discriminate]. }
  destruct (strict_eq_str (get_own event "originator")
              (KAFKA_NEW_SUBMISSION_ORIGINATOR config)) eqn:Horig;
    cbn [negb]; [| left; eexists; reflexivity].
  assert (Hobj : exists fields, event = VObj fields).
  { apply orb_true_iff in Htopic'.
    destruct Htopic' as [H | H]; eapply topic_is_object; exact H. }
  destruct Hobj as (fields & ->).
  destruct (valid_event_payload P fields Hvalid) as (payload & Hp & _).
  cbn [get_own]. rewrite (as_object_not_nullish P _ _ Hp).
  destruct (strict_eq_str (get_own (lookup "payload" fields) "resource")
              "submission") eqn:Hres.
  { left. rewrite (strict_eq_str_true _ _ Hres). eexists. reflexivity. }
  right. exists (String c rest), (VObj fields). split; [reflexivity|].
  repeat split; try assumption; try discriminate.
  cbn [lodash_get get_own].
  destruct (lookup "payload" fields); cbn in Hp; try discriminate;
    exact Hres.
Qed.

Lemma handle_not_admitted (value : message_value) (m2m : bool) (w : world) :
  (forall text event, value = MString text -> ~ admitted P config text event) ->
  exists n, run (handle P config value m2m) w = (Returned tt, [Logged debug n]).
Proof.
  intros Hnot.
  destruct (handle_cases value m2m w) as [H | (text & event & Hv & Hadm)];
    [assumption|].
  now destruct (Hnot text event Hv).
Qed.

Lemma includes_In (l : list string) (v : value) :
  includes l v = true -> exists s, v = VStr s /\ In s l.
Proof.
  unfold includes. intros H. apply existsb_exists in H as (s & Hin & Heq).
  exists s. split; [now apply strict_eq_str_true | assumption].
Qed.

Lemma includes_string (l : list string) (v : value) :
  includes l v
  = match v with
    | VStr s => existsb (String.eqb s) l
    | _ => false
    end.
Proof.
  unfold includes.
  destruct v; try reflexivity; induction l as [|x l IH]; auto.
Qed.

(** ** [route] and [branch], stage by stage *)

Lemma payload_reads (fields payload : list (string * value)) (k : string) :
  as_object P (lookup "payload" fields) = Some payload ->
  member (lookup "payload" fields) k
  = Some (lodash_get (VObj fields) ["payload"; k]).
Proof.
  intros Hp. rewrite (as_object_not_nullish P _ _ Hp).
  cbn [lodash_get get_own].
  destruct (lookup "payload" fields); cbn in Hp; try discriminate;
    reflexivity.
Qed.

(** A SubTrack that passes the filter is a string. *)
Lemma relevant_stringifiable (subTrack : value) :
  relevant config subTrack = true -> stringifiable subTrack = true.
Proof.
  unfold relevant. intros H. apply andb_true_iff in H as [_ Hin].
  apply includes_In in Hin as (name & -> & _). reflexivity.
Qed.

(** After enrichment [route] writes its debug line, which throws when the
    SubTrack has no string, and then either drops the event at the
    SubTrack filter or hands it to [branch]. *)
Lemma route_steps (fields payload : list (string * value)) (m2m : bool)
    (w : world) (subTrack : value) (t1 : trace) :
  as_object P (lookup "payload" fields) = Some payload ->
  run (getSubTrack (lodash_get (VObj fields) ["payload"; "submissionId"]) m2m)
      w = (Returned subTrack, t1) ->
  run (route config (VObj fields) m2m) w
  = if stringifiable subTrack
    then
      if relevant config subTrack
      then branch config (VObj fields) m2m w
             (t1 ++ [Logged debug (Challenge_get_subTrack subTrack)])
      else (Returned tt,
            t1 ++ [Logged debug (Challenge_get_subTrack subTrack);
                   Logged debug (Skipping_as_NOT_MM_found_in
                                   (allow_set (CHALLENGE_SUBTRACK config)))])
    else (Threw TypeError, t1).
Proof.
  intros Hp Hst. unfold run, route in *. run_step.
  cbn [member]. rewrite (payload_reads _ _ _ Hp). rewrite Hst.
  destruct (stringifiable subTrack); [| reflexivity].
  unfold relevant.
  destruct (truthy subTrack && includes _ subTrack); cbn [negb];
    [reflexivity|].
  now rewrite <- app_assoc.
Qed.

(** The same for a SubTrack that has a string: every string, and every
    value that is not truthy. *)
Lemma route_run (fields payload : list (string * value)) (m2m : bool)
    (w : world) (subTrack : value) (t1 : trace) :
  as_object P (lookup "payload" fields) = Some payload ->
  run (getSubTrack (lodash_get (VObj fields) ["payload"; "submissionId"]) m2m)
      w = (Returned subTrack, t1) ->
  stringifiable subTrack = true ->
  run (route config (VObj fields) m2m) w
  = if relevant config subTrack
    then branch config (VObj fields) m2m w
           (t1 ++ [Logged debug (Challenge_get_subTrack subTrack)])
    else (Returned tt,
          t1 ++ [Logged debug (Challenge_get_subTrack subTrack);
                 Logged debug (Skipping_as_NOT_MM_found_in
                                 (allow_set (CHALLENGE_SUBTRACK config)))]).
Proof.
  intros Hp Hst Hstring.
  now rewrite (route_steps _ _ _ _ _ _ Hp Hst), Hstring.
Qed.

(** The [review] branch. *)
Lemma branch_review (fields payload : list (string * value)) (m2m : bool)
    (w : world) (t : trace) :
  as_object P (lookup "payload" fields) = Some payload ->
  lodash_get (VObj fields) ["payload"; "resource"] = VStr "review" ->
  branch config (VObj fields) m2m w t
  = let typeId := lodash_get (VObj fields) ["payload"; "typeId"] in
    if truthy typeId && includes (allow_set (PAYLOAD_TYPES config)) typeId
    then (resolve w (calls_of t) (updateReviewScore (VObj fields)),
          t ++ [Called (updateReviewScore (VObj fields))])
    else (Returned tt, t ++ [Logged debug Skipped_Invalid_typeId]).
Proof.
  intros Hp Hres. unfold branch. run_step. cbn [member].
  rewrite !(payload_reads _ _ _ Hp), Hres. cbn [truthy strict_eq_str].
  cbn [String.eqb Ascii.eqb Bool.eqb negb andb].
  cbv zeta.
  destruct (truthy _ && includes _ _); [| reflexivity].
  unfold resolve. now destruct (w (calls_of t) _).
Qed.

(** The [reviewSummation] branch. *)
Lemma branch_summation (fields payload : list (string * value)) (m2m : bool)
    (w : world) (t : trace) :
  as_object P (lookup "payload" fields) = Some payload ->
  lodash_get (VObj fields) ["payload"; "resource"] = VStr "reviewSummation" ->
  branch config (VObj fields) m2m w t
  = if topic_is (VObj fields) (KAFKA_NEW_SUBMISSION_TOPIC config)
    then
      match getSubmission
              (lodash_get_path (VObj fields) "payload.submissionId") m2m w t
      with
      | (Returned sub, t') =>
          match member sub "legacySubmissionId" with
          | None => (Threw TypeError, t')
          | Some legacySubmissionId =>
              if truthy legacySubmissionId
              then
                let c := LegacySubmissionIdService_updateReviewScore
                           legacySubmissionId
                           (lodash_get_path (VObj fields)
                              "payload.aggregateScore")
                           "finalScore" in
                (resolve w (calls_of t') c, t' ++ [Called c])
              else (Threw (Error "legacySubmissionId not found"), t')
          end
      | (Threw e, t') => (Threw e, t')
      end
    else (Returned tt, t).
Proof.
  intros Hp Hres. unfold branch. run_step. cbn [member].
  rewrite !(payload_reads _ _ _ Hp), Hres. cbn [truthy strict_eq_str].
  cbn [String.eqb Ascii.eqb Bool.eqb negb andb].
  unfold topic_is. cbn [get_own].
  destruct (strict_eq_str (lookup "topic" fields) _); [| reflexivity].
  destruct (getSubmission _ m2m w t) as [[sub|e] t']; [| reflexivity].
  destruct (member sub "legacySubmissionId") as [l|]; [| reflexivity].
  destruct (truthy l); cbn [negb]; [| reflexivity].
  unfold resolve. now destruct (w (calls_of t') _).
Qed.

(** Any other resource: no branch matches. *)
Lemma branch_other (fields payload : list (string * value)) (m2m : bool)
    (w : world) (t : trace) :
  as_object P (lookup "payload" fields) = Some payload ->
  strict_eq_str (lodash_get (VObj fields) ["payload"; "resource"]) "review"
  = false ->
  strict_eq_str (lodash_get (VObj fields) ["payload"; "resource"])
    "reviewSummation" = false ->
  branch config (VObj fields) m2m w t = (Returned tt, t).
Proof.
  intros Hp Hreview Hsum. unfold branch. run_step. cbn [member].
  rewrite !(payload_reads _ _ _ Hp), Hreview, Hsum.
  now rewrite !andb_false_r.
Qed.

(** ** Messages dropped before validation *)

(** C3. A message that is not well-formed JSON makes [handle] return
    normally; the trace is a single debug line, so no legacy-store update
    and no enrichment call is made. *)
Theorem C3_malformed_json_is_dropped :
  forall (text : string) (m2m : bool) (w : world),
    JSON_parse P text = None ->
    exists n,
      run (handle P config (MString text) m2m) w = (Returned tt, [Logged debug n])
      /\ (n = Skipped_non_well_formed_JSON_message
          \/ n = Skipped_null_or_empty_event).
Proof.
  intros text m2m w Hparse.
  destruct text as [|c rest].
  - exists Skipped_null_or_empty_event. split; [reflexivity | now right].
  - exists Skipped_non_well_formed_JSON_message.
    split; [| now left].
    unfold run. cbn [handle]. now rewrite Hparse.
Qed.

(** C10. A null, undefined or empty message value, and a message whose
    JSON parse yields a falsy value, make [handle] return at once: the
    trace is the single line 'Skipped null or empty event', with no
    validation diagnostic, no enrichment call and no update. *)
Theorem C10_null_or_empty_is_skipped :
  forall (value : message_value) (m2m : bool) (w : world),
    (value = MNull \/ value = MUndefined \/ value = MString ""
     \/ exists text event,
          value = MString text /\ JSON_parse P text = Some event
          /\ truthy event = false) ->
    run (handle P config value m2m) w
    = (Returned tt, [Logged debug Skipped_null_or_empty_event]).
Proof.
  intros value m2m w [-> | [-> | [-> | (text & event & -> & Hparse & Hfalsy)]]];
    try reflexivity.
  destruct text as [|c rest]; [reflexivity|].
  unfold run. cbn [handle]. now rewrite Hparse, Hfalsy.
Qed.

(** ** Events dropped before enrichment *)

(** C7. A valid event whose topic is neither configured topic, or whose
    originator is not the configured one, or whose payload.resource is
    'submission', is dropped: [handle] returns and its trace is one debug
    line, so no enrichment call and no legacy-store update is made. *)
Theorem C7_irrelevant_event_is_dropped :
  forall (text : string) (event : value) (m2m : bool) (w : world),
    JSON_parse P text = Some event ->
    Joi_validate P event eventSchema handle_options = [] ->
    (topic_is event (KAFKA_NEW_SUBMISSION_TOPIC config)
     || topic_is event (KAFKA_UPDATE_SUBMISSION_TOPIC config) = false
     \/ strict_eq_str (get_own event "originator")
          (KAFKA_NEW_SUBMISSION_ORIGINATOR config) = false
     \/ lodash_get event ["payload"; "resource"] = VStr "submission") ->
    exists n,
      run (handle P config (MString text) m2m) w
      = (Returned tt, [Logged debug n]).
Proof.
  intros text event m2m w Hparse Hvalid Hwhy.
  apply handle_not_admitted.
  intros text' event' [= <-] (_ & Hparse' & _ & Htopic & Horig & Hres).
  rewrite Hparse in Hparse'. injection Hparse' as <-.
  destruct Hwhy as [H | [H | H]]; [congruence | congruence |].
  rewrite H in Hres. discriminate.
Qed.

(** ** The legacy store is only written for relevant review events *)

(** C1. If [handle] makes a legacy-store update, then the message holds an
    event whose SubTrack, resolved from payload.submissionId, is a member
    of the CHALLENGE_SUBTRACK allow-set, and whose payload.resource is
    'review' or 'reviewSummation'. *)
Theorem C1_mutation_only_for_relevant_reviews :
  forall (value : message_value) (m2m : bool) (w : world)
         (r : result unit) (t : trace),
    run (handle P config value m2m) w = (r, t) ->
    mutations t <> [] ->
    exists text event subTrack t1,
      value = MString text
      /\ JSON_parse P text = Some event
      /\ run (getSubTrack (lodash_get event ["payload"; "submissionId"]) m2m) w
         = (Returned (VStr subTrack), t1)
      /\ In subTrack (allow_set (CHALLENGE_SUBTRACK config))
      /\ (lodash_get event ["payload"; "resource"] = VStr "review"
          \/ lodash_get event ["payload"; "resource"]
             = VStr "reviewSummation").
Proof.
  intros value m2m w r t Hrun Hmut.
  destruct (handle_cases value m2m w)
    as [(n & Hdrop) | (text & event & -> & Hadm)].
  { rewrite Hdrop in Hrun. injection Hrun as <- <-. now destruct Hmut. }
  rewrite (handle_admitted _ _ _ _ Hadm) in Hrun.
  destruct (admitted_object _ _ Hadm) as (fields & payload & -> & Hp & _).
  destruct (getSubTrack_returns
              (lodash_get (VObj fields) ["payload"; "submissionId"]) m2m w [])
    as (subTrack & t1 & Hst & Hmut1).
  cbn [app] in Hst.
  rewrite (route_steps _ _ _ _ _ _ Hp Hst) in Hrun.
  destruct (stringifiable subTrack).
  2:{ injection Hrun as <- <-. now destruct Hmut. }
  destruct (relevant config subTrack) eqn:Hrel.
  2:{ injection Hrun as <- <-. rewrite mutations_app, Hmut1 in Hmut.
      now destruct Hmut. }
  unfold relevant in Hrel. apply andb_true_iff in Hrel as [_ Hin].
  apply includes_In in Hin as (name & -> & Hin).
  exists text, (VObj fields), name, t1.
  destruct Hadm as (_ & Hparse & _).
  repeat split; try assumption.
  destruct (strict_eq_str (lodash_get (VObj fields) ["payload"; "resource"])
              "review") eqn:Hreview;
    [left; now apply strict_eq_str_true|].
  destruct (strict_eq_str (lodash_get (VObj fields) ["payload"; "resource"])
              "reviewSummation") eqn:Hsum;
    [right; now apply strict_eq_str_true|].
  rewrite (branch_other _ _ _ _ _ Hp Hreview Hsum) in Hrun.
  injection Hrun as <- <-. rewrite mutations_app, Hmut1 in Hmut.
  now destruct Hmut.
Qed.

(** ** The review branch *)

(** C6. For an admitted event with payload.resource 'review' whose
    resolved SubTrack passes the filter: when payload.typeId is a member of
    the PAYLOAD_TYPES allow-set, exactly one legacy-store update is made,
    the review-score update with the event; otherwise [handle] returns
    after the line 'Skipped Invalid typeId' and makes no update. *)
Theorem C6_review_dispatch :
  forall (text : string) (event : value) (m2m : bool) (w : world)
         (subTrack : value) (t1 : trace),
    admitted P config text event ->
    lodash_get event ["payload"; "resource"] = VStr "review" ->
    run (getSubTrack (lodash_get event ["payload"; "submissionId"]) m2m) w
    = (Returned subTrack, t1) ->
    relevant config subTrack = true ->
    let typeId := lodash_get event ["payload"; "typeId"] in
    let t2 := t1 ++ [Logged debug (Challenge_get_subTrack subTrack)] in
    if includes (allow_set (PAYLOAD_TYPES config)) typeId
    then
      exists r,
        run (handle P config (MString text) m2m) w
        = (r, t2 ++ [Called (updateReviewScore event)])
        /\ mutations (t2 ++ [Called (updateReviewScore event)])
           = [updateReviewScore event]
    else
      run (handle P config (MString text) m2m) w
      = (Returned tt, t2 ++ [Logged debug Skipped_Invalid_typeId])
      /\ mutations (t2 ++ [Logged debug Skipped_Invalid_typeId]) = [].
Proof.
  intros text event m2m w subTrack t1 Hadm Hres Hst Hrel typeId t2.
  rewrite (handle_admitted _ _ _ _ Hadm).
  destruct (admitted_object _ _ Hadm) as (fields & payload & -> & Hp & Hshape).
  rewrite (route_run _ _ _ _ _ _ Hp Hst (relevant_stringifiable _ Hrel)), Hrel.
  rewrite (branch_review _ _ _ _ _ Hp Hres). cbv zeta. fold typeId. fold t2.
  assert (Hmut1 : mutations t1 = []).
  { destruct (getSubTrack_returns
                (lodash_get (VObj fields) ["payload"; "submissionId"]) m2m w [])
      as (v & t' & Heq & Hm).
    cbn [app] in Heq. unfold run in Hst. rewrite Hst in Heq.
    now injection Heq as <- <-. }
  assert (Hmut2 : mutations t2 = []).
  { unfold t2. now rewrite mutations_app, Hmut1. }
  destruct (includes (allow_set (PAYLOAD_TYPES config)) typeId) eqn:Hin.
  - assert (Htruthy : truthy typeId = true).
    { apply includes_In in Hin as (name & Hname & _).
      unfold typeId in *. cbn [lodash_get get_own] in Hname, Hres.
      destruct (lookup "payload" fields) eqn:Hpl; try discriminate.
      cbn [lodash_get get_own] in Hname, Hres.
      unfold as_object in Hp. cbn in Hp. injection Hp as <-.
      unfold payload_shape in Hshape. rewrite !andb_true_iff in Hshape.
      destruct Hshape as [[[_ Hty] _] _].
      cbn [lodash_get get_own]. rewrite Hpl. cbn [lodash_get get_own].
      rewrite Hname in *. exact Hty. }
    rewrite Htruthy. cbn [andb]. eexists. split; [reflexivity|].
    rewrite mutations_app, Hmut2. reflexivity.
  - rewrite andb_false_r. split; [reflexivity|].
    rewrite mutations_app, Hmut2. reflexivity.
Qed.

(** ** The reviewSummation branch *)

(** X19. For an admitted event with payload.resource 'reviewSummation'
    whose resolved SubTrack passes the filter.  On the new-submission
    topic the submission is fetched again, for the id lodash reads at the
    path 'payload.submissionId': when the record has a (truthy)
    legacySubmissionId, exactly one legacy-store update is made, the
    final-score update with that id, the value lodash reads at the path
    'payload.aggregateScore' and the field name 'finalScore'; when it has
    none, [handle] throws and makes no update.  On the update-submission
    topic [handle] returns without any further call.  The two values are
    the payload's submissionId and aggregateScore whenever the event has no
    top-level key spelled like the path. *)
Theorem X19_review_summation_dispatch :
  forall (text : string) (event : value) (m2m : bool) (w : world)
         (subTrack : value) (t1 : trace),
    admitted P config text event ->
    lodash_get event ["payload"; "resource"] = VStr "reviewSummation" ->
    run (getSubTrack (lodash_get event ["payload"; "submissionId"]) m2m) w
    = (Returned subTrack, t1) ->
    relevant config subTrack = true ->
    let t2 := t1 ++ [Logged debug (Challenge_get_subTrack subTrack)] in
    (topic_is event (KAFKA_NEW_SUBMISSION_TOPIC config) = true ->
     exists sub t3,
       getSubmission (lodash_get_path event "payload.submissionId") m2m w t2
       = (Returned sub, t3)
       /\ mutations t3 = []
       /\ match member sub "legacySubmissionId" with
          | Some legacySubmissionId =>
              if truthy legacySubmissionId
              then
                let update :=
                  LegacySubmissionIdService_updateReviewScore
                    legacySubmissionId
                    (lodash_get_path event "payload.aggregateScore")
                    "finalScore" in
                exists r,
                  run (handle P config (MString text) m2m) w
                  = (r, t3 ++ [Called update])
                  /\ mutations (t3 ++ [Called update]) = [update]
              else
                run (handle P config (MString text) m2m) w
                = (Threw (Error "legacySubmissionId not found"), t3)
          | None =>
              run (handle P config (MString text) m2m) w
              = (Threw TypeError, t3)
          end)
    /\ (topic_is event (KAFKA_UPDATE_SUBMISSION_TOPIC config) = true ->
        topic_is event (KAFKA_NEW_SUBMISSION_TOPIC config) = false ->
        run (handle P config (MString text) m2m) w = (Returned tt, t2)
        /\ calls_of t2 = calls_of t1)
    /\ (has_own event "payload.submissionId" = false ->
        lodash_get_path event "payload.submissionId"
        = lodash_get event ["payload"; "submissionId"])
    /\ (has_own event "payload.aggregateScore" = false ->
        lodash_get_path event "payload.aggregateScore"
        = lodash_get event ["payload"; "aggregateScore"]).
Proof.
  intros text event m2m w subTrack t1 Hadm Hres Hst Hrel t2.
  split; [| split; [| split; intros Hplain; unfold lodash_get_path;
                              now rewrite Hplain]];
    rewrite (handle_admitted _ _ _ _ Hadm);
    destruct (admitted_object _ _ Hadm) as (fields & payload & -> & Hp & _);
    rewrite (route_run _ _ _ _ _ _ Hp Hst (relevant_stringifiable _ Hrel)),
      Hrel;
    rewrite (branch_summation _ _ _ _ _ Hp Hres); fold t2.
  - assert (Hmut1 : mutations t1 = []).
    { destruct (getSubTrack_returns
                  (lodash_get (VObj fields) ["payload"; "submissionId"]) m2m w
                  []) as (v & t' & Heq & Hm).
      cbn [app] in Heq. unfold run in Hst. rewrite Hst in Heq.
      now injection Heq as <- <-. }
    intros ->.
    destruct (getSubmission_returns
                (lodash_get_path (VObj fields) "payload.submissionId")
                m2m w t2) as (sub & t' & Hsub & Hmut').
    exists sub, (t2 ++ t'). rewrite Hsub.
    assert (Hmut3 : mutations (t2 ++ t') = []).
    { unfold t2. now rewrite !mutations_app, Hmut1, Hmut'. }
    split; [reflexivity|]. split; [assumption|].
    destruct (member sub "legacySubmissionId") as [l|]; [| reflexivity].
    destruct (truthy l); [| reflexivity].
    cbv zeta. eexists. split; [reflexivity|].
    now rewrite mutations_app, Hmut3.
  - intros _ ->. split; [reflexivity|].
    unfold t2. rewrite calls_of_app. cbn. now rewrite app_nil_r.
Qed.

(** ** Validation *)

(** C9. An event that fails validation is dropped with one debug line
    and nothing else.  The text of the line is the messages of all error
    details, in order, separated by a comma and a space.  And the details
    are all the rules the event breaks: for every field, whatever the
    other fields did, every rule its value breaks (a challengeId of -1.5
    is reported both as no integer and as not positive), in the order of
    the schema. *)
Theorem C9_all_field_errors_are_collected :
  forall (text : string) (event : value) (m2m : bool) (w : world),
    text <> "" ->
    JSON_parse P text = Some event ->
    truthy event = true ->
    Joi_validate P event eventSchema handle_options <> [] ->
    let details := Joi_validate P event eventSchema handle_options in
    run (handle P config (MString text) m2m) w
    = (Returned tt,
       [Logged debug
          (Skipped_invalid_event_reasons
             (String.concat ", " (map message details)))])
    /\ map reason_of details = violations P event.
Proof.
  intros text event m2m w Htext Hparse Htruthy Hinvalid details.
  split.
  - destruct text as [|c rest]; [congruence|].
    unfold run. cbn [handle]. rewrite Hparse, Htruthy. cbn [negb].
    rewrite <- (join_concat ", " (map message details)). fold details.
    destruct details as [|d ds] eqn:Hd; [now destruct Hinvalid|].
    reflexivity.
  - apply event_reasons. intros ->. discriminate.
Qed.

(** C8 (as amended). Validation accepts exactly the events of the shape
    the schema describes: the required top-level fields, payload.id a
    positive integer or a UUID string, and every optional payload field
    that is present satisfying its own constraint.  Such an event carries
    all required fields, and an event that lacks one is rejected and
    dropped with one debug line. *)
Theorem C8_validation_accepts_the_schema_shape :
  forall (text : string) (event : value) (m2m : bool) (w : world),
    text <> "" ->
    JSON_parse P text = Some event ->
    truthy event = true ->
    (Joi_validate P event eventSchema handle_options = []
     <-> event_shape P event = true)
    /\ (event_shape P event = true ->
        InboundEvent_required_fields P event = true)
    /\ (InboundEvent_required_fields P event = false ->
        exists reasons,
          run (handle P config (MString text) m2m) w
          = (Returned tt,
             [Logged debug (Skipped_invalid_event_reasons reasons)])).
Proof.
  intros text event m2m w Htext Hparse Htruthy.
  assert (Hdef : event <> VUndefined) by (intros ->; discriminate).
  assert (Hreq : event_shape P event = true ->
                 InboundEvent_required_fields P event = true).
  { unfold event_shape, InboundEvent_required_fields.
    destruct (as_object P event) as [fields|]; [| discriminate].
    rewrite !andb_true_iff. intros [Htop Hpayload]. split; [assumption|].
    destruct (as_object P (lookup "payload" fields)) as [payload|];
      [| discriminate].
    unfold payload_shape in Hpayload. rewrite !andb_true_iff in Hpayload.
    tauto. }
  split; [now apply event_ok | split; [assumption|]].
  intros Hmissing.
  destruct (Joi_validate P event eventSchema handle_options) as [|d ds]
    eqn:Hvalid.
  - apply event_ok in Hvalid; [| assumption].
    rewrite (Hreq Hvalid) in Hmissing. discriminate.
  - destruct text as [|c rest]; [congruence|].
    unfold run. cbn [handle]. rewrite Hparse, Htruthy. cbn [negb].
    rewrite Hvalid. eexists. reflexivity.
Qed.


(** ** Enrichment failures *)

(** C4 (as amended). When a call made to resolve the SubTrack (the token
    request, the submission fetch or the challenge fetch) is rejected, or
    the resolution yields no SubTrack, the SubTrack is unresolved and fails
    the relevance filter, and [handle] returns normally without any
    legacy-store update; an admitted event is dropped right at the
    filter. *)
Theorem C4_subtrack_resolution_failure_is_not_fatal :
  forall (text : string) (event : value) (m2m : bool) (w : world)
         (subTrack : value) (t1 : trace),
    JSON_parse P text = Some event ->
    run (getSubTrack (lodash_get event ["payload"; "submissionId"]) m2m) w
    = (Returned subTrack, t1) ->
    any_failed w [] t1 = true \/ truthy subTrack = false ->
    relevant config subTrack = false
    /\ (exists t,
          run (handle P config (MString text) m2m) w = (Returned tt, t)
          /\ mutations t = [])
    /\ (admitted P config text event ->
        run (handle P config (MString text) m2m) w
        = (Returned tt,
           t1 ++ [Logged debug (Challenge_get_subTrack subTrack);
                  Logged debug (Skipping_as_NOT_MM_found_in
                                  (allow_set (CHALLENGE_SUBTRACK config)))])).
Proof.
  intros text event m2m w subTrack t1 Hparse Hst Hwhy.
  assert (Hrel : relevant config subTrack = false).
  { unfold relevant. destruct Hwhy as [Hfailed | Hfalsy].
    - now rewrite (getSubTrack_failed _ _ _ _ _ Hst Hfailed).
    - now rewrite Hfalsy. }
  assert (Hdrop : admitted P config text event ->
            run (handle P config (MString text) m2m) w
            = (Returned tt,
               t1 ++ [Logged debug (Challenge_get_subTrack subTrack);
                      Logged debug (Skipping_as_NOT_MM_found_in
                                      (allow_set (CHALLENGE_SUBTRACK config)))])).
  { intros Hadm. rewrite (handle_admitted _ _ _ _ Hadm).
    destruct (admitted_object _ _ Hadm) as (fields & payload & -> & Hp & _).
    rewrite (route_run _ _ _ _ _ _ Hp Hst), Hrel; [reflexivity|].
    destruct Hwhy as [Hfailed | Hfalsy].
    - now rewrite (getSubTrack_failed _ _ _ _ _ Hst Hfailed).
    - now apply falsy_stringifiable. }
  split; [assumption | split; [| assumption]].
  destruct (handle_cases (MString text) m2m w)
    as [(n & Hrun) | (text' & event' & [= <-] & Hadm)].
  - eexists. split; [exact Hrun | reflexivity].
  - assert (event' = event) as ->.
    { destruct Hadm as (_ & Hparse' & _). congruence. }
    eexists. split; [now apply Hdrop|].
    destruct (getSubTrack_returns
                (lodash_get event ["payload"; "submissionId"]) m2m w [])
      as (v & t' & Heq & Hm).
    cbn [app] in Heq. unfold run in Hst. rewrite Hst in Heq.
    injection Heq as <- <-. now rewrite mutations_app, Hm.
Qed.

End HandleProperties.

(** * Further properties of the service *)

(** ** The allow-sets: [split(',').map(x => x.trim())] *)

Lemma string_app_assoc (a b c : string) :
  ((a ++ b) ++ c)%string = (a ++ (b ++ c))%string.
Proof. induction a as [|x a IH]; cbn; [reflexivity | now rewrite IH]. Qed.

Lemma string_app_empty (a : string) : (a ++ "")%string = a.
Proof. induction a as [|x a IH]; cbn; [reflexivity | now rewrite IH]. Qed.

Lemma string_length_ind (Q : string -> Prop) :
  (forall s,
     (forall r, (String.length r < String.length s)%nat -> Q r) -> Q s) ->
  forall s, Q s.
Proof.
  intros H s.
  assert (Hall : forall n r, (String.length r < n)%nat -> Q r).
  { induction n as [|n IH]; intros r Hr; [lia|].
    apply H. intros r' Hr'. apply IH. lia. }
  apply (Hall (S (String.length s))). lia.
Qed.

(** *** One white-space character at the front *)

Ltac space_cases :=
  repeat match goal with
         | |- context [if ?b then _ else _] => destruct b
         end;
  try discriminate.

Lemma leading_space_length (s r : string) :
  leading_space s = Some r -> (String.length r < String.length s)%nat.
Proof.
  destruct s as [|a [|b [|c r3]]]; cbn [leading_space]; space_cases;
    intros [= <-]; cbn; lia.
Qed.

Lemma leading_space_split (s r : string) :
  leading_space s = Some r -> exists sp, s = (sp ++ r)%string.
Proof.
  destruct s as [|a [|b [|c r3]]]; cbn [leading_space]; space_cases;
    intros [= <-];
    first [ now exists (String a "")
          | now exists (String a (String b ""))
          | now exists (String a (String b (String c ""))) ].
Qed.

Lemma leading_space_app (s r u : string) :
  leading_space s = Some r ->
  leading_space (s ++ u) = Some (r ++ u)%string.
Proof.
  destruct s as [|a [|b [|c r3]]]; cbn [leading_space append];
    space_cases; intros [= <-]; reflexivity.
Qed.

Lemma ends_with_space_suffix (s r : string) :
  leading_space s = Some r -> ends_with_space r = true ->
  ends_with_space s = true.
Proof.
  destruct s as [|a [|b [|c r3]]]; cbn [leading_space]; space_cases;
    intros [= <-] H; try discriminate;
    cbn [ends_with_space]; cbn [ends_with_space] in H;
    rewrite H, ?orb_true_r; reflexivity.
Qed.

(** *** [trimStart] *)

Lemma drop_spaces_fuel (n m : nat) (s : string) :
  (String.length s <= n)%nat -> (String.length s <= m)%nat ->
  drop_spaces n s = drop_spaces m s.
Proof.
  revert m s. induction n as [|n IH]; intros m s Hn Hm.
  - destruct s; [| cbn in Hn; lia]. destruct m; reflexivity.
  - destruct m as [|m].
    + destruct s; [reflexivity | cbn in Hm; lia].
    + cbn [drop_spaces].
      destruct (leading_space s) as [r|] eqn:Hr; [| reflexivity].
      apply leading_space_length in Hr. apply IH; lia.
Qed.

(** [trim_start] removes white-space characters as long as there is one. *)
Lemma trim_start_step (s : string) :
  trim_start s
  = match leading_space s with
    | Some r => trim_start r
    | None => s
    end.
Proof.
  unfold trim_start. destruct s as [|a s']; [reflexivity|].
  cbn [String.length drop_spaces].
  destruct (leading_space (String a s')) as [r|] eqn:Hr; [| reflexivity].
  apply leading_space_length in Hr. cbn in Hr. apply drop_spaces_fuel; lia.
Qed.

Lemma trim_start_no_space (s : string) :
  starts_with_space (trim_start s) = false.
Proof.
  induction s as [s IH] using string_length_ind.
  rewrite trim_start_step.
  destruct (leading_space s) as [r|] eqn:Hr.
  - apply IH. now apply leading_space_length.
  - unfold starts_with_space. now rewrite Hr.
Qed.

Lemma trim_start_plain (s : string) :
  starts_with_space s = false -> trim_start s = s.
Proof.
  unfold starts_with_space. rewrite trim_start_step.
  destruct (leading_space s); [discriminate | reflexivity].
Qed.

Lemma trim_start_suffix (s : string) :
  exists pre, s = (pre ++ trim_start s)%string.
Proof.
  induction s as [s IH] using string_length_ind.
  rewrite trim_start_step.
  destruct (leading_space s) as [r|] eqn:Hr; [| now exists ""%string].
  destruct (leading_space_split _ _ Hr) as (sp & ->).
  destruct (IH r (leading_space_length _ _ Hr)) as (pre & Hpre).
  exists (sp ++ pre)%string. rewrite string_app_assoc. now rewrite <- Hpre.
Qed.

Lemma all_space_after (s r : string) :
  leading_space s = Some r -> all_space s = all_space r.
Proof. intros H. unfold all_space. now rewrite (trim_start_step s), H. Qed.

(** A non-empty string of white space ends with white space. *)
Lemma all_space_ends (s : string) :
  all_space s = true -> s <> ""%string -> ends_with_space s = true.
Proof.
  induction s as [s IH] using string_length_ind. intros Hall Hne.
  destruct (leading_space s) as [r|] eqn:Hl.
  - rewrite (all_space_after _ _ Hl) in Hall.
    destruct (string_dec r "") as [-> | Hr].
    + destruct s; [congruence|]. cbn [ends_with_space]. now rewrite Hl.
    + apply (ends_with_space_suffix _ _ Hl).
      apply IH; [now apply leading_space_length | assumption | assumption].
  - unfold all_space in Hall. rewrite trim_start_step, Hl in Hall.
    apply String.eqb_eq in Hall. congruence.
Qed.

(** *** [trimEnd] *)

(** [trim_end] cuts a string where its trailing white space begins. *)
Lemma trim_end_prefix (s : string) :
  exists cut, s = (trim_end s ++ cut)%string /\ all_space cut = true.
Proof.
  induction s as [|a s IH]; [exists ""%string; split; reflexivity|].
  cbn [trim_end]. destruct (all_space (String a s)) eqn:Hall.
  - exists (String a s). split; [reflexivity | assumption].
  - destruct IH as (cut & Hs & Hcut). exists cut. split; [| assumption].
    cbn [append]. now rewrite <- Hs.
Qed.

Lemma trim_end_no_space (s : string) : ends_with_space (trim_end s) = false.
Proof.
  induction s as [|a s IH]; [reflexivity|].
  cbn [trim_end]. destruct (all_space (String a s)) eqn:Hall; [reflexivity|].
  cbn [ends_with_space]. rewrite IH, orb_false_r.
  destruct (leading_space (String a (trim_end s))) as [[|x r]|] eqn:Hl;
    try reflexivity.
  exfalso.
  destruct (trim_end_prefix s) as (cut & Hs & Hcut).
  apply (leading_space_app _ _ cut) in Hl. cbn [append] in Hl.
  rewrite <- Hs in Hl.
  rewrite (all_space_after _ _ Hl) in Hall. congruence.
Qed.

Lemma trim_end_keeps_start (s : string) :
  starts_with_space s = false -> starts_with_space (trim_end s) = false.
Proof.
  unfold starts_with_space. intros Hs.
  destruct (leading_space (trim_end s)) as [r|] eqn:Hl; [| reflexivity].
  destruct (trim_end_prefix s) as (cut & Heq & _).
  apply (leading_space_app _ _ cut) in Hl. rewrite <- Heq in Hl.
  now rewrite Hl in Hs.
Qed.

Lemma trim_end_plain (s : string) :
  ends_with_space s = false -> trim_end s = s.
Proof.
  induction s as [|a s IH]; [reflexivity|].
  intros H. pose proof H as Hends.
  cbn [ends_with_space] in H. apply orb_false_iff in H as [_ Hs].
  cbn [trim_end]. destruct (all_space (String a s)) eqn:Hall.
  - rewrite (all_space_ends _ Hall) in Hends; discriminate.
  - now rewrite (IH Hs).
Qed.

(** *** [trim] and the entries of an allow-set *)

Lemma trim_no_space (s : string) :
  starts_with_space (trim s) = false /\ ends_with_space (trim s) = false.
Proof.
  unfold trim. split.
  - apply trim_end_keeps_start, trim_start_no_space.
  - apply trim_end_no_space.
Qed.

Lemma trim_plain (s : string) :
  starts_with_space s = false -> ends_with_space s = false -> trim s = s.
Proof.
  intros Hstart Hend. unfold trim.
  now rewrite (trim_start_plain _ Hstart), (trim_end_plain _ Hend).
Qed.

Lemma trim_after_space (x : string) : trim (String " " x) = trim x.
Proof. unfold trim. now rewrite (trim_start_step (String " " x)). Qed.

Lemma free_of_app (c : ascii) (a b : string) :
  free_of c (a ++ b)%string = free_of c a && free_of c b.
Proof.
  induction a as [|x a IH]; cbn; [reflexivity|].
  now rewrite IH, andb_assoc.
Qed.

Lemma free_of_trim (c : ascii) (s : string) :
  free_of c s = true -> free_of c (trim s) = true.
Proof.
  unfold trim. intros H.
  destruct (trim_start_suffix s) as (pre & Hpre).
  rewrite Hpre, free_of_app in H. apply andb_true_iff in H as [_ H].
  destruct (trim_end_prefix (trim_start s)) as (cut & Hcut & _).
  rewrite Hcut, free_of_app in H. now apply andb_true_iff in H as [H _].
Qed.

Lemma split_aux_free (sep : ascii) (s cur x : string) :
  free_of sep cur = true -> In x (split_aux sep s cur) ->
  free_of sep x = true.
Proof.
  revert cur. induction s as [|c s IH]; intros cur Hcur Hin; cbn in Hin.
  - destruct Hin as [<- | []]. assumption.
  - destruct (Ascii.eqb c sep) eqn:Hc.
    + destruct Hin as [<- | Hin]; [assumption|].
      now apply (IH ""%string).
    + apply (IH (cur ++ String c "")%string); [| assumption].
      rewrite free_of_app, Hcur. cbn. now rewrite Hc.
Qed.

Lemma split_aux_skip (sep : ascii) (x s cur : string) :
  free_of sep x = true ->
  split_aux sep (x ++ s) cur = split_aux sep s (cur ++ x).
Proof.
  revert cur. induction x as [|c x IH]; intros cur Hx; cbn.
  - now rewrite string_app_empty.
  - cbn in Hx. apply andb_true_iff in Hx as [Hc Hx].
    apply negb_true_iff in Hc. rewrite Hc.
    rewrite (IH _ Hx), string_app_assoc. reflexivity.
Qed.

Lemma split_aux_not_nil (sep : ascii) (s cur : string) :
  split_aux sep s cur <> [].
Proof.
  revert cur. induction s as [|c s IH]; intros cur; cbn; [discriminate|].
  destruct (Ascii.eqb c sep); [discriminate | apply IH].
Qed.

(** An entry of an allow-set has no white space at either end and holds no
    comma. *)
Lemma allow_set_entry (s x : string) :
  In x (allow_set s) -> plain_name x = true.
Proof.
  unfold allow_set, split, plain_name. intros Hin.
  apply in_map_iff in Hin as (y & <- & Hy).
  destruct (trim_no_space y) as [-> ->]. cbn [negb andb].
  apply free_of_trim. now apply (split_aux_free "," s ""%string y).
Qed.

Lemma plain_name_parts (x : string) :
  plain_name x = true ->
  starts_with_space x = false /\ ends_with_space x = false
  /\ free_of "," x = true.
Proof.
  unfold plain_name. rewrite !andb_true_iff, !negb_true_iff. tauto.
Qed.

(** X1. Every entry of an allow-set is free of white space at both ends
    (of every character [trim()] removes: the ASCII ones, U+00A0, U+FEFF,
    the line and paragraph separators and the Unicode space separators)
    and holds no comma; and an allow-set is never empty: the empty
    configuration string gives the single entry [""]. *)
Theorem X1_allow_set_entries_are_trimmed :
  forall (s : string),
    allow_set s <> []
    /\ allow_set "" = [""%string]
    /\ forall x, In x (allow_set s) ->
         starts_with_space x = false /\ ends_with_space x = false
         /\ free_of "," x = true.
Proof.
  intros s. split; [| split; [reflexivity|]].
  - unfold allow_set, split. intros H. apply map_eq_nil in H.
    now apply split_aux_not_nil in H.
  - intros x Hin. now apply plain_name_parts, (allow_set_entry s).
Qed.

Lemma allow_set_concat_aux (l : list string) (x pad : string) :
  pad = ""%string \/ pad = " "%string ->
  (forall y, In y (x :: l) -> plain_name y = true) ->
  map trim (split_aux "," (String.concat ", " (x :: l)) pad) = x :: l.
Proof.
  revert x pad. induction l as [|y l IH]; intros x pad Hpad Hgood.
  - destruct (plain_name_parts x (Hgood x (or_introl eq_refl)))
      as (Hstart & Hend & Hfree).
    cbn [String.concat]. rewrite <- (string_app_empty x) at 1.
    rewrite (split_aux_skip "," x "" pad Hfree). cbn [split_aux map].
    destruct Hpad as [-> | ->]; cbn [append];
      [| rewrite trim_after_space]; now rewrite (trim_plain x).
  - destruct (plain_name_parts x (Hgood x (or_introl eq_refl)))
      as (Hstart & Hend & Hfree).
    change (String.concat ", " (x :: y :: l))
      with (x ++ String "," (String " " (String.concat ", " (y :: l))))%string.
    rewrite (split_aux_skip "," x _ pad Hfree).
    cbn [split_aux Ascii.eqb Bool.eqb map append].
    rewrite (IH y " "%string (or_intror eq_refl));
      [| intros z Hz; apply Hgood; now right].
    f_equal.
    destruct Hpad as [-> | ->]; cbn [append];
      [| rewrite trim_after_space]; now apply trim_plain.
Qed.

(** X2. Round trip of a configured list: names with no white space at
    either end and no comma, written separated by a comma and a space, are
    read back as exactly those names, in order. *)
Theorem X2_allow_set_reads_back_a_joined_list :
  forall (names : list string),
    names <> [] ->
    (forall x, In x names -> plain_name x = true) ->
    allow_set (String.concat ", " names) = names.
Proof.
  intros [|x l] Hne Hgood; [congruence|].
  unfold allow_set, split.
  apply allow_set_concat_aux; [now left | assumption].
Qed.

(** ** [getSubmission] and [getSubTrack] *)

Ltac last_call H :=
  cbn [calls_of app] in H;
  lazymatch type of H with
  | [] = _ ++ [_] => now destruct (app_cons_not_nil _ _ _ H)
  | [?a] = ?pre ++ [?x] =>
      apply (app_inj_tail [] pre a x) in H as [<- H]
  | [?a; ?b] = ?pre ++ [?x] =>
      apply (app_inj_tail [a] pre b x) in H as [<- H]
  end;
  try discriminate; injection H as <-.

(** X4. [getSubmission] never throws, and it returns the data its GET was
    answered with or [undefined]: the data when it can be written into the
    log line that follows the GET, [undefined] when a call was rejected,
    when no GET was sent, and when the data has no string. *)
Theorem X4_getSubmission_returns_data_or_undefined :
  forall (submissionId : value) (m2m : bool) (w : world) (t : trace),
    exists v d,
      getSubmission submissionId m2m w t = (Returned v, t ++ d)
      /\ (any_failed w (calls_of t) d = true -> v = VUndefined)
      /\ (count is_submission_fetch d = 0%nat -> v = VUndefined)
      /\ (forall pre token data,
            calls_of d = pre ++ [axios_get_submission submissionId token] ->
            w (calls_of t ++ pre) (axios_get_submission submissionId token)
            = inl data ->
            v = if stringifiable data then data else VUndefined).
Proof.
  intros submissionId m2m w t.
  unfold getSubmission. destruct m2m; run_step; enrich_cases.
  all: do 2 eexists; rewrite <- ?app_assoc; (split; [reflexivity|]).
  all: split;
    [ intros Hfailed; cbn [any_failed app] in Hfailed; try reflexivity;
      use_answers Hfailed; discriminate |].
  all: split; [intros Hnone; try reflexivity; discriminate|].
  all: intros pre token data Hcalls Hw; last_call Hcalls;
    rewrite ?app_nil_r in Hw; revert Hw;
    repeat match goal with
           | E : _ = inl _ |- _ => rewrite E; clear E
           | E : _ = inr _ |- _ => rewrite E; clear E
           end;
    intros Hw; try discriminate; injection Hw as <-;
    repeat match goal with
           | E : stringifiable _ = _ |- _ => rewrite ?E; clear E
           end;
    reflexivity.
Qed.

(** X5. The calls of [getSubmission].  Without an auth provider it sends
    the GET, with no token, unless the submission id has no string to put
    into the URL, in which case it makes no call at all.  With a provider
    it first asks for a token: the GET follows, carrying that token, only
    when the token was granted and both the token and the id have a
    string.  Nothing is retried. *)
Theorem X5_getSubmission_calls :
  forall (submissionId : value) (m2m : bool) (w : world) (t : trace),
    exists v d,
      getSubmission submissionId m2m w t = (Returned v, t ++ d)
      /\ calls_of d
         = if m2m
           then match w (calls_of t) m2m_getMachineToken with
                | inl token =>
                    if stringifiable token && stringifiable submissionId
                    then [m2m_getMachineToken;
                          axios_get_submission submissionId (Some token)]
                    else [m2m_getMachineToken]
                | inr _ => [m2m_getMachineToken]
                end
           else if stringifiable submissionId
                then [axios_get_submission submissionId None]
                else [].
Proof.
  intros submissionId m2m w t.
  unfold getSubmission. destruct m2m; run_step; enrich_cases.
  all: do 2 eexists; rewrite <- ?app_assoc; (split; [reflexivity|]);
    reflexivity.
Qed.

(** X6. [getSubTrack] never throws, and it asks the challenge service at
    most once, only for the [challengeId] of a submission record the
    submission service did answer with: when the submission cannot be
    fetched, the challenge service is not called. *)
Theorem X6_getSubTrack_asks_challenge_after_submission :
  forall (submissionId : value) (m2m : bool) (w : world) (t : trace),
    exists subTrack d,
      getSubTrack submissionId m2m w t = (Returned subTrack, t ++ d)
      /\ (count is_challenge_fetch d <= 1)%nat
      /\ forall challengeId,
           In (Axios_get_challenge challengeId) (calls_of d) ->
           exists before token submission,
             w before (axios_get_submission submissionId token)
             = inl submission
             /\ member submission "challengeId" = Some challengeId.
Proof.
  intros submissionId m2m w t.
  unfold getSubTrack, getSubmission. destruct m2m; run_step; enrich_cases.
  all: do 2 eexists; rewrite <- ?app_assoc; (split; [reflexivity|]);
    (split; [cbn; lia|]); cbn; intros challengeId Hin;
    repeat (destruct Hin as [Hin | Hin]; [try discriminate|]);
    try contradiction.
  all: injection Hin as <-; do 3 eexists; split; eassumption.
Qed.

(** X18. A SubTrack other than [undefined] is always what lodash reads at
    the path 'result.content[0].subTrack' of a response of the challenge
    service: [getSubTrack] has no other source for it.  That is the
    subTrack of the first entry of result.content, unless the response has
    a top-level key spelled like the whole path. *)
Theorem X18_subtrack_comes_from_the_challenge_response :
  forall (submissionId : value) (m2m : bool) (w : world) (t : trace),
    exists subTrack d,
      getSubTrack submissionId m2m w t = (Returned subTrack, t ++ d)
      /\ (subTrack <> VUndefined ->
          exists before challengeId details,
            w before (Axios_get_challenge challengeId) = inl details
            /\ subTrack
               = lodash_get_path details "result.content[0].subTrack"
            /\ (has_own details "result.content[0].subTrack" = false ->
                subTrack
                = lodash_get details
                    ["result"; "content"; "0"; "subTrack"]%string)).
Proof.
  intros submissionId m2m w t.
  unfold getSubTrack, getSubmission. destruct m2m; run_step; enrich_cases.
  all: do 2 eexists; rewrite <- ?app_assoc; (split; [reflexivity|]);
    intros Hdefined; try congruence.
  all: do 3 eexists; split; [eassumption|]; split; [reflexivity|].
  all: unfold lodash_get_path; now intros ->.
Qed.

(** ** How many calls *)

Lemma count_app (kind : call -> bool) (t1 t2 : trace) :
  count kind (t1 ++ t2) = (count kind t1 + count kind t2)%nat.
Proof. unfold count. now rewrite calls_of_app, filter_app, length_app. Qed.

Lemma getSubmission_bounds (submissionId : value) (m2m : bool) (w : world)
    (t : trace) (r : result value) (t' : trace) :
  getSubmission submissionId m2m w t = (r, t') ->
  exists v d,
    r = Returned v /\ t' = t ++ d /\ mutations d = []
    /\ (count is_submission_fetch d <= 1)%nat
    /\ count is_challenge_fetch d = 0%nat
    /\ (count is_token_request d <= if m2m then 1 else 0)%nat
    /\ (length (calls_of d) <= 2)%nat
    /\ (v = VUndefined
        \/ exists before token,
             w before (axios_get_submission submissionId token) = inl v).
Proof.
  unfold getSubmission. destruct m2m; run_step; enrich_cases.
  all: intros H; injection H as <- <-; do 2 eexists;
    (split; [reflexivity|]); rewrite <- ?app_assoc;
    (split; [reflexivity|]); cbn; repeat (split; [reflexivity || lia|]).
  all: try (left; reflexivity).
  all: right; do 2 eexists; eassumption.
Qed.

Lemma getSubTrack_bounds (submissionId : value) (m2m : bool) (w : world)
    (t : trace) (r : result value) (t' : trace) :
  getSubTrack submissionId m2m w t = (r, t') ->
  exists v d,
    r = Returned v /\ t' = t ++ d /\ mutations d = []
    /\ (count is_submission_fetch d <= 1)%nat
    /\ (count is_challenge_fetch d <= 1)%nat
    /\ (count is_token_request d <= if m2m then 1 else 0)%nat
    /\ (length (calls_of d) <= 3)%nat.
Proof.
  unfold getSubTrack, getSubmission. destruct m2m; run_step; enrich_cases.
  all: intros H; injection H as <- <-; do 2 eexists;
    (split; [reflexivity|]); rewrite <- ?app_assoc;
    (split; [reflexivity|]); cbn; repeat split; reflexivity || lia.
Qed.

(** ** The paths through [handle] *)

Section HandlerPaths.

Variable P : Platform.
Variable config : Config.

(** Every run of [handle] follows one of the paths of [handled]. *)
Lemma handle_handled (msg : message_value) (m2m : bool) (w : world)
    (r : result unit) (t : trace) :
  run (handle P config msg m2m) w = (r, t) ->
  handled P config msg m2m w r t.
Proof.
  intros Hrun.
  destruct (handle_cases P config msg m2m w)
    as [(n & Hdrop) | (text & event & -> & Hadm)].
  { rewrite Hdrop in Hrun. injection Hrun as <- <-. constructor. }
  rewrite (handle_admitted P config _ _ _ _ Hadm) in Hrun.
  destruct (admitted_object P config _ _ Hadm)
    as (fields & payload & -> & Hp & _).
  destruct (getSubTrack_returns
              (lodash_get (VObj fields) ["payload"; "submissionId"]) m2m w [])
    as (subTrack & t1 & Hst & _).
  cbn [app] in Hst.
  assert (Hen : enriched P config (MString text) m2m w text (VObj fields)
                  subTrack t1)
    by (split; [reflexivity | split; [exact Hadm | exact Hst]]).
  rewrite (route_steps P config _ _ _ _ _ _ Hp Hst) in Hrun.
  destruct (stringifiable subTrack) eqn:Hstring.
  2:{ injection Hrun as <- <-.
      now apply (unprintable P config _ _ _ text (VObj fields) subTrack). }
  destruct (relevant config subTrack) eqn:Hrel.
  2:{ injection Hrun as <- <-.
      now apply (filtered P config _ _ _ text (VObj fields)). }
  destruct (strict_eq_str (lodash_get (VObj fields) ["payload"; "resource"])
              "review") eqn:Hreview.
  - pose proof (strict_eq_str_true _ _ Hreview) as Hres.
    rewrite (branch_review P config _ _ _ _ _ Hp Hres) in Hrun. cbv zeta in Hrun.
    destruct (truthy _ && includes _ _) eqn:Hty; injection Hrun as <- <-.
    + now apply (review_dispatched P config _ _ _ text (VObj fields)).
    + now apply (review_skipped P config _ _ _ text (VObj fields)).
  - destruct (strict_eq_str (lodash_get (VObj fields) ["payload"; "resource"])
                "reviewSummation") eqn:Hsum.
    + pose proof (strict_eq_str_true _ _ Hsum) as Hres.
      rewrite (branch_summation P config _ _ _ _ _ Hp Hres) in Hrun.
      destruct (topic_is (VObj fields) (KAFKA_NEW_SUBMISSION_TOPIC config))
        eqn:Htopic.
      2:{ injection Hrun as <- <-.
          apply (passed_over P config _ _ _ text (VObj fields)); auto. }
      destruct (getSubmission_returns
                  (lodash_get_path (VObj fields) "payload.submissionId") m2m w
                  (t1 ++ [Logged debug (Challenge_get_subTrack subTrack)]))
        as (sub & d & Hsub & _).
      rewrite Hsub in Hrun.
      destruct (member sub "legacySubmissionId") as [l|] eqn:Hl.
      * destruct (truthy l) eqn:Htruthy; injection Hrun as <- <-.
        -- now apply (summation_dispatched P config _ _ _ text (VObj fields)
                        subTrack t1 sub).
        -- now apply (summation_without_id P config _ _ _ text (VObj fields)
                        subTrack t1 sub _ l).
      * injection Hrun as <- <-.
        now apply (summation_without_record P config _ _ _ text (VObj fields)
                     subTrack t1 sub).
    + rewrite (branch_other P config _ _ _ _ _ Hp Hreview Hsum) in Hrun.
      injection Hrun as <- <-.
      apply (passed_over P config _ _ _ text (VObj fields)); auto.
Qed.

Lemma enriched_unmutated (msg : message_value) (m2m : bool) (w : world)
    (text : string) (event subTrack : value) (t1 : trace) :
  enriched P config msg m2m w text event subTrack t1 ->
  mutations (t1 ++ [Logged debug (Challenge_get_subTrack subTrack)]) = [].
Proof.
  intros (_ & _ & Hst). apply getSubTrack_bounds in Hst.
  destruct Hst as (v & d & _ & -> & Hmut & _).
  cbn [app]. now rewrite mutations_app, Hmut.
Qed.

Lemma resolve_threw (w : world) (before : list call) (c : call) (e : thrown) :
  resolve w before c = Threw e -> w before c = inr e.
Proof.
  unfold resolve. destruct (w before c); [discriminate|].
  now intros [= ->].
Qed.

Lemma enriched_trace_unmutated (msg : message_value) (m2m : bool)
    (w : world) (text : string) (event subTrack : value) (t1 : trace) :
  enriched P config msg m2m w text event subTrack t1 -> mutations t1 = [].
Proof.
  intros (_ & _ & Hst). apply getSubTrack_bounds in Hst.
  destruct Hst as (v & d & _ & -> & Hmut & _). exact Hmut.
Qed.

Ltac by_path H :=
  destruct H as [n | text event st t1 Hen Hstring
                | text event st t1 Hen Hstring Hrel
                | text event st t1 Hen Hrel Hres Hty
                | text event st t1 Hen Hrel Hres Hty
                | text event st t1 sub t3 l Hen Hrel Hres Htopic Hsub Hl Hly
                | text event st t1 sub t3 Hen Hrel Hres Htopic Hsub Hl
                | text event st t1 sub t3 l Hen Hrel Hres Htopic Hsub Hl Hly
                | text event st t1 Hen Hrel Hreview Hother];
  try pose proof (enriched_unmutated _ _ _ _ _ _ _ Hen) as Hmut;
  try pose proof (enriched_trace_unmutated _ _ _ _ _ _ _ Hen) as Hmut1;
  try (apply getSubmission_bounds in Hsub;
       destruct Hsub as (v & d & [= <-] & -> & Hd & Hsubs & Hchal & Htok
                         & Hlen & Hdata)).

(** X7. [handle] throws in three places only, each for an admitted event.
    The debug line that follows enrichment throws a TypeError when the
    resolved SubTrack has no string (an object with a toString key): the
    trace then ends with the SubTrack resolution, before the filter.  At
    dispatch, either the legacy store rejected the update, which is then
    the last entry of the trace and whose error is the one thrown; or, for
    a reviewSummation on the new-submission topic, the re-fetched
    submission gave no legacySubmissionId.  In the first and the last case
    no update was made.  Every drop before enrichment is silent. *)
Theorem X7_where_handle_throws :
  forall (msg : message_value) (m2m : bool) (w : world) (e : thrown)
         (t : trace),
    run (handle P config msg m2m) w = (Threw e, t) ->
    exists text event,
      msg = MString text
      /\ admitted P config text event
      /\ ((exists subTrack,
             run (getSubTrack (lodash_get event ["payload"; "submissionId"])
                    m2m) w
             = (Returned subTrack, t)
             /\ stringifiable subTrack = false
             /\ e = TypeError /\ mutations t = [])
          \/ (exists t0 c,
                t = t0 ++ [Called c] /\ is_mutation c = true
                /\ w (calls_of t0) c = inr e)
          \/ (lodash_get event ["payload"; "resource"]
              = VStr "reviewSummation"
              /\ topic_is event (KAFKA_NEW_SUBMISSION_TOPIC config) = true
              /\ (e = TypeError \/ e = Error "legacySubmissionId not found")
              /\ mutations t = [])).
Proof.
  intros msg m2m w e t Hrun. apply handle_handled in Hrun.
  remember (Threw e) as r eqn:Hr.
  by_path Hrun; try discriminate;
    destruct Hen as (-> & Hadm & Hst); exists text, event;
    (split; [reflexivity | split; [assumption|]]).
  - left. exists st. injection Hr as <-. now repeat split.
  - right. left. do 2 eexists. split; [reflexivity|]. split; [reflexivity|].
    now apply resolve_threw.
  - right. left. do 2 eexists. split; [reflexivity|]. split; [reflexivity|].
    now apply resolve_threw.
  - right. right. injection Hr as <-.
    repeat split; try assumption; [now left|].
    now rewrite mutations_app, Hmut, Hd.
  - right. right. injection Hr as <-.
    repeat split; try assumption; [now right|].
    now rewrite mutations_app, Hmut, Hd.
Qed.

(** X8. One message causes at most one legacy-store update.  When there
    is one it is the last entry of the trace, and the result of [handle]
    is the store's answer to it: returned when the store resolves, the
    store's error thrown when it rejects. *)
Theorem X8_at_most_one_update_and_it_is_last :
  forall (msg : message_value) (m2m : bool) (w : world) (r : result unit)
         (t : trace),
    run (handle P config msg m2m) w = (r, t) ->
    (length (mutations t) <= 1)%nat
    /\ (mutations t = []
        \/ exists t0 c,
             t = t0 ++ [Called c] /\ mutations t = [c]
             /\ r = resolve w (calls_of t0) c).
Proof.
  intros msg m2m w r t Hrun. apply handle_handled in Hrun.
  assert (H : mutations t = []
              \/ exists t0 c,
                   t = t0 ++ [Called c] /\ mutations t = [c]
                   /\ r = resolve w (calls_of t0) c).
  { by_path Hrun.
    - now left.
    - now left.
    - left. now rewrite mutations_app, Hmut1.
    - right. do 2 eexists. split; [reflexivity|]. split; [| reflexivity].
      now rewrite mutations_app, Hmut.
    - left. now rewrite mutations_app, Hmut.
    - right. do 2 eexists. split; [reflexivity|]. split; [| reflexivity].
      now rewrite mutations_app, mutations_app, Hmut, Hd.
    - left. now rewrite mutations_app, Hmut, Hd.
    - left. now rewrite mutations_app, Hmut, Hd.
    - now left. }
  split; [| assumption].
  destruct H as [-> | (t0 & c & _ & -> & _)]; cbn; lia.
Qed.

Lemma review_payload (text : string) (event : value) :
  admitted P config text event ->
  lodash_get event ["payload"; "resource"] = VStr "review" ->
  exists fields payload,
    event = VObj fields /\ lookup "payload" fields = VObj payload
    /\ payload_shape P payload = true.
Proof.
  intros Hadm Hres.
  destruct (admitted_object P config _ _ Hadm)
    as (fields & payload & -> & Hp & Hshape).
  exists fields, payload. split; [reflexivity|].
  cbn [lodash_get get_own] in Hres.
  destruct (lookup "payload" fields) eqn:Hpl; try discriminate.
  unfold as_object in Hp. cbn in Hp. injection Hp as <-.
  now split.
Qed.

(** X9. Whatever event reaches the review-score update is the event of an
    admitted message: it has the shape the schema asks for, its typeId is a
    string of the PAYLOAD_TYPES allow-set, and its score, when it has one,
    lies between 0 and 100. *)
Theorem X9_review_update_gets_a_valid_event :
  forall (msg : message_value) (m2m : bool) (w : world) (r : result unit)
         (t : trace) (event : value),
    run (handle P config msg m2m) w = (r, t) ->
    In (updateReviewScore event) (calls_of t) ->
    (exists text, msg = MString text /\ admitted P config text event)
    /\ event_shape P event = true
    /\ (exists typeId,
          lodash_get event ["payload"; "typeId"] = VStr typeId
          /\ In typeId (allow_set (PAYLOAD_TYPES config)))
    /\ absent_or (from_0_to_100 P) (lodash_get event ["payload"; "score"])
       = true.
Proof.
  intros msg m2m w r t event' Hrun Hin. apply handle_handled in Hrun.
  by_path Hrun.
  - destruct Hin.
  - exfalso. now apply (unmutated_calls t1 (updateReviewScore event')).
  - exfalso. rewrite calls_of_app in Hin. cbn in Hin. rewrite app_nil_r in Hin.
    now apply (unmutated_calls t1 (updateReviewScore event')).
  - rewrite calls_of_app in Hin. apply in_app_iff in Hin as [Hin | Hin];
      [exfalso; now apply (unmutated_calls _ (updateReviewScore event') Hmut)|].
    cbn in Hin. destruct Hin as [[= <-] | []].
    destruct Hen as (-> & Hadm & _).
    split; [now exists text|].
    split; [apply event_ok; [intros ->; discriminate | apply Hadm]|].
    apply andb_true_iff in Hty as [_ Hinc].
    apply includes_In in Hinc as (typeId & HtypeId & Hmember).
    split; [now exists typeId|].
    destruct (review_payload _ _ Hadm Hres)
      as (fields & payload & -> & Hpl & Hshape).
    cbn [lodash_get get_own]. rewrite Hpl. cbn [lodash_get get_own].
    unfold payload_shape in Hshape. rewrite !andb_true_iff in Hshape.
    tauto.
  - exfalso. rewrite calls_of_app in Hin. cbn in Hin. rewrite app_nil_r in Hin.
    now apply (unmutated_calls _ (updateReviewScore event') Hmut).
  - exfalso. rewrite calls_of_app in Hin. apply in_app_iff in Hin as [Hin | Hin].
    + apply (unmutated_calls ((t1 ++ [Logged debug (Challenge_get_subTrack st)]) ++ d) (updateReviewScore event'));
        [now rewrite mutations_app, Hmut, Hd | reflexivity | assumption].
    + cbn in Hin. destruct Hin as [Hin | []]. discriminate.
  - exfalso.
    apply (unmutated_calls ((t1 ++ [Logged debug (Challenge_get_subTrack st)]) ++ d) (updateReviewScore event'));
      [now rewrite mutations_app, Hmut, Hd | reflexivity | assumption].
  - exfalso.
    apply (unmutated_calls ((t1 ++ [Logged debug (Challenge_get_subTrack st)]) ++ d) (updateReviewScore event'));
      [now rewrite mutations_app, Hmut, Hd | reflexivity | assumption].
  - exfalso. now apply (unmutated_calls _ (updateReviewScore event') Hmut).
Qed.

(** X10. A final-score update is only made for an admitted
    reviewSummation event on the new-submission topic, with the field name
    'finalScore' and the score lodash reads at the path
    'payload.aggregateScore', and it is keyed on a truthy
    legacySubmissionId read from a record the submission service answered
    with for the id lodash reads at the path 'payload.submissionId': never
    on an id taken from the payload.  Score and id are the payload's
    aggregateScore and submissionId whenever the event has no top-level
    key spelled like the path. *)
Theorem X10_final_score_update_provenance :
  forall (msg : message_value) (m2m : bool) (w : world) (r : result unit)
         (t : trace) (legacySubmissionId reviewScore : value)
         (field : string),
    run (handle P config msg m2m) w = (r, t) ->
    In (LegacySubmissionIdService_updateReviewScore legacySubmissionId
          reviewScore field) (calls_of t) ->
    field = "finalScore"%string
    /\ truthy legacySubmissionId = true
    /\ exists text event,
         msg = MString text
         /\ admitted P config text event
         /\ lodash_get event ["payload"; "resource"] = VStr "reviewSummation"
         /\ topic_is event (KAFKA_NEW_SUBMISSION_TOPIC config) = true
         /\ reviewScore = lodash_get_path event "payload.aggregateScore"
         /\ (has_own event "payload.aggregateScore" = false ->
             reviewScore = lodash_get event ["payload"; "aggregateScore"])
         /\ exists before token submission,
              w before
                (axios_get_submission
                   (lodash_get_path event "payload.submissionId") token)
              = inl submission
              /\ member submission "legacySubmissionId"
                 = Some legacySubmissionId
              /\ (has_own event "payload.submissionId" = false ->
                  lodash_get_path event "payload.submissionId"
                  = lodash_get event ["payload"; "submissionId"]).
Proof.
  intros msg m2m w r t lsid score field Hrun Hin.
  apply handle_handled in Hrun.
  set (c := LegacySubmissionIdService_updateReviewScore lsid score field)
    in *.
  assert (Hc : is_mutation c = true) by reflexivity.
  by_path Hrun.
  - destruct Hin.
  - exfalso. now apply (unmutated_calls t1 c).
  - exfalso. rewrite calls_of_app in Hin. cbn in Hin. rewrite app_nil_r in Hin.
    now apply (unmutated_calls t1 c).
  - exfalso. rewrite calls_of_app in Hin. apply in_app_iff in Hin as [Hin | Hin];
      [now apply (unmutated_calls _ c Hmut)|].
    cbn in Hin. destruct Hin as [Hin | []]. discriminate.
  - exfalso. rewrite calls_of_app in Hin. cbn in Hin. rewrite app_nil_r in Hin.
    now apply (unmutated_calls _ c Hmut).
  - rewrite calls_of_app in Hin. apply in_app_iff in Hin as [Hin | Hin].
    + exfalso. apply (unmutated_calls ((t1 ++ [Logged debug (Challenge_get_subTrack st)]) ++ d) c);
        [now rewrite mutations_app, Hmut, Hd | assumption | assumption].
    + cbn in Hin. destruct Hin as [[= <- <- <-] | []].
      split; [reflexivity | split; [assumption|]].
      destruct Hen as (-> & Hadm & _). exists text, event.
      repeat (split; [reflexivity || assumption|]).
      split; [unfold lodash_get_path; now intros ->|].
      destruct Hdata as [-> | (before & token & Hw)]; [discriminate|].
      exists before, token, sub.
      repeat (split; [assumption|]).
      unfold lodash_get_path; now intros ->.
  - exfalso. apply (unmutated_calls ((t1 ++ [Logged debug (Challenge_get_subTrack st)]) ++ d) c);
      [now rewrite mutations_app, Hmut, Hd | assumption | assumption].
  - exfalso. apply (unmutated_calls ((t1 ++ [Logged debug (Challenge_get_subTrack st)]) ++ d) c);
      [now rewrite mutations_app, Hmut, Hd | assumption | assumption].
  - exfalso. now apply (unmutated_calls _ c Hmut).
Qed.

Lemma enriched_bounds (msg : message_value) (m2m : bool) (w : world)
    (text : string) (event subTrack : value) (t1 : trace) :
  enriched P config msg m2m w text event subTrack t1 ->
  (count is_submission_fetch t1 <= 1)%nat
  /\ (count is_challenge_fetch t1 <= 1)%nat
  /\ (count is_token_request t1 <= if m2m then 1 else 0)%nat
  /\ (length (calls_of t1) <= 3)%nat.
Proof.
  intros (_ & _ & Hst). apply getSubTrack_bounds in Hst.
  destruct Hst as (v & d & _ & -> & _ & H). exact H.
Qed.

(** X11. No retries: for one message [handle] fetches the submission at
    most twice and the challenge at most once, asks for a token at most
    twice and never without an auth provider, and makes at most six calls
    in all. *)
Theorem X11_calls_are_bounded :
  forall (msg : message_value) (m2m : bool) (w : world) (r : result unit)
         (t : trace),
    run (handle P config msg m2m) w = (r, t) ->
    (count is_submission_fetch t <= 2)%nat
    /\ (count is_challenge_fetch t <= 1)%nat
    /\ (count is_token_request t <= if m2m then 2 else 0)%nat
    /\ (length (calls_of t) <= 6)%nat.
Proof.
  intros msg m2m w r t Hrun. apply handle_handled in Hrun.
  by_path Hrun;
    try (destruct (enriched_bounds _ _ _ _ _ _ _ Hen)
           as (Hs1 & Hc1 & Ht1 & Hl1));
    rewrite ?count_app, ?calls_of_app, ?length_app; cbn;
    rewrite ?count_app, ?calls_of_app, ?length_app; cbn;
    rewrite ?Hchal; destruct m2m; repeat split; lia.
Qed.

(** X12. An admitted event has payload.resource 'review',
    'reviewSummation' or none at all.  With none the SubTrack is still
    resolved; when it has a string [handle] then returns without any
    further call or line beyond the filter's, and when it has none
    [handle] throws the TypeError of the debug line, the trace ending with
    the resolution. *)
Theorem X12_event_without_resource :
  forall (text : string) (event : value) (m2m : bool) (w : world)
         (subTrack : value) (t1 : trace),
    admitted P config text event ->
    run (getSubTrack (lodash_get event ["payload"; "submissionId"]) m2m) w
    = (Returned subTrack, t1) ->
    (lodash_get event ["payload"; "resource"] = VUndefined
     \/ lodash_get event ["payload"; "resource"] = VStr "review"
     \/ lodash_get event ["payload"; "resource"] = VStr "reviewSummation")
    /\ (lodash_get event ["payload"; "resource"] = VUndefined ->
        run (handle P config (MString text) m2m) w
        = if stringifiable subTrack
          then
            (Returned tt,
             t1 ++ Logged debug (Challenge_get_subTrack subTrack)
                   :: (if relevant config subTrack then []
                       else [Logged debug
                               (Skipping_as_NOT_MM_found_in
                                  (allow_set (CHALLENGE_SUBTRACK config)))]))
          else (Threw TypeError, t1)).
Proof.
  intros text event m2m w subTrack t1 Hadm Hst.
  destruct (admitted_object P config _ _ Hadm)
    as (fields & payload & -> & Hp & Hshape).
  split.
  - destruct Hadm as (_ & _ & _ & _ & _ & Hnot).
    cbn [lodash_get get_own] in *.
    destruct (lookup "payload" fields) eqn:Hpl;
      try (unfold as_object in Hp; cbn in Hp; discriminate).
    + left. reflexivity.
    + cbn [lodash_get get_own] in *.
      unfold as_object in Hp. cbn in Hp. injection Hp as <-.
      unfold payload_shape in Hshape. rewrite !andb_true_iff in Hshape.
      destruct Hshape as [[[[[[[[[[[_ Hres] _] _] _] _] _] _] _] _] _] _].
      destruct (lookup "resource" fields0); cbn in Hres; try discriminate;
        [now left|].
      unfold resource_name in Hres. rewrite !orb_true_iff in Hres.
      destruct Hres as [[Hres | Hres] | Hres];
        apply strict_eq_str_true in Hres; rewrite Hres in *;
        [discriminate | right; now left | right; now right].
  - intros Hres.
    rewrite (handle_admitted P config _ _ _ _ Hadm).
    rewrite (route_steps P config _ _ _ _ _ _ Hp Hst).
    destruct (stringifiable subTrack); [| reflexivity].
    destruct (relevant config subTrack); [| reflexivity].
    rewrite (branch_other P config _ _ _ _ _ Hp); now rewrite ?Hres.
Qed.

(** X3. The SubTrack filter of [handle], for an admitted event whose
    resolved SubTrack has a string: the event goes on to the branch on its
    resource exactly when the SubTrack is a non-empty string equal to one
    of the pieces of CHALLENGE_SUBTRACK, cut at the commas and trimmed;
    otherwise [handle] returns after the filter's line.  [undefined], a
    number or the empty string never pass, and a SubTrack that passes has
    no white space at either end. *)
Theorem X3_subtrack_filter :
  forall (text : string) (event : value) (m2m : bool) (w : world)
         (subTrack : value) (t1 : trace),
    admitted P config text event ->
    run (getSubTrack (lodash_get event ["payload"; "submissionId"]) m2m) w
    = (Returned subTrack, t1) ->
    stringifiable subTrack = true ->
    let pieces := map trim (split "," (CHALLENGE_SUBTRACK config)) in
    let passes :=
      match subTrack with
      | VStr s => negb (String.eqb s "") && existsb (String.eqb s) pieces
      | _ => false
      end in
    run (handle P config (MString text) m2m) w
    = (if passes
       then branch config event m2m w
              (t1 ++ [Logged debug (Challenge_get_subTrack subTrack)])
       else (Returned tt,
             t1 ++ [Logged debug (Challenge_get_subTrack subTrack);
                    Logged debug (Skipping_as_NOT_MM_found_in pieces)]))
    /\ (passes = true ->
        exists s,
          subTrack = VStr s /\ s <> ""%string
          /\ starts_with_space s = false /\ ends_with_space s = false).
Proof.
  intros text event m2m w subTrack t1 Hadm Hst Hstring pieces passes.
  assert (Hpasses : relevant config subTrack = passes).
  { unfold relevant, passes, allow_set. fold pieces.
    rewrite includes_string.
    destruct subTrack; cbn [truthy]; rewrite ?andb_false_r; reflexivity. }
  split.
  - rewrite (handle_admitted P config _ _ _ _ Hadm).
    destruct (admitted_object P config _ _ Hadm)
      as (fields & payload & -> & Hp & _).
    now rewrite (route_run P config _ _ _ _ _ _ Hp Hst Hstring), Hpasses.
  - intros Htrue. subst passes.
    destruct subTrack as [| | | | |s| |]; try discriminate.
    apply andb_true_iff in Htrue as [Hne Hin].
    apply existsb_exists in Hin as (x & Hin & Heq).
    apply String.eqb_eq in Heq. subst x.
    exists s. split; [reflexivity|]. split.
    + intros ->. discriminate.
    + destruct (plain_name_parts s
                  (allow_set_entry (CHALLENGE_SUBTRACK config) s Hin))
        as (Hstart & Hend & _).
      now split.
Qed.

(** X13. Which line a dropped event leaves, for a valid event that is an
    object: a topic that is neither configured topic is reported first,
    whatever the originator and the resource; then an originator other
    than the configured one; then the resource 'submission'.  In each case
    the line is the whole trace. *)
Theorem X13_drop_diagnostics_in_order :
  forall (text : string) (fields : list (string * value)) (m2m : bool)
         (w : world),
    text <> ""%string ->
    JSON_parse P text = Some (VObj fields) ->
    Joi_validate P (VObj fields) eventSchema handle_options = [] ->
    let event := VObj fields in
    let topic_ok :=
      topic_is event (KAFKA_NEW_SUBMISSION_TOPIC config)
      || topic_is event (KAFKA_UPDATE_SUBMISSION_TOPIC config) in
    let originator_ok :=
      strict_eq_str (lookup "originator" fields)
        (KAFKA_NEW_SUBMISSION_ORIGINATOR config) in
    (topic_ok = false ->
     run (handle P config (MString text) m2m) w
     = (Returned tt,
        [Logged debug (Skipped_event_from_topic (lookup "topic" fields))]))
    /\ (topic_ok = true -> originator_ok = false ->
        run (handle P config (MString text) m2m) w
        = (Returned tt,
           [Logged debug
              (Skipped_event_from_originator (lookup "originator" fields))]))
    /\ (topic_ok = true -> originator_ok = true ->
        lodash_get event ["payload"; "resource"] = VStr "submission" ->
        run (handle P config (MString text) m2m) w
        = (Returned tt,
           [Logged debug (Skipped_event_from_resource (VStr "submission"))])).
Proof.
  intros text fields m2m w Htext Hparse Hvalid event topic_ok originator_ok.
  assert (Hcheck : run (handle P config (MString text) m2m) w
                   = run (check config (VObj fields) m2m) w).
  { destruct text as [|c rest]; [congruence|].
    unfold run. cbn [handle]. rewrite Hparse. cbn [truthy negb].
    now rewrite Hvalid. }
  rewrite Hcheck. unfold run, check. run_step. cbn [member get_own].
  destruct (valid_event_reads P (VObj fields) Hvalid) as [Htopic Horig].
  cbn [get_own] in Htopic, Horig. rewrite Htopic, Horig.
  subst topic_ok originator_ok event. unfold topic_is. cbn [get_own].
  destruct (strict_eq_str (lookup "topic" fields)
              (KAFKA_NEW_SUBMISSION_TOPIC config));
    destruct (strict_eq_str (lookup "topic" fields)
                (KAFKA_UPDATE_SUBMISSION_TOPIC config));
    cbn [negb andb orb].
  4:{ split; [reflexivity | split; discriminate]. }
  all: split; [discriminate|].
  all: destruct (strict_eq_str (lookup "originator" fields)
                   (KAFKA_NEW_SUBMISSION_ORIGINATOR config));
    cbn [negb]; (split; [try discriminate; reflexivity|]);
    try (intros _ Habs; discriminate).
  all: intros _ _ Hres.
  all: destruct (valid_event_payload P fields Hvalid) as (payload & Hp & _).
  all: rewrite (payload_reads P _ _ _ Hp), Hres; reflexivity.
Qed.

End HandlerPaths.

(** ** No state is kept between messages *)

Lemma local_ret {A : Type} (a : A) : local (ret a).
Proof. intros w _ t. cbn. now rewrite app_nil_r. Qed.

Lemma local_throw {A : Type} (e : thrown) : local (@throw A e).
Proof. intros w _ t. cbn. now rewrite app_nil_r. Qed.

Lemma local_await (c : call) : local (await c).
Proof.
  intros w Hw t. unfold await. cbn [fst snd app calls_of].
  now rewrite (Hw (calls_of t) []).
Qed.

Lemma local_read (v : value) (k : string) : local (read v k).
Proof.
  unfold read. destruct (member v k); [apply local_ret | apply local_throw].
Qed.

Lemma local_bind {A B : Type} (m : M A) (k : A -> M B) :
  local m -> (forall a, local (k a)) -> local (bind m k).
Proof.
  intros Hm Hk w Hw t. unfold bind. rewrite (Hm w Hw t).
  destruct (m w []) as [[a|e] d]; cbn [fst snd]; [| reflexivity].
  rewrite (Hk a w Hw (t ++ d)), (Hk a w Hw d). cbn [fst snd].
  now rewrite app_assoc.
Qed.

Lemma local_template (vs : list value) : local (template vs).
Proof.
  induction vs as [|v vs IH]; cbn [template]; [apply local_ret|].
  destruct (stringifiable v); [exact IH | apply local_throw].
Qed.

Lemma local_log (l : level) (n : line) : local (log l n).
Proof.
  unfold log. apply local_bind; [apply local_template|].
  intros _ w _ t. reflexivity.
Qed.

Lemma local_try_catch {A : Type} (m : M A) (h : thrown -> M A) :
  local m -> (forall e, local (h e)) -> local (try_catch m h).
Proof.
  intros Hm Hh w Hw t. unfold try_catch. rewrite (Hm w Hw t).
  destruct (m w []) as [[a|e] d]; cbn [fst snd]; [reflexivity|].
  rewrite (Hh e w Hw (t ++ d)), (Hh e w Hw d). cbn [fst snd].
  now rewrite app_assoc.
Qed.

Lemma local_log_api_error (with_response : value -> line)
    (no_response : line) (err : thrown) :
  local (log_api_error with_response no_response err).
Proof.
  unfold log_api_error.
  destruct err as [[r|] [|] | |]; apply local_log.
Qed.

Ltac prove_local :=
  repeat first
    [ apply local_ret | apply local_throw | apply local_log
    | apply local_template
    | apply local_await | apply local_read | apply local_log_api_error
    | apply local_bind; [| intros ?]
    | apply local_try_catch; [| intros ?]
    | progress cbv zeta
    | match goal with
      | |- local (if ?b then _ else _) => destruct b
      end ].

Lemma local_getSubmission (submissionId : value) (m2m : bool) :
  local (getSubmission submissionId m2m).
Proof. unfold getSubmission. prove_local. Qed.

Lemma local_getSubTrack (submissionId : value) (m2m : bool) :
  local (getSubTrack submissionId m2m).
Proof.
  unfold getSubTrack. apply local_try_catch; [| intros e; prove_local].
  apply local_bind; [apply local_getSubmission | intros submission].
  prove_local.
Qed.

Lemma local_branch (config : Config) (event : value) (m2m : bool) :
  local (branch config event m2m).
Proof.
  unfold branch.
  apply local_bind; [apply local_read | intros payload].
  apply local_bind; [apply local_read | intros resource].
  destruct (truthy resource && strict_eq_str resource "review");
    [prove_local|].
  destruct (truthy resource && strict_eq_str resource "reviewSummation");
    [| prove_local].
  apply local_bind; [apply local_read | intros topic].
  destruct (strict_eq_str topic (KAFKA_NEW_SUBMISSION_TOPIC config));
    [| prove_local].
  cbv zeta.
  apply local_bind; [apply local_getSubmission | intros sub].
  prove_local.
Qed.

Lemma local_route (config : Config) (event : value) (m2m : bool) :
  local (route config event m2m).
Proof.
  unfold route.
  apply local_bind; [apply local_read | intros payload].
  apply local_bind; [apply local_read | intros submissionId].
  apply local_bind; [apply local_getSubTrack | intros subTrack].
  apply local_bind; [apply local_log | intros _].
  cbv zeta.
  destruct (negb _); [apply local_log | apply local_branch].
Qed.

Lemma local_check (config : Config) (event : value) (m2m : bool) :
  local (check config event m2m).
Proof.
  unfold check.
  apply local_bind; [apply local_read | intros topic].
  destruct (negb _ && negb _); [apply local_log|].
  apply local_bind; [apply local_read | intros originator].
  destruct (negb _); [apply local_log|].
  apply local_bind; [apply local_read | intros payload].
  apply local_bind; [apply local_read | intros resource].
  destruct (strict_eq_str resource "submission");
    [apply local_log | apply local_route].
Qed.

Lemma local_handle (P : Platform) (config : Config) (msg : message_value)
    (m2m : bool) :
  local (handle P config msg m2m).
Proof.
  destruct msg as [| |text]; try apply local_log.
  destruct text as [|c rest]; [apply local_log|].
  cbn [handle].
  destruct (JSON_parse P (String c rest)) as [event|]; [| apply local_log].
  destruct (negb (truthy event)); [apply local_log|].
  cbv zeta.
  destruct (Joi_validate P event eventSchema handle_options);
    [apply local_check | apply local_log].
Qed.

(** X14. [handle] keeps no state between messages.  Against stateless
    collaborators it does from any earlier trace exactly what it does from
    the empty one, appended: handling the same message again repeats every
    call, so a dispatched update is attempted a second time. *)
Theorem X14_handle_keeps_no_state :
  forall (P : Platform) (config : Config) (msg : message_value) (m2m : bool)
         (w : world) (r : result unit) (d : trace),
    stateless w ->
    run (handle P config msg m2m) w = (r, d) ->
    (forall t, handle P config msg m2m w t = (r, t ++ d))
    /\ handle P config msg m2m w d = (r, d ++ d)
    /\ mutations (d ++ d) = mutations d ++ mutations d.
Proof.
  intros P config msg m2m w r d Hw Hrun.
  assert (H : forall t, handle P config msg m2m w t = (r, t ++ d)).
  { intros t. rewrite (local_handle P config msg m2m w Hw t).
    unfold run in Hrun. now rewrite Hrun. }
  split; [assumption | split; [apply H | apply mutations_app]].
Qed.

(** ** More on validation *)

Section SchemaProperties.

Variable P : Platform.
Variable config : Config.

(** X15. Validation looks at the schema's keys only.  Two events that are
    objects and agree on topic, originator, timestamp, mime-type and
    payload get the same error details; and replacing the payload object
    by one that agrees with it on the payload's schema keys changes
    nothing either.  Other fields neither cause nor hide an error. *)
Theorem X15_validation_reads_schema_keys_only :
  forall (fields : list (string * value)),
    (forall fields',
       (forall k, In k (map fst event_children) ->
                  lookup k fields' = lookup k fields) ->
       Joi_validate P (VObj fields') eventSchema handle_options
       = Joi_validate P (VObj fields) eventSchema handle_options)
    /\ (forall payload payload',
          lookup "payload" fields = VObj payload ->
          (forall k, In k payload_keys ->
                     lookup k payload' = lookup k payload) ->
          Joi_validate P (VObj (("payload", VObj payload') :: fields))
            eventSchema handle_options
          = Joi_validate P (VObj fields) eventSchema handle_options).
Proof.
  intros fields. split.
  - intros fields' Hagree.
    rewrite (event_details P (VObj fields') fields' eq_refl).
    rewrite (event_details P (VObj fields) fields eq_refl).
    cbn [children_errors event_children map fst snd].
    now rewrite !Hagree by (cbn; tauto).
  - intros payload payload' Hpayload Hagree.
    rewrite (event_details P (VObj _) _ eq_refl).
    rewrite (event_details P (VObj fields) fields eq_refl).
    cbn [children_errors event_children map fst snd].
    cbn [lookup String.eqb Ascii.eqb Bool.eqb].
    rewrite Hpayload.
    rewrite (payload_details P _ (VObj payload') payload' eq_refl).
    rewrite (payload_details P _ (VObj payload) payload eq_refl).
    cbn [children_errors payload_children map fst snd].
    now rewrite !Hagree by (cbn; tauto).
Qed.

(** X16. A missing required field is reported under its own key: for an
    event that is an object, each of topic, originator, timestamp,
    mime-type and payload that is absent gives the detail '"key" is
    required' at path [key]; and an absent payload.id gives it at path
    [payload; id]. *)
Theorem X16_missing_required_field_is_reported :
  forall (fields : list (string * value)),
    (forall k,
       In k ["topic"; "originator"; "timestamp"; "mime-type"; "payload"]
         %string ->
       lookup k fields = VUndefined ->
       In {| message := (dquote ++ k ++ dquote ++ " is required")%string;
             path := [k]; type := "any.required" |}
          (Joi_validate P (VObj fields) eventSchema handle_options))
    /\ (forall payload,
          as_object P (lookup "payload" fields) = Some payload ->
          lookup "id" payload = VUndefined ->
          In {| message := (dquote ++ "id" ++ dquote ++ " is required")%string;
                path := ["payload"; "id"]%string; type := "any.required" |}
             (Joi_validate P (VObj fields) eventSchema handle_options)).
Proof.
  intros fields. split.
  - intros k Hk Habsent.
    rewrite (event_details P (VObj fields) fields eq_refl).
    cbn in Hk.
    destruct Hk as [<- | [<- | [<- | [<- | [<- | []]]]]];
      match goal with
      | |- In _ (concat (children_errors _ _ _ _ event_children)) =>
          cbn [children_errors event_children map fst snd concat];
          rewrite Habsent
      end;
      repeat (apply in_or_app; first [left; left; reflexivity | right]).
  - intros payload Hp Habsent.
    rewrite (event_details P (VObj fields) fields eq_refl).
    apply (children_errors_In P [] fields event_children "payload"
             (JObject (flags_of Required) (Some payload_children)
                (Some true))); [cbn; tauto|].
    rewrite (payload_details P _ _ payload Hp).
    cbn [children_errors payload_children map fst snd concat].
    rewrite Habsent. apply in_or_app. left. left. reflexivity.
Qed.


End SchemaProperties.

(** * The theorems at work on the example messages *)

Import Examples.

Ltac by_computation :=
  repeat split; vm_compute; try reflexivity; try discriminate.

Lemma C3_witness :
  JSON_parse Reference.platform "{" = None
  /\ exists n,
       run (handle Reference.platform config (MString "{") true) marathon
       = (Returned tt, [Logged debug n])
       /\ (n = Skipped_non_well_formed_JSON_message
           \/ n = Skipped_null_or_empty_event).
Proof.
  split; [reflexivity|].
  apply (C3_malformed_json_is_dropped Reference.platform config "{" true
           marathon).
  reflexivity.
Defined.

Lemma C10_witness :
  (exists text event,
     MString "null" = MString text
     /\ JSON_parse Reference.platform text = Some event
     /\ truthy event = false)
  /\ run (handle Reference.platform config (MString "null") true) marathon
     = (Returned tt, [Logged debug Skipped_null_or_empty_event]).
Proof.
  assert (H : exists text event,
            MString "null" = MString text
            /\ JSON_parse Reference.platform text = Some event
            /\ truthy event = false)
    by (exists "null", VNull; repeat split).
  split; [exact H|].
  apply (C10_null_or_empty_is_skipped Reference.platform config
           (MString "null") true marathon).
  right. right. right. exact H.
Defined.

Lemma C7_witness :
  JSON_parse Reference.platform other_topic_text = Some other_topic_event
  /\ Joi_validate Reference.platform other_topic_event eventSchema
       handle_options = []
  /\ topic_is other_topic_event (KAFKA_NEW_SUBMISSION_TOPIC config)
     || topic_is other_topic_event (KAFKA_UPDATE_SUBMISSION_TOPIC config)
     = false
  /\ exists n,
       run (handle Reference.platform config (MString other_topic_text) true)
           marathon
       = (Returned tt, [Logged debug n]).
Proof.
  assert (Hparse : JSON_parse Reference.platform other_topic_text
                   = Some other_topic_event) by by_computation.
  assert (Hvalid : Joi_validate Reference.platform other_topic_event
                     eventSchema handle_options = []) by by_computation.
  split; [assumption | split; [assumption | split; [reflexivity|]]].
  apply (C7_irrelevant_event_is_dropped Reference.platform config
           other_topic_text other_topic_event true marathon Hparse Hvalid).
  left. reflexivity.
Defined.

Lemma summation_admitted :
  admitted Reference.platform config summation_text summation_event.
Proof. by_computation. Qed.

Lemma review_admitted (typeId : string) :
  typeId = payload_type \/ typeId = "other" ->
  admitted Reference.platform config (review_text typeId) (review_event typeId).
Proof. intros [-> | ->]; by_computation. Qed.

Lemma C1_witness :
  mutations
    (snd (run (handle Reference.platform config (MString summation_text) true)
              marathon)) <> []
  /\ exists text event subTrack t1,
       MString summation_text = MString text
       /\ JSON_parse Reference.platform text = Some event
       /\ run (getSubTrack (lodash_get event ["payload"; "submissionId"]) true)
              marathon
          = (Returned (VStr subTrack), t1)
       /\ In subTrack (allow_set (CHALLENGE_SUBTRACK config))
       /\ (lodash_get event ["payload"; "resource"] = VStr "review"
           \/ lodash_get event ["payload"; "resource"]
              = VStr "reviewSummation").
Proof.
  assert (Hmut : mutations
            (snd (run (handle Reference.platform config
                         (MString summation_text) true) marathon)) <> [])
    by (vm_compute; discriminate).
  split; [assumption|].
  apply (C1_mutation_only_for_relevant_reviews Reference.platform config
           (MString summation_text) true marathon
           (fst (run (handle Reference.platform config
                        (MString summation_text) true) marathon))
           (snd (run (handle Reference.platform config
                        (MString summation_text) true) marathon)));
    [apply surjective_pairing | assumption].
Defined.

Lemma C6_witness :
  admitted Reference.platform config (review_text payload_type)
    (review_event payload_type)
  /\ lodash_get (review_event payload_type) ["payload"; "resource"]
     = VStr "review"
  /\ run (getSubTrack
            (lodash_get (review_event payload_type)
               ["payload"; "submissionId"]) false) marathon
     = (Returned (VStr "DEVELOP_MARATHON_MATCH"), resolution_trace None)
  /\ relevant config (VStr "DEVELOP_MARATHON_MATCH") = true
  /\ exists r,
       run (handle Reference.platform config
              (MString (review_text payload_type)) false) marathon
       = (r, (resolution_trace None
              ++ [Logged debug
                    (Challenge_get_subTrack (VStr "DEVELOP_MARATHON_MATCH"))])
             ++ [Called (updateReviewScore (review_event payload_type))])
       /\ mutations
            ((resolution_trace None
              ++ [Logged debug
                    (Challenge_get_subTrack (VStr "DEVELOP_MARATHON_MATCH"))])
             ++ [Called (updateReviewScore (review_event payload_type))])
          = [updateReviewScore (review_event payload_type)].
Proof.
  assert (Hadm := review_admitted payload_type (or_introl eq_refl)).
  assert (Hres : lodash_get (review_event payload_type)
                   ["payload"; "resource"] = VStr "review") by reflexivity.
  assert (Hst : run (getSubTrack
                       (lodash_get (review_event payload_type)
                          ["payload"; "submissionId"]) false) marathon
                = (Returned (VStr "DEVELOP_MARATHON_MATCH"),
                   resolution_trace None)) by (vm_compute; reflexivity).
  assert (Hrel : relevant config (VStr "DEVELOP_MARATHON_MATCH") = true)
    by (vm_compute; reflexivity).
  repeat (split; [assumption|]).
  exact (C6_review_dispatch Reference.platform config
           (review_text payload_type) (review_event payload_type) false
           marathon (VStr "DEVELOP_MARATHON_MATCH") (resolution_trace None)
           Hadm Hres Hst Hrel).
Defined.

Lemma X19_witness :
  admitted Reference.platform config summation_text summation_event
  /\ lodash_get summation_event ["payload"; "resource"]
     = VStr "reviewSummation"
  /\ run (getSubTrack
            (lodash_get summation_event ["payload"; "submissionId"]) false)
         marathon
     = (Returned (VStr "DEVELOP_MARATHON_MATCH"), resolution_trace None)
  /\ relevant config (VStr "DEVELOP_MARATHON_MATCH") = true
  /\ topic_is summation_event (KAFKA_NEW_SUBMISSION_TOPIC config) = true
  /\ exists sub t3,
       getSubmission (lodash_get_path summation_event "payload.submissionId")
         false marathon
         (resolution_trace None
          ++ [Logged debug
                (Challenge_get_subTrack (VStr "DEVELOP_MARATHON_MATCH"))])
       = (Returned sub, t3)
       /\ mutations t3 = []
       /\ match member sub "legacySubmissionId" with
          | Some legacySubmissionId =>
              if truthy legacySubmissionId
              then
                exists r,
                  run (handle Reference.platform config
                         (MString summation_text) false) marathon
                  = (r, t3 ++ [Called
                                 (LegacySubmissionIdService_updateReviewScore
                                    legacySubmissionId
                                    (lodash_get_path summation_event
                                       "payload.aggregateScore")
                                    "finalScore")])
                  /\ mutations
                       (t3 ++ [Called
                                 (LegacySubmissionIdService_updateReviewScore
                                    legacySubmissionId
                                    (lodash_get_path summation_event
                                       "payload.aggregateScore")
                                    "finalScore")])
                     = [LegacySubmissionIdService_updateReviewScore
                          legacySubmissionId
                          (lodash_get_path summation_event
                             "payload.aggregateScore")
                          "finalScore"]
              else
                run (handle Reference.platform config
                       (MString summation_text) false) marathon
                = (Threw (Error "legacySubmissionId not found"), t3)
          | None =>
              run (handle Reference.platform config
                     (MString summation_text) false) marathon
              = (Threw TypeError, t3)
          end.
Proof.
  assert (Hadm := summation_admitted).
  assert (Hres : lodash_get summation_event ["payload"; "resource"]
                 = VStr "reviewSummation") by reflexivity.
  assert (Hst : run (getSubTrack
                       (lodash_get summation_event
                          ["payload"; "submissionId"]) false) marathon
                = (Returned (VStr "DEVELOP_MARATHON_MATCH"),
                   resolution_trace None)) by (vm_compute; reflexivity).
  assert (Hrel : relevant config (VStr "DEVELOP_MARATHON_MATCH") = true)
    by (vm_compute; reflexivity).
  assert (Htopic : topic_is summation_event
                     (KAFKA_NEW_SUBMISSION_TOPIC config) = true)
    by (vm_compute; reflexivity).
  repeat (split; [assumption|]).
  exact (proj1 (X19_review_summation_dispatch Reference.platform config
                  summation_text summation_event false marathon
                  (VStr "DEVELOP_MARATHON_MATCH") (resolution_trace None)
                  Hadm Hres Hst Hrel) Htopic).
Defined.

(** C2, as stated, fails on a message the handler can receive: a valid
    reviewSummation event that also has top-level keys named
    'payload.aggregateScore' and 'payload.submissionId'.  Validation
    tolerates the two keys, lodash reads them in place of the payload's
    fields, and so the submission fetched again is number 7, not the
    payload's 42, and the final-score update carries the score 1, not the
    payload's aggregateScore 87.5. *)
Lemma C2_dotted_keys_are_read_in_place_of_the_payload :
  JSON_parse Reference.platform dotted_text = Some dotted_event
  /\ admitted Reference.platform config dotted_text dotted_event
  /\ lodash_get dotted_event ["payload"; "resource"] = VStr "reviewSummation"
  /\ lodash_get dotted_event ["payload"; "aggregateScore"] = VNum (175 # 2)
  /\ lodash_get dotted_event ["payload"; "submissionId"] = VNum 42
  /\ fst (run (handle Reference.platform config (MString dotted_text) false)
              marathon) = Returned tt
  /\ calls_of
       (snd (run (handle Reference.platform config (MString dotted_text)
                    false) marathon))
     = [axios_get_submission (VNum 42) None;
        Axios_get_challenge (VNum 30054);
        axios_get_submission (VNum 7) None;
        LegacySubmissionIdService_updateReviewScore (VNum 9001) (VNum 1)
          "finalScore"].
Proof. by_computation. Qed.

Lemma C9_witness :
  faulty_text <> ""
  /\ JSON_parse Reference.platform faulty_text = Some faulty_event
  /\ truthy faulty_event = true
  /\ Joi_validate Reference.platform faulty_event eventSchema handle_options
     <> []
  /\ run (handle Reference.platform config (MString faulty_text) true)
         marathon
     = (Returned tt,
        [Logged debug (Skipped_invalid_event_reasons faulty_diagnostic)])
  /\ map reason_of
       (Joi_validate Reference.platform faulty_event eventSchema
          handle_options)
     = [(["topic"], "any.required");
        (["originator"], "any.required");
        (["payload"; "challengeId"], "number.integer");
        (["payload"; "challengeId"], "number.positive");
        (["payload"; "memberId"], "any.invalid");
        (["payload"; "memberId"], "number.integer");
        (["payload"; "score"], "number.max")].
Proof.
  assert (H1 : faulty_text <> "") by (vm_compute; discriminate).
  assert (H2 : JSON_parse Reference.platform faulty_text
               = Some faulty_event) by (vm_compute; reflexivity).
  assert (H3 : truthy faulty_event = true) by reflexivity.
  assert (H4 : Joi_validate Reference.platform faulty_event eventSchema
                 handle_options <> []) by (vm_compute; discriminate).
  repeat (split; [assumption|]).
  destruct (C9_all_field_errors_are_collected Reference.platform config
              faulty_text faulty_event true marathon H1 H2 H3 H4)
    as [Hrun Hreasons].
  split.
  - rewrite Hrun. vm_compute. reflexivity.
  - rewrite Hreasons. vm_compute. reflexivity.
Defined.

(** The diagnostic of the invalid example: three errors, one line. *)
Example invalid_event_diagnostic :
  map type (Joi_validate Reference.platform invalid_event eventSchema
              handle_options)
  = ["any.required"; "any.required"; "number.max"]
  /\ map path (Joi_validate Reference.platform invalid_event eventSchema
                 handle_options)
     = [["topic"]; ["originator"]; ["payload"; "score"]].
Proof. split; vm_compute; reflexivity. Qed.

Lemma C8_witness :
  negative_challenge_text <> ""
  /\ JSON_parse Reference.platform negative_challenge_text
     = Some negative_challenge_event
  /\ truthy negative_challenge_event = true
  /\ (Joi_validate Reference.platform negative_challenge_event eventSchema
        handle_options = []
      <-> event_shape Reference.platform negative_challenge_event = true).
Proof.
  assert (H1 : negative_challenge_text <> "") by (vm_compute; discriminate).
  assert (H2 : JSON_parse Reference.platform negative_challenge_text
               = Some negative_challenge_event) by (vm_compute; reflexivity).
  assert (H3 : truthy negative_challenge_event = true) by reflexivity.
  repeat (split; [assumption|]).
  exact (proj1 (C8_validation_accepts_the_schema_shape Reference.platform
                  config negative_challenge_text negative_challenge_event
                  true marathon H1 H2 H3)).
Defined.

(** C8, as stated, fails: this event carries every required top-level
    field and a positive integer payload.id, and validation rejects it,
    because its optional challengeId is not positive. *)
Lemma C8_required_fields_do_not_suffice :
  JSON_parse Reference.platform negative_challenge_text
  = Some negative_challenge_event
  /\ InboundEvent_required_fields Reference.platform negative_challenge_event
     = true
  /\ map type (Joi_validate Reference.platform negative_challenge_event
                 eventSchema handle_options)
     = ["number.positive"]
  /\ run (handle Reference.platform config (MString negative_challenge_text)
            true) marathon
     = (Returned tt,
        [Logged debug
           (Skipped_invalid_event_reasons
              (dquote ++ "challengeId" ++ dquote
               ++ " must be a positive number")%string)]).
Proof. by_computation. Qed.



Lemma C4_witness :
  JSON_parse Reference.platform summation_text = Some summation_event
  /\ run (getSubTrack
            (lodash_get summation_event ["payload"; "submissionId"]) false)
         unreachable
     = (Returned VUndefined, failed_resolution_trace)
  /\ any_failed unreachable [] failed_resolution_trace = true
  /\ relevant config VUndefined = false
  /\ (exists t,
        run (handle Reference.platform config (MString summation_text) false)
            unreachable = (Returned tt, t)
        /\ mutations t = []).
Proof.
  assert (H1 : JSON_parse Reference.platform summation_text
               = Some summation_event) by (vm_compute; reflexivity).
  assert (H2 : run (getSubTrack
                      (lodash_get summation_event
                         ["payload"; "submissionId"]) false) unreachable
               = (Returned VUndefined, failed_resolution_trace))
    by (vm_compute; reflexivity).
  assert (H3 : any_failed unreachable [] failed_resolution_trace = true)
    by reflexivity.
  repeat (split; [assumption|]).
  destruct (C4_subtrack_resolution_failure_is_not_fatal Reference.platform
              config summation_text summation_event false unreachable
              VUndefined failed_resolution_trace H1 H2 (or_introl H3))
    as (Hrel & Hrun & _).
  split; assumption.
Defined.

(** C4, as stated, fails on the reviewSummation branch: when the second
    submission fetch gets no response, [getSubmission] returns [undefined]
    and the read of its legacySubmissionId throws. *)
Lemma C4_second_fetch_failure_is_fatal :
  admitted Reference.platform config summation_text summation_event
  /\ any_failed fails_second_fetch []
       (snd (run (handle Reference.platform config (MString summation_text)
                    false) fails_second_fetch)) = true
  /\ fst (run (handle Reference.platform config (MString summation_text)
                 false) fails_second_fetch)
     = Threw TypeError
  /\ calls_of
       (snd (run (handle Reference.platform config (MString summation_text)
                    false) fails_second_fetch))
     = [axios_get_submission (VNum 42) None;
        Axios_get_challenge (VNum 30054);
        axios_get_submission (VNum 42) None].
Proof. by_computation. Qed.

(** ** The scenarios of the specification *)

(** The reviewSummation event, SubTrack DEVELOP_MARATHON_MATCH, submission
    record with legacySubmissionId 9001: exactly one final-score update,
    with value 87.5, keyed on 9001. *)
Example scenario_final_score :
  fst (run (handle Reference.platform config (MString summation_text) false)
           marathon) = Returned tt
  /\ mutations
       (snd (run (handle Reference.platform config (MString summation_text)
                    false) marathon))
     = [LegacySubmissionIdService_updateReviewScore (VNum 9001)
          (VNum (175 # 2)) "finalScore"].
Proof. by_computation. Qed.

(** The same event when the submission service is unreachable: no update,
    nothing thrown. *)
Example scenario_unreachable :
  fst (run (handle Reference.platform config (MString summation_text) false)
           unreachable) = Returned tt
  /\ mutations
       (snd (run (handle Reference.platform config (MString summation_text)
                    false) unreachable)) = [].
Proof. by_computation. Qed.

(** A review whose typeId is not in the allow-set: no update, and the
    trace ends with the note on the typeId. *)
Example scenario_invalid_typeId :
  run (handle Reference.platform config (MString (review_text "other")) false)
      marathon
  = (Returned tt,
     resolution_trace None
     ++ [Logged debug (Challenge_get_subTrack (VStr "DEVELOP_MARATHON_MATCH"));
         Logged debug Skipped_Invalid_typeId]).
Proof. by_computation. Qed.

(** A review in a challenge of another SubTrack is dropped at the
    filter. *)
Example scenario_other_subtrack :
  mutations
    (snd (run (handle Reference.platform config
                 (MString (review_text payload_type)) false) first2finish))
  = [].
Proof. by_computation. Qed.

(** A challenge service that answers with an object holding a toString
    key where the SubTrack name is expected: the debug line of line 166
    cannot be written, and [handle] throws before the filter. *)
Example scenario_subtrack_without_string :
  stringifiable odd_subtrack = false
  /\ run (handle Reference.platform config
            (MString (review_text payload_type)) false) odd_challenge
     = (Threw TypeError, resolution_trace None).
Proof. by_computation. Qed.

(** A submission id that has no string: nothing is sent, and
    [getSubmission] returns [undefined] after logging the TypeError. *)
Example getSubmission_without_string :
  run (getSubmission odd_subtrack false) marathon
  = (Returned VUndefined, [Logged error (inspect TypeError)])
  /\ run (getSubmission (VArr [VNum 1; odd_subtrack]) true) marathon
     = (Returned VUndefined,
        [Called m2m_getMachineToken; Logged error (inspect TypeError)]).
Proof. by_computation. Qed.

(** The two paths lodash is asked for in the reviewSummation branch, and
    the path of the SubTrack, as lists of keys. *)
Example paths_of_the_file :
  stringToPath "payload.aggregateScore" = ["payload"; "aggregateScore"]
  /\ stringToPath "payload.submissionId" = ["payload"; "submissionId"]
  /\ stringToPath "result.content[0].subTrack"
     = ["result"; "content"; "0"; "subTrack"].
Proof. by_computation. Qed.

(** With [abortEarly] the same event would report its first error only. *)
Example invalid_event_first_error_only :
  map type (Joi_validate Reference.platform invalid_event eventSchema
              {| abortEarly := true; stripUnknown := true |})
  = ["any.required"].
Proof. vm_compute. reflexivity. Qed.

(** ** The further properties on the example messages *)

Lemma X2_witness :
  ["MARATHON_MATCH"; "DEVELOP_MARATHON_MATCH"]%string <> []
  /\ (forall x, In x ["MARATHON_MATCH"; "DEVELOP_MARATHON_MATCH"]%string ->
        plain_name x = true)
  /\ allow_set "MARATHON_MATCH, DEVELOP_MARATHON_MATCH"
     = ["MARATHON_MATCH"; "DEVELOP_MARATHON_MATCH"]%string.
Proof.
  assert (H1 : ["MARATHON_MATCH"; "DEVELOP_MARATHON_MATCH"]%string <> [])
    by discriminate.
  assert (H2 : forall x,
            In x ["MARATHON_MATCH"; "DEVELOP_MARATHON_MATCH"]%string ->
            plain_name x = true)
    by (intros x [<- | [<- | []]]; reflexivity).
  split; [assumption | split; [assumption|]].
  exact (X2_allow_set_reads_back_a_joined_list _ H1 H2).
Defined.

(** [trim()] removes the no-break space U+00A0 and the line separator
    U+2028 like any other white space. *)
Example allow_set_unicode_space :
  allow_set
    (String (ascii_of_nat 194) (String (ascii_of_nat 160)
       "DEVELOP_MARATHON_MATCH , x"
     ++ String (ascii_of_nat 226) (String (ascii_of_nat 128)
          (String (ascii_of_nat 168) ""))))
  = ["DEVELOP_MARATHON_MATCH"; "x"]%string.
Proof. vm_compute. reflexivity. Qed.

Example trim_removes_white_space :
  forallb (fun sp => String.eqb (trim (sp ++ "a b" ++ sp)) "a b") white_space
  = true
  /\ forallb (fun sp => String.eqb (trim (sp ++ "x" ++ sp)) (sp ++ "x" ++ sp))
       no_white_space
     = true.
Proof. split; vm_compute; reflexivity. Qed.

Lemma X3_witness :
  admitted Reference.platform config (review_text payload_type)
    (review_event payload_type)
  /\ run (getSubTrack
            (lodash_get (review_event payload_type)
               ["payload"; "submissionId"]) false) first2finish
     = (Returned (VStr "FIRST_2_FINISH"), resolution_trace None)
  /\ stringifiable (VStr "FIRST_2_FINISH") = true
  /\ run (handle Reference.platform config
            (MString (review_text payload_type)) false) first2finish
     = (Returned tt,
        resolution_trace None
        ++ [Logged debug (Challenge_get_subTrack (VStr "FIRST_2_FINISH"));
            Logged debug
              (Skipping_as_NOT_MM_found_in
                 ["MARATHON_MATCH"; "DEVELOP_MARATHON_MATCH"]%string)]).
Proof.
  assert (Hadm := review_admitted payload_type (or_introl eq_refl)).
  assert (Hst : run (getSubTrack
                       (lodash_get (review_event payload_type)
                          ["payload"; "submissionId"]) false) first2finish
                = (Returned (VStr "FIRST_2_FINISH"), resolution_trace None))
    by (vm_compute; reflexivity).
  assert (Hstring : stringifiable (VStr "FIRST_2_FINISH") = true)
    by reflexivity.
  repeat (split; [assumption|]).
  exact (proj1 (X3_subtrack_filter Reference.platform config
                  (review_text payload_type) (review_event payload_type)
                  false first2finish (VStr "FIRST_2_FINISH")
                  (resolution_trace None) Hadm Hst Hstring)).
Defined.

Lemma X7_witness :
  run (handle Reference.platform config (MString (review_text payload_type))
         false) odd_challenge
  = (Threw TypeError, resolution_trace None)
  /\ exists text event,
       MString (review_text payload_type) = MString text
       /\ admitted Reference.platform config text event
       /\ ((exists subTrack,
              run (getSubTrack
                     (lodash_get event ["payload"; "submissionId"]) false)
                  odd_challenge
              = (Returned subTrack, resolution_trace None)
              /\ stringifiable subTrack = false
              /\ TypeError = TypeError
              /\ mutations (resolution_trace None) = [])
           \/ (exists t0 c,
                 resolution_trace None = t0 ++ [Called c]
                 /\ is_mutation c = true
                 /\ odd_challenge (calls_of t0) c = inr TypeError)
           \/ (lodash_get event ["payload"; "resource"]
               = VStr "reviewSummation"
               /\ topic_is event (KAFKA_NEW_SUBMISSION_TOPIC config) = true
               /\ (TypeError = TypeError
                   \/ TypeError = Error "legacySubmissionId not found")
               /\ mutations (resolution_trace None) = [])).
Proof.
  assert (H : run (handle Reference.platform config
                     (MString (review_text payload_type)) false)
                  odd_challenge
              = (Threw TypeError, resolution_trace None))
    by (vm_compute; reflexivity).
  split; [assumption|].
  exact (X7_where_handle_throws Reference.platform config
           (MString (review_text payload_type)) false odd_challenge
           TypeError _ H).
Defined.

Lemma X8_witness :
  run (handle Reference.platform config (MString summation_text) false)
      marathon
  = (Returned tt,
     snd (run (handle Reference.platform config (MString summation_text) false)
              marathon))
  /\ (length
        (mutations
           (snd (run (handle Reference.platform config
                        (MString summation_text) false) marathon))) <= 1)%nat.
Proof.
  assert (H : run (handle Reference.platform config (MString summation_text)
                     false) marathon
              = (Returned tt,
                 snd (run (handle Reference.platform config
                             (MString summation_text) false) marathon)))
    by (vm_compute; reflexivity).
  split; [assumption|].
  exact (proj1 (X8_at_most_one_update_and_it_is_last Reference.platform
                  config (MString summation_text) false marathon _ _ H)).
Defined.

Lemma X9_witness :
  run (handle Reference.platform config (MString (review_text payload_type))
         false) marathon
  = (Returned tt,
     snd (run (handle Reference.platform config
                 (MString (review_text payload_type)) false) marathon))
  /\ In (updateReviewScore (review_event payload_type))
        (calls_of
           (snd (run (handle Reference.platform config
                        (MString (review_text payload_type)) false)
                     marathon)))
  /\ event_shape Reference.platform (review_event payload_type) = true.
Proof.
  assert (H1 : run (handle Reference.platform config
                      (MString (review_text payload_type)) false) marathon
               = (Returned tt,
                  snd (run (handle Reference.platform config
                              (MString (review_text payload_type)) false)
                           marathon)))
    by (vm_compute; reflexivity).
  assert (H2 : In (updateReviewScore (review_event payload_type))
                 (calls_of
                    (snd (run (handle Reference.platform config
                                 (MString (review_text payload_type)) false)
                              marathon))))
    by (vm_compute; auto 10).
  split; [assumption | split; [assumption|]].
  exact (proj1 (proj2 (X9_review_update_gets_a_valid_event Reference.platform
                         config _ false marathon _ _ _ H1 H2))).
Defined.

Lemma X10_witness :
  run (handle Reference.platform config (MString summation_text) false)
      marathon
  = (Returned tt,
     snd (run (handle Reference.platform config (MString summation_text) false)
              marathon))
  /\ In (LegacySubmissionIdService_updateReviewScore (VNum 9001)
           (VNum (175 # 2)) "finalScore")
        (calls_of
           (snd (run (handle Reference.platform config
                        (MString summation_text) false) marathon)))
  /\ truthy (VNum 9001) = true.
Proof.
  assert (H1 : run (handle Reference.platform config
                      (MString summation_text) false) marathon
               = (Returned tt,
                  snd (run (handle Reference.platform config
                              (MString summation_text) false) marathon)))
    by (vm_compute; reflexivity).
  assert (H2 : In (LegacySubmissionIdService_updateReviewScore (VNum 9001)
                     (VNum (175 # 2)) "finalScore")
                 (calls_of
                    (snd (run (handle Reference.platform config
                                 (MString summation_text) false) marathon))))
    by (vm_compute; auto 10).
  split; [assumption | split; [assumption|]].
  exact (proj1 (proj2 (X10_final_score_update_provenance Reference.platform
                         config _ false marathon _ _ _ _ _ H1 H2))).
Defined.

Lemma X11_witness :
  run (handle Reference.platform config (MString summation_text) true)
      marathon
  = (Returned tt,
     snd (run (handle Reference.platform config (MString summation_text) true)
              marathon))
  /\ (count is_submission_fetch
        (snd (run (handle Reference.platform config (MString summation_text)
                     true) marathon)) <= 2)%nat.
Proof.
  assert (H : run (handle Reference.platform config (MString summation_text)
                     true) marathon
              = (Returned tt,
                 snd (run (handle Reference.platform config
                             (MString summation_text) true) marathon)))
    by (vm_compute; reflexivity).
  split; [assumption|].
  exact (proj1 (X11_calls_are_bounded Reference.platform config
                  (MString summation_text) true marathon _ _ H)).
Defined.

Lemma no_resource_admitted :
  admitted Reference.platform config no_resource_text no_resource_event.
Proof. by_computation. Qed.

Lemma X12_witness :
  admitted Reference.platform config no_resource_text no_resource_event
  /\ run (getSubTrack
            (lodash_get no_resource_event ["payload"; "submissionId"]) false)
         marathon
     = (Returned (VStr "DEVELOP_MARATHON_MATCH"), resolution_trace None)
  /\ lodash_get no_resource_event ["payload"; "resource"] = VUndefined
  /\ run (handle Reference.platform config (MString no_resource_text) false)
         marathon
     = (Returned tt,
        resolution_trace None
        ++ Logged debug
             (Challenge_get_subTrack (VStr "DEVELOP_MARATHON_MATCH"))
           :: (if relevant config (VStr "DEVELOP_MARATHON_MATCH") then []
               else [Logged debug
                       (Skipping_as_NOT_MM_found_in
                          (allow_set (CHALLENGE_SUBTRACK config)))])).
Proof.
  assert (H1 := no_resource_admitted).
  assert (H2 : run (getSubTrack
                      (lodash_get no_resource_event
                         ["payload"; "submissionId"]) false) marathon
               = (Returned (VStr "DEVELOP_MARATHON_MATCH"),
                  resolution_trace None)) by (vm_compute; reflexivity).
  assert (H3 : lodash_get no_resource_event ["payload"; "resource"]
               = VUndefined) by reflexivity.
  repeat (split; [assumption|]).
  exact (proj2 (X12_event_without_resource Reference.platform config
                  no_resource_text no_resource_event false marathon _ _
                  H1 H2) H3).
Defined.

Lemma X13_witness :
  other_topic_text <> ""%string
  /\ JSON_parse Reference.platform other_topic_text = Some other_topic_event
  /\ Joi_validate Reference.platform other_topic_event eventSchema
       handle_options = []
  /\ topic_is other_topic_event (KAFKA_NEW_SUBMISSION_TOPIC config)
     || topic_is other_topic_event (KAFKA_UPDATE_SUBMISSION_TOPIC config)
     = false
  /\ run (handle Reference.platform config (MString other_topic_text) false)
         marathon
     = (Returned tt,
        [Logged debug
           (Skipped_event_from_topic (VStr "challenge.notification.create"))]).
Proof.
  assert (H1 : other_topic_text <> ""%string) by (vm_compute; discriminate).
  assert (H2 : JSON_parse Reference.platform other_topic_text
               = Some other_topic_event) by (vm_compute; reflexivity).
  assert (H3 : Joi_validate Reference.platform other_topic_event eventSchema
                 handle_options = []) by (vm_compute; reflexivity).
  assert (H4 : topic_is other_topic_event (KAFKA_NEW_SUBMISSION_TOPIC config)
               || topic_is other_topic_event
                    (KAFKA_UPDATE_SUBMISSION_TOPIC config) = false)
    by reflexivity.
  repeat (split; [assumption|]).
  exact (proj1 (X13_drop_diagnostics_in_order Reference.platform config
                  other_topic_text _ false marathon H1 H2 H3) H4).
Defined.

Lemma marathon_stateless : stateless marathon.
Proof. intros before before' c. reflexivity. Qed.

Lemma X14_witness :
  stateless marathon
  /\ run (handle Reference.platform config (MString summation_text) false)
         marathon
     = (Returned tt,
        snd (run (handle Reference.platform config (MString summation_text)
                    false) marathon))
  /\ length
       (mutations
          (snd (handle Reference.platform config (MString summation_text)
                  false marathon
                  (snd (run (handle Reference.platform config
                               (MString summation_text) false) marathon)))))
     = 2%nat.
Proof.
  assert (H1 := marathon_stateless).
  assert (H2 : run (handle Reference.platform config
                      (MString summation_text) false) marathon
               = (Returned tt,
                  snd (run (handle Reference.platform config
                              (MString summation_text) false) marathon)))
    by (vm_compute; reflexivity).
  split; [assumption | split; [assumption|]].
  destruct (X14_handle_keeps_no_state Reference.platform config
              (MString summation_text) false marathon _ _ H1 H2)
    as (_ & Hreplay & Hdouble).
  rewrite Hreplay. cbn [snd]. rewrite Hdouble. vm_compute. reflexivity.
Defined.

